(** * file-sorter: a shallow embedding of the classification-and-planning core

    The development follows the Python sources module by module:

    - [PyStr]      the [str] methods the code relies on ([strip], [lower],
                   [split], [join], [count]);
    - [Pathlib]    [pathlib.PurePosixPath] as far as the code uses it;
    - [Action]     [app/folder_action.py];
    - [Categories] [app/categories.py];
    - [Rules]      [app/classifiers/rules.py] and [app/rules_models.py];
    - [Policy]     [app/folder_policy.py];
    - [Media]      [app/media.py], [app/file_nodes.py], [app/path_models.py];
    - [Planner]    the merge step of [app/planner.py];
    - [Db]         the [select_unclassified] query of [app/db.py];
    - [Sorting]    the stable sort behind [sorted] and [ORDER BY];
    - [Mux]        [app/classifiers/multiplexed.py] and [app/metrics.py].

    The definitions come first; the facts proved about a module [M] follow
    in a module [MFacts], in the same order, and further properties of the
    same code (edge cases, invariants, round trips) in a module [MProps].

    Conventions.  A Python [str] is a Rocq [string]; its characters are the
    code points 0..255.  A [dict] that is only looked up and updated is a
    [gmap]; a [dict] whose iteration order matters is an association list in
    insertion order.  Floats (clock readings, latencies, weights) are
    idealised as rationals.  Calls into collaborators with state of their own
    (classifier back ends) thread an abstract world through the model. *)

From Stdlib Require Import ZArith QArith Ascii String List Lia Bool Permutation Sorted.
From stdpp Require Import base option gmap strings list.

#[local] Open Scope string_scope.
#[local] Open Scope list_scope.

(* ===================================================================== *)
(** * Python strings *)
(* ===================================================================== *)

Module PyStr.

(** [ord(ch)] *)
Definition ord (c : ascii) : N := N_of_ascii c.

(** The characters of a string, first to last. *)
Definition chars (s : string) : list ascii := list_ascii_of_string s.

(** [ch.isspace()] on the code points below 256: TAB..CR, FS..US, SPACE,
    NEL and NBSP. *)
Definition isspace (c : ascii) : bool :=
  let n := ord c in
  ((9 <=? n) && (n <=? 13) || (28 <=? n) && (n <=? 32) || (n =? 133) || (n =? 160))%N.

(** [ch.lower()] on the code points below 256: A..Z and the Latin-1 capitals. *)
Definition lower_char (c : ascii) : ascii :=
  let n := ord c in
  if ((65 <=? n) && (n <=? 90) || (192 <=? n) && (n <=? 214) || (216 <=? n) && (n <=? 222))%N
  then ascii_of_N (n + 32) else c.

(** [s.lower()] *)
Fixpoint lower (s : string) : string :=
  match s with
  | EmptyString => EmptyString
  | String c s' => String (lower_char c) (lower s')
  end.

(** The truth value of a string: non-empty. *)
Definition nonempty (s : string) : bool :=
  match s with EmptyString => false | String _ _ => true end.

(** [s.lstrip(...)], the stripped characters given by a predicate. *)
Fixpoint lstrip_with (p : ascii -> bool) (s : string) : string :=
  match s with
  | EmptyString => EmptyString
  | String c s' => if p c then lstrip_with p s' else s
  end.

(** [s.rstrip(...)] *)
Fixpoint rstrip_with (p : ascii -> bool) (s : string) : string :=
  match s with
  | EmptyString => EmptyString
  | String c s' =>
      match rstrip_with p s' with
      | EmptyString => if p c then EmptyString else String c EmptyString
      | r => String c r
      end
  end.

Definition strip_with (p : ascii -> bool) (s : string) : string :=
  lstrip_with p (rstrip_with p s).

(** [s.strip()] *)
Definition strip (s : string) : string := strip_with isspace s.

Definition is_char (sep c : ascii) : bool := Ascii.eqb c sep.

(** [s.strip("/")] and [s.rstrip("/")] *)
Definition strip_slash (s : string) : string := strip_with (is_char "/") s.
Definition rstrip_slash (s : string) : string := rstrip_with (is_char "/") s.

(** [s.split(sep)] for a one-character separator: never empty, and empty
    pieces are kept. *)
Fixpoint split_on (sep : ascii) (s : string) : list string :=
  match s with
  | EmptyString => [EmptyString]
  | String c s' =>
      if Ascii.eqb c sep then EmptyString :: split_on sep s'
      else match split_on sep s' with
           | [] => [String c EmptyString]
           | h :: t => String c h :: t
           end
  end.

(** [sep.join(parts)] *)
Definition join (sep : string) (parts : list string) : string :=
  String.concat sep parts.

(** [s.count(ch)] *)
Fixpoint count (ch : ascii) (s : string) : nat :=
  match s with
  | EmptyString => 0
  | String c s' => (if Ascii.eqb c ch then 1 else 0) + count ch s'
  end.

(** [''.join(ch for ch in s if p(ch))] *)
Fixpoint sfilter (p : ascii -> bool) (s : string) : string :=
  match s with
  | EmptyString => EmptyString
  | String c s' => if p c then String c (sfilter p s') else sfilter p s'
  end.

(** [s.startswith(t)] and [s.endswith(t)] *)
Fixpoint startswith (t s : string) : bool :=
  match t, s with
  | EmptyString, _ => true
  | String _ _, EmptyString => false
  | String a t', String b s' => Ascii.eqb a b && startswith t' s'
  end.

Fixpoint endswith (t s : string) : bool :=
  String.eqb s t ||
  match s with
  | EmptyString => false
  | String _ s' => endswith t s'
  end.

(** Byte-wise comparison, the order of [sorted] on ASCII names and of the
    BINARY collation. *)
Fixpoint leb (a b : string) : bool :=
  match a, b with
  | EmptyString, _ => true
  | String _ _, EmptyString => false
  | String x a', String y b' =>
      if (ord x <? ord y)%N then true
      else if (ord y <? ord x)%N then false
      else leb a' b'
  end.

(** A string without the character [ch]. *)
Definition lacks (ch : ascii) (s : string) : Prop := ~ In ch (chars s).

(** A text that does not begin with a slash: joined to a path it cannot
    replace what is there. *)
Definition relative (s : string) : Prop := startswith "/" s = false.

End PyStr.

(* ===================================================================== *)
(** * pathlib.PurePosixPath *)
(* ===================================================================== *)

Module Pathlib.
Import PyStr.

(** A pure POSIX path: its root ([""], ["/"] or ["//"]) and its components. *)
Record PurePosixPath := { root : string; names : list string }.

(** Parsing drops empty components and ["."]; [".."] stays. *)
Definition keep_name (s : string) : bool := nonempty s && negb (String.eqb s ".").

Definition parse_names (s : string) : list string :=
  List.filter keep_name (split_on "/" s).

(** Exactly two leading slashes are a root of their own. *)
Definition parse_root (s : string) : string :=
  if startswith "///" s then "/"
  else if startswith "//" s then "//"
  else if startswith "/" s then "/"
  else "".

(** [PurePosixPath(s)] *)
Definition Path (s : string) : PurePosixPath :=
  {| root := parse_root s; names := parse_names s |}.

(** [p / s] for a string [s]: an absolute [s] replaces [p]. *)
Definition joinpath (p : PurePosixPath) (s : string) : PurePosixPath :=
  if startswith "/" s then Path s
  else {| root := root p; names := names p ++ parse_names s |}.

(** [PurePosixPath] of several arguments *)
Definition Path_of (first : string) (more : list string) : PurePosixPath :=
  fold_left joinpath more (Path first).

(** [p / q] for a path [q] *)
Definition truediv (p q : PurePosixPath) : PurePosixPath :=
  if nonempty (root q) then q
  else {| root := root p; names := names p ++ names q |}.

(** [p.parts] *)
Definition parts (p : PurePosixPath) : list string :=
  (if nonempty (root p) then [root p] else []) ++ names p.

(** [p.name] *)
Definition name (p : PurePosixPath) : string := List.last (names p) "".

(** [p.parent] *)
Definition parent (p : PurePosixPath) : PurePosixPath :=
  {| root := root p; names := removelast (names p) |}.

(** [p.as_posix()] *)
Definition as_posix (p : PurePosixPath) : string :=
  match root p, names p with
  | EmptyString, [] => "."
  | r, ns => r +:+ join "/" ns
  end.

(** ** Well-formed paths *)

(** A component as parsing leaves it: not empty, not a lone dot, no slash. *)
Definition wf_name (s : string) : Prop := keep_name s = true /\ lacks "/" s.

(** A path as parsing builds it. *)
Definition wf_path (p : PurePosixPath) : Prop :=
  (root p = "" \/ root p = "/" \/ root p = "//") /\ Forall wf_name (names p).

End Pathlib.

(* ===================================================================== *)
(** * app/folder_action.py *)
(* ===================================================================== *)

Module Action.
Import PyStr.

Inductive FolderAction := KEEP | KEEP_PARENT | KEEP_EXCEPT | DISAGGREGATE.

#[global] Instance FolderAction_eq_dec : EqDecision FolderAction.
Proof. solve_decision. Defined.

(** The string value of the enum, also what [str(action)] gives. *)
Definition value (a : FolderAction) : string :=
  match a with
  | KEEP => "keep"
  | KEEP_PARENT => "keep_parent"
  | KEEP_EXCEPT => "keep_except"
  | DISAGGREGATE => "disaggregate"
  end.

Definition mem (s : string) (l : list string) : bool := existsb (String.eqb s) l.

(** [FolderAction.from_string]; [None] stands for the [ValueError]. *)
Definition from_string (v : string) : option FolderAction :=
  if negb (nonempty v) then None
  else
    let normalized := lower (strip v) in
    if mem normalized ["move_as_unit"; "moveasunit"; "unit"] then Some KEEP
    else if mem normalized ["strip"; "disaggregate"] then Some DISAGGREGATE
    else if mem normalized ["keep_parent"; "keepparent"; "parent"] then Some KEEP_PARENT
    else if mem normalized ["keep_except"; "keepexcept"] then Some KEEP_EXCEPT
    else List.find (fun a => String.eqb (value a) normalized)
           [KEEP; KEEP_PARENT; KEEP_EXCEPT; DISAGGREGATE].

Inductive RequiresAI := FINAL | AI.

#[global] Instance RequiresAI_eq_dec : EqDecision RequiresAI.
Proof. solve_decision. Defined.

(** [str(requires_ai)] *)
Definition RequiresAI_value (r : RequiresAI) : string :=
  match r with
  | FINAL => "final"
  | AI => "ai"
  end.

(** [RequiresAI.from_string]; [None] stands for the [ValueError]. *)
Definition RequiresAI_from_string (v : string) : option RequiresAI :=
  if negb (nonempty v) then None
  else
    let normalized := lower (strip v) in
    List.find (fun r => String.eqb (RequiresAI_value r) normalized) [FINAL; AI].

(** One direct child of a folder, as the request lists it:
    [{name, type, mime, size | files_inside}]. *)
Record Child := {
  child_name : string;
  child_type : string;
  child_mime : option string;
  child_size : Z;
  child_files_inside : Z
}.

Record FolderActionRequest := {
  folder_path : string;
  folder_name : string;
  children : list Child;
  total_files : Z;
  rule_hint : option FolderAction
}.

Definition with_hint (r : FolderActionRequest) (h : option FolderAction) : FolderActionRequest :=
  {| folder_path := folder_path r; folder_name := folder_name r;
     children := children r; total_files := total_files r; rule_hint := h |}.

(** [app/classifiers/base.py]: a decision or a delegation. *)
Record FolderActionResponse := {
  action : option FolderAction;
  is_final : bool;
  hint : option FolderAction;
  reason : option string
}.

Definition decision (a : FolderAction) (why : string) : FolderActionResponse :=
  {| action := Some a; is_final := true; hint := None; reason := Some why |}.

Definition delegate (h : option FolderAction) (why : string) : FolderActionResponse :=
  {| action := None; is_final := false; hint := h; reason := Some why |}.

End Action.

(* ===================================================================== *)
(** * app/categories.py: category paths and the catalog *)
(* ===================================================================== *)

Module Categories.
Import PyStr.

(** [CategoryPath]: the tuple [_parts]. *)
Record CategoryPath := { _parts : list string }.

#[global] Instance CategoryPath_eq_dec : EqDecision CategoryPath.
Proof. solve_decision. Defined.

(** What [_decompose_values] tells apart in an argument: [None], a
    [CategoryPath], a [PurePath] (given by its [parts]), and anything else,
    which is read through [str(value)]. *)
Inductive Value :=
| VNone
| VCategoryPath (p : CategoryPath)
| VPurePath (p : Pathlib.PurePosixPath)
| VText (s : string).

(** [32 <= ord(ch) <= 126] *)
Definition printable (c : ascii) : bool := ((32 <=? ord c) && (ord c <=? 126))%N.

(** [''.join(ch for ch in seg.strip() if 32 <= ord(ch) <= 126)] *)
Definition clean (seg : string) : string := sfilter printable (strip seg).

Definition decompose_value (v : Value) : list string :=
  match v with
  | VNone => []
  | VCategoryPath p => List.filter nonempty (_parts p)
  | VPurePath p => List.filter nonempty (Pathlib.parts p)
  | VText s =>
      let text := strip s in
      if nonempty text
      then List.filter nonempty (map clean (split_on "/" text))
      else []
  end.

(** [_decompose_values] over all its arguments *)
Definition _decompose_values (values : list Value) : list string :=
  flat_map decompose_value values.

(** The constructor [CategoryPath.__init__] over all its arguments *)
Definition CategoryPath_init (segments : list Value) : CategoryPath :=
  match _decompose_values segments with
  | [] => {| _parts := ["Unknown"] |}
  | parts => {| _parts := parts |}
  end.

Definition UNKNOWN_CATEGORY : CategoryPath := CategoryPath_init [VText "Unknown"].

(** [str(path)] *)
Definition label (p : CategoryPath) : string := join "/" (_parts p).

(** The normalized category tree: a dict of dicts, in insertion order. *)
Inductive Tree := Node (children : list (string * Tree)).

(** The catalog state that normalization and template lookup read:
    [_path_lookup] (lower-cased path to canonical path) and [_templates]. *)
Record Catalog := {
  _path_lookup : gmap (list string) (list string);
  _templates : gmap (list string) string
}.

(** [Categories._index_tree], as far as [_path_lookup] goes (the [_children]
    index is not read by the functions modelled here). *)
Fixpoint _index_tree (tree : Tree) (prefix : list string)
    (acc : gmap (list string) (list string)) : gmap (list string) (list string) :=
  match tree with
  | Node items =>
      (fix go (items : list (string * Tree)) (acc : gmap (list string) (list string)) :=
         match items with
         | [] => acc
         | (key, value) :: rest =>
             let canonical := prefix ++ [key] in
             let acc := <[map lower canonical := canonical]> acc in
             go rest (_index_tree value canonical acc)
         end) items acc
  end.

(** [Categories(tree, templates)] *)
Definition Categories_init (tree : Tree) (templates : gmap (list string) string) : Catalog :=
  {| _path_lookup := _index_tree tree [] ∅; _templates := templates |}.

(** The loop of [_lookup]: [for idx in range(len(parts) - 1, 0, -1)], entered
    at [idx]. *)
Fixpoint _lookup_prefixes (pl : gmap (list string) (list string))
    (norm parts : list string) (idx : nat) : option (list string) :=
  match idx with
  | O => None
  | S i =>
      match pl !! take idx norm with
      | Some ((_ :: _) as canonical) => Some (canonical ++ drop idx parts)
      | _ => _lookup_prefixes pl norm parts i
      end
  end.

(** [Categories._lookup] *)
Definition _lookup (c : Catalog) (parts : list string) : option (list string) :=
  let norm := map lower parts in
  match _path_lookup c !! norm with
  | Some canonical => Some canonical
  | None =>
      if Nat.eqb (length parts) 1 then _path_lookup c !! take 1 norm
      else _lookup_prefixes (_path_lookup c) norm parts (length parts - 1)
  end.

(** [Categories.normalize] over [value] and the extra arguments *)
Definition normalize (c : Catalog) (values : list Value) : option CategoryPath :=
  match _decompose_values values with
  | [] => None
  | parts =>
      match _lookup c parts with
      | None => None
      | Some canonical => Some (CategoryPath_init (map VText canonical))
      end
  end.

(** [Categories.template_for] *)
Definition template_for (c : Catalog) (path : CategoryPath) : option string :=
  match _templates c !! _parts path with
  | Some template => Some template
  | None => _templates c !! ["__default__"]
  end.

(** ** Template rendering *)

(** A metadata value as [FileMetadata.to_dict] hands it over: a string, or
    another object (number, date text, dict) given by its [str()] text and
    its truth value.  Lists, tuples, sets and bytes do not reach the
    renderer: [FileMetadata.add] flattens and decodes them first. *)
Inductive MetaValue :=
| MStr (s : string)
| MOther (text : string) (truthy : bool).

Definition str_of (v : MetaValue) : string :=
  match v with MStr s => s | MOther text _ => text end.

Definition truth (v : option MetaValue) : bool :=
  match v with
  | None => false
  | Some (MStr s) => nonempty s
  | Some (MOther _ b) => b
  end.

(** [_coerce_placeholder_value] *)
Definition _coerce_placeholder_value (v : option MetaValue) : option MetaValue :=
  match v with
  | None => None
  | Some (MStr s) => let text := strip s in if nonempty text then Some (MStr text) else None
  | Some (MOther text b) => Some (MOther text b)
  end.

Definition is_filler (c : ascii) : bool :=
  isspace c || Ascii.eqb c "_" || Ascii.eqb c "-".

(** [_normalize_for_comparison]: lower case, without blanks, underscores and
    dashes. *)
Definition _normalize_for_comparison (text : string) : string :=
  sfilter (fun c => negb (is_filler c)) (lower text).

Definition mem (s : string) (l : list string) : bool := existsb (String.eqb s) l.

(** [_deduplicate_suffix], on the [str()] text of the suffix value. *)
Definition _deduplicate_suffix (suffix_str : string) (used_values : list string) : string :=
  if negb (nonempty suffix_str) || bool_decide (used_values = []) then suffix_str
  else
    let suffix_parts := List.filter (fun p => nonempty (strip p)) (split_on "/" suffix_str) in
    let normalized_used :=
      map _normalize_for_comparison (List.filter nonempty used_values) in
    join "/"
      (List.filter
         (fun part =>
            let n := _normalize_for_comparison part in
            nonempty n && negb (mem n normalized_used))
         suffix_parts).

(** [text[n:]] *)
Fixpoint sdrop (n : nat) (s : string) : string :=
  match n, s with
  | O, _ => s
  | S n', String _ s' => sdrop n' s'
  | S _, EmptyString => EmptyString
  end.

(** [_strip_category_prefix] *)
Definition _strip_category_prefix (ai_category category : option MetaValue) : string :=
  if negb (truth ai_category) then EmptyString
  else
    let ai_cat_str := strip (default EmptyString (str_of <$> ai_category)) in
    if negb (truth category) || negb (nonempty ai_cat_str) then ai_cat_str
    else
      let category_str := strip (default EmptyString (str_of <$> category)) in
      if startswith (category_str +:+ "/") ai_cat_str
      then sdrop (String.length category_str + 1) ai_cat_str
      else ai_cat_str.

Definition is_reserved (c : ascii) : bool :=
  existsb (Ascii.eqb c) ["<"; ">"; ":"; "|"; "?"; "*"]%char.

Fixpoint smap (f : ascii -> ascii) (s : string) : string :=
  match s with
  | EmptyString => EmptyString
  | String c s' => String (f c) (smap f s')
  end.

(** [_sanitize_component] *)
Definition _sanitize_component (value : string) : string :=
  let text := strip value in
  if negb (nonempty text) then EmptyString
  else strip (smap (fun c => if Ascii.eqb c "/" || is_reserved c then "_"%char else c) text).

(** [_resolve_placeholder]: the text that replaces the placeholder, and
    [used_values] afterwards. *)
Fixpoint resolve_tokens (context : gmap string MetaValue) (tokens : list string)
    (total : nat) (used_values : list string) : string * list string :=
  match tokens with
  | [] => (EmptyString, used_values)
  | token :: rest =>
      let value := context !! token in
      let value :=
        if String.eqb token "suffix" && truth value && negb (bool_decide (used_values = []))
        then Some (MStr (_deduplicate_suffix (default EmptyString (str_of <$> value)) used_values))
        else value in
      let value :=
        if String.eqb token "ai_category" && truth value
        then Some (MStr (_strip_category_prefix value (context !! "category")))
        else value in
      match _coerce_placeholder_value value with
      | Some v =>
          let resolved := strip (str_of v) in
          (resolved,
           if negb (String.eqb token "suffix") && nonempty resolved
           then used_values ++ [resolved] else used_values)
      | None =>
          match rest with
          | [] => if Nat.ltb 1 total then (token, used_values) else (EmptyString, used_values)
          | _ => resolve_tokens context rest total used_values
          end
      end
  end.

Definition _resolve_placeholder (content : string) (context : gmap string MetaValue)
    (used_values : list string) : string * list string :=
  let tokens := List.filter nonempty (map strip (split_on "|" content)) in
  resolve_tokens context tokens (length tokens) used_values.

(** [_PLACEHOLDER_PATTERN.sub(...)] for the pattern of an opening brace, one
    or more characters that are no braces, and a closing brace: one pass from
    left to right.  [pending] holds the characters read since an opening
    brace that may still start a placeholder. *)
Fixpoint substitute (context : gmap string MetaValue) (raw : string)
    (pending : option string) (used_values : list string) : string * list string :=
  match raw, pending with
  | EmptyString, None => (EmptyString, used_values)
  | EmptyString, Some buf => ("{" +:+ buf, used_values)
  | String c rest, None =>
      if Ascii.eqb c "{" then substitute context rest (Some EmptyString) used_values
      else let (out, used) := substitute context rest None used_values in (String c out, used)
  | String c rest, Some buf =>
      if Ascii.eqb c "{" then
        let (out, used) := substitute context rest (Some EmptyString) used_values in
        ("{" +:+ buf +:+ out, used)
      else if Ascii.eqb c "}" then
        if nonempty buf then
          let (text, used1) := _resolve_placeholder buf context used_values in
          let (out, used) := substitute context rest None used1 in
          (text +:+ out, used)
        else
          let (out, used) := substitute context rest None used_values in
          ("{}" +:+ out, used)
      else substitute context rest (Some (buf +:+ String c EmptyString)) used_values
  end.

(** [needle in text] *)
Fixpoint contains (needle text : string) : bool :=
  startswith needle text ||
  match text with
  | EmptyString => false
  | String _ text' => contains needle text'
  end.

(** The text from the last dot on, if there is a dot. *)
Fixpoint from_last_dot (s : string) : option string :=
  match s with
  | EmptyString => None
  | String c s' =>
      match from_last_dot s' with
      | Some t => Some t
      | None => if Ascii.eqb c "." then Some s else None
      end
  end.

(** [pathlib.Path(filename).suffix] *)
Definition suffix (filename : string) : string :=
  let name := Pathlib.name (Pathlib.Path filename) in
  match from_last_dot name with
  | Some ext =>
      if Nat.ltb (String.length ext) (String.length name) && Nat.ltb 1 (String.length ext)
      then ext else EmptyString
  | None => EmptyString
  end.

Definition sanitized (sanitize : bool) (parts : list string) : list string :=
  List.filter nonempty (map (fun p => if sanitize then _sanitize_component p else p) parts).

(** The loop over [template_parts]: the segments it appends, whether a file
    name was rendered, and [used_values] afterwards. *)
Fixpoint render_parts (context : gmap string MetaValue) (has_filename_ref : bool)
    (filename : option string) (sanitize : bool) (template_parts : list string)
    (used_values : list string) : list string * bool * list string :=
  match template_parts with
  | [] => ([], false, used_values)
  | raw :: rest =>
      let (replaced, used1) := substitute context raw None used_values in
      let is_last_part := bool_decide (rest = []) in
      let names_file :=
        is_last_part && has_filename_ref && nonempty replaced
        && nonempty (default EmptyString filename) in
      let replaced :=
        if names_file then
          let ext := suffix (default EmptyString filename) in
          if nonempty ext && negb (endswith ext replaced) then replaced +:+ ext else replaced
        else replaced in
      let '(more, rendered, used) :=
        render_parts context has_filename_ref filename sanitize rest used1 in
      (sanitized sanitize (split_on "/" replaced) ++ more, names_file || rendered, used)
  end.

(** The list [segments] that [render_template] joins. *)
Definition render_segments (template : string) (metadata : gmap string MetaValue)
    (category_path : option CategoryPath) (kept_path filename : option string)
    (sanitize : bool) : list string :=
  let template_lower := lower template in
  let has_filename_ref :=
    existsb (fun ref => contains ref template_lower) ["{filename}"; "{file_stem}"; "{title"] in
  let category_segments :=
    match category_path with
    | Some cp => _parts cp
    | None => []
    end in
  let template_parts := split_on "/" (strip_slash template) in
  let '(rendered_segments, filename_rendered, used_values) :=
    render_parts metadata has_filename_ref filename sanitize template_parts [] in
  let kept_segments :=
    match kept_path with
    | Some kept =>
        if nonempty kept && negb filename_rendered
        then sanitized sanitize (split_on "/" (_deduplicate_suffix kept used_values))
        else []
    | None => []
    end in
  let filename_segments :=
    match filename with
    | Some fn => if negb filename_rendered && nonempty fn then sanitized sanitize [fn] else []
    | None => []
    end in
  category_segments ++ rendered_segments ++ kept_segments ++ filename_segments.

(** [Categories.render_template] *)
Definition render_template (template : string) (metadata : gmap string MetaValue)
    (category_path : option CategoryPath) (kept_path filename : option string)
    (sanitize : bool) : string :=
  join "/" (render_segments template metadata category_path kept_path filename sanitize).

(** ** The invariant of a category path, and sample inputs *)

(** A segment as the data model wants it: not empty, printable ASCII only,
    and no slash. *)
Definition clean_segment (s : string) : Prop :=
  s <> EmptyString /\
  forall c, In c (chars s) -> printable c = true /\ c <> "/"%char.

(** The arguments that go through the cleaning of [_decompose_values]:
    [None], text, and category paths that are clean themselves.  The parts of
    a [PurePath] are taken as they are. *)
Definition plain (v : Value) : Prop :=
  match v with
  | VNone | VText _ => True
  | VCategoryPath p => Forall clean_segment (_parts p)
  | VPurePath _ => False
  end.

(** A small catalog: [Documents/Other] and [Media/Music]. *)
Definition sample_tree : Tree :=
  Node [("Documents", Node [("Other", Node [])]); ("Media", Node [("Music", Node [])])].

Definition sample_catalog : Catalog := Categories_init sample_tree ∅.

End Categories.

(* ===================================================================== *)
(** * app/rules_models.py and app/classifiers/rules.py *)
(* ===================================================================== *)

Module Rules.
Import PyStr Action Categories.

(** A compiled regex enters only through [regex.match(text)]: it is modelled
    by the function that says whether that match succeeds.  [None] is the
    pattern that was empty or a star. *)
Record CompiledRule := {
  path_regex : option (string -> bool);
  mime_regex : option (string -> bool);
  category_path : CategoryPath;
  folder_action : option FolderAction;
  requires_ai : RequiresAI;
  line_number : nat
}.

(** [CompiledRule.match]: does the rule apply to the path and the mime type. *)
Definition rule_match (r : CompiledRule) (rel_path mime : string) : bool :=
  match path_regex r with
  | Some re => re rel_path
  | None => true
  end &&
  match mime_regex r with
  | Some re => re mime
  | None => true
  end.

(** [RulesClassifier._match_rule]: the first rule that applies. *)
Definition _match_rule (rules : list CompiledRule) (rel_path mime : string)
    : option CompiledRule :=
  let raw := if startswith "/" rel_path then rel_path else "/" +:+ rel_path in
  List.find (fun r => rule_match r raw mime) rules.

(** [RulesClassifier.match] *)
Definition match_ (rules : list CompiledRule) (name rel_path mime : string)
    : option CompiledRule :=
  let key := if nonempty rel_path then rel_path else name in
  _match_rule rules key mime.

(** [RulesClassifier.classify]: the category of the first rule that applies,
    and the [rule_match] flag of the metrics. *)
Definition classify (rules : list CompiledRule) (name rel_path mime : string)
    : CategoryPath * bool :=
  match match_ rules name rel_path mime with
  | Some r => (category_path r, true)
  | None => (UNKNOWN_CATEGORY, false)
  end.

Definition has_action (m : option CompiledRule) (a : FolderAction) : bool :=
  match m with
  | Some r => bool_decide (folder_action r = Some a)
  | None => false
  end.

(** One round of the loop over [request.children]: [Some] response when the
    child makes the function return, [None] when the loop goes on. *)
Definition child_step (rules : list CompiledRule) (request : FolderActionRequest)
    (child : Child) : option FolderActionResponse :=
  let child_path := rstrip_slash (folder_path request) +:+ "/" +:+ child_name child in
  if String.eqb (child_type child) "dir" then
    let dir_match := match_ rules (child_name child) child_path "*" in
    let inside_match := match_ rules "" (child_path +:+ "/") "*" in
    if has_action dir_match KEEP_PARENT || has_action inside_match KEEP_PARENT
    then Some (decision KEEP ("keep_parent:" +:+ child_name child))
    else None
  else if String.eqb (child_type child) "file" then
    match match_ rules (child_name child) child_path (default "*" (child_mime child)) with
    | None => None
    | Some rule =>
        if bool_decide (folder_action rule = Some KEEP_PARENT)
        then Some (decision KEEP ("keep_parent:" +:+ child_name child))
        else
          match folder_action rule, requires_ai rule with
          | Some a, FINAL => Some (decision a "rule:final")
          | h, AI => Some (delegate h "rule:requires_ai")
          | None, FINAL => None
          end
    end
  else None.

Fixpoint scan_children (rules : list CompiledRule) (request : FolderActionRequest)
    (children : list Child) : option FolderActionResponse :=
  match children with
  | [] => None
  | child :: rest =>
      match child_step rules request child with
      | Some response => Some response
      | None => scan_children rules request rest
      end
  end.

(** The explicit folder rule, looked up after the children. *)
Definition folder_rule (rules : list CompiledRule) (request : FolderActionRequest)
    : option FolderActionResponse :=
  let folder_match :=
    match match_ rules "" (folder_path request) "" with
    | Some r => Some r
    | None => match_ rules "" (folder_path request +:+ "/") ""
    end in
  match folder_match with
  | None => None
  | Some rule =>
      match folder_action rule, requires_ai rule with
      | Some a, FINAL => Some (decision a "rule:folder:final")
      | h, AI => Some (delegate h "rule:folder:requires_ai")
      | None, FINAL => None
      end
  end.

(** [RulesClassifier.advise_folder_action] *)
Definition advise_folder_action (rules : list CompiledRule) (request : FolderActionRequest)
    : FolderActionResponse :=
  match scan_children rules request (children request) with
  | Some response => response
  | None =>
      match folder_rule rules request with
      | Some response => response
      | None => delegate (Some DISAGGREGATE) "rule:no_match"
      end
  end.

(** ** Sample rules *)

(** A marker rule for a [node_modules] directory ([keep_parent], final):
    its path pattern asks for a path component of that name. *)
Definition node_modules_rule : CompiledRule :=
  {| path_regex := Some (fun p => existsb (String.eqb "node_modules") (split_on "/" p));
     mime_regex := None;
     category_path := CategoryPath_init [VText "Software/Source_Code"];
     folder_action := Some KEEP_PARENT;
     requires_ai := FINAL;
     line_number := 1 |}.

(** The catch-all rule that hands everything else to the AI. *)
Definition catch_all_rule : CompiledRule :=
  {| path_regex := None; mime_regex := None;
     category_path := UNKNOWN_CATEGORY;
     folder_action := None;
     requires_ai := AI;
     line_number := 2 |}.

Definition sample_rules : list CompiledRule := [node_modules_rule; catch_all_rule].

Definition readme_child : Child :=
  {| child_name := "README.md"; child_type := "file"; child_mime := Some "text/markdown";
     child_size := 1024; child_files_inside := 0 |}.

Definition node_modules_child : Child :=
  {| child_name := "node_modules"; child_type := "dir"; child_mime := None;
     child_size := 0; child_files_inside := 3 |}.

(** A web project: a read-me and a [node_modules] directory, in the order of
    their names. *)
Definition webapp_request : FolderActionRequest :=
  {| folder_path := "/WebApp"; folder_name := "WebApp";
     children := [readme_child; node_modules_child];
     total_files := 4; rule_hint := None |}.

(** A child that carries the structural marker: the rule that matches it has
    [folder_action = KEEP_PARENT]. *)
Definition is_marker (rules : list CompiledRule) (request : FolderActionRequest)
    (child : Child) : bool :=
  let child_path := rstrip_slash (folder_path request) +:+ "/" +:+ child_name child in
  if String.eqb (child_type child) "dir" then
    has_action (match_ rules (child_name child) child_path "*") KEEP_PARENT
    || has_action (match_ rules "" (child_path +:+ "/") "*") KEEP_PARENT
  else if String.eqb (child_type child) "file" then
    has_action (match_ rules (child_name child) child_path (default "*" (child_mime child))) KEEP_PARENT
  else false.

End Rules.

(* ===================================================================== *)
(** * Stable sorting, as [sorted(..., key=...)] *)
(* ===================================================================== *)

Module Sorting.

Section SortBy.
Context {A : Type} (le : A -> A -> bool).

(** [x] goes before the first element it is at most equal to, so that equal
    elements keep the order they came in. *)
Fixpoint insert_by (x : A) (l : list A) : list A :=
  match l with
  | [] => [x]
  | y :: l' => if le x y then x :: l else y :: insert_by x l'
  end.

Definition sort_by (l : list A) : list A := foldr insert_by [] l.

End SortBy.

End Sorting.

(* ===================================================================== *)
(** * app/folder_policy.py *)
(* ===================================================================== *)

Module Policy.
Import PyStr Action Sorting.

Definition FOLDER_SAMPLE_LIMIT : nat := 48.

(** The value a sample keeps per direct child: [{type, mime, size, file_count}]. *)
Record ChildInfo := {
  info_type : string;
  info_mime : string;
  info_size : Z;
  info_file_count : Z
}.

(** [FolderSample]: the [children] dict in insertion order. *)
Record FolderSample := {
  sample_children : list (string * ChildInfo);
  sample_total_files : Z;
  max_depth : Z
}.

Definition payload_entry (item : string * ChildInfo) : Child :=
  let (name, info) := item in
  if String.eqb (info_type info) "file"
  then {| child_name := name; child_type := info_type info;
          child_mime := Some (info_mime info); child_size := info_size info;
          child_files_inside := 0 |}
  else {| child_name := name; child_type := info_type info;
          child_mime := None; child_size := 0;
          child_files_inside := info_file_count info |}.

(** [FolderSample.payload(folder_path)], as the request built from it. *)
Definition payload (sample : FolderSample) (path : string) : FolderActionRequest :=
  let items := sort_by (fun a b => leb a.1 b.1) (sample_children sample) in
  {| folder_path := path;
     folder_name :=
       if negb (Nat.eqb (count "/" path) 0)
       then List.last (split_on "/" (rstrip_slash path)) ""
       else path;
     children := map payload_entry (take FOLDER_SAMPLE_LIMIT items);
     total_files := sample_total_files sample;
     rule_hint := None |}.

(** The depth key of the sort: [p.count("/")]. *)
Definition depth (p : string) : nat := count "/" p.

(** The paths [_get_decided_parent] looks up for a folder:
    ["/".join(parts[:i])] for [i] in [range(1, len(parts))]. *)
Definition ancestor_paths (folder : string) : list string :=
  let parts := split_on "/" (rstrip_slash folder) in
  map (fun i => join "/" (take i parts)) (seq 1 (length parts - 1)).

(** [_get_decided_parent]: the first ancestor decided [KEEP], if any. *)
Definition _get_decided_parent (folder : string) (decided : gmap string FolderAction)
    : option (string * FolderAction) :=
  match List.find (fun p => bool_decide (decided !! p = Some KEEP)) (ancestor_paths folder) with
  | Some p => Some (p, KEEP)
  | None => None
  end.

(** The truth value Python gives an optional string: [None] and the empty
    string are false. *)
Definition truthy (s : option string) : bool :=
  match s with
  | Some s => negb (String.eqb s "")
  | None => false
  end.

(** A lookup in a dict kept as an association list. *)
Fixpoint dict_get {V : Type} (d : list (string * V)) (k : string) : option V :=
  match d with
  | [] => None
  | (k', v) :: d' => if String.eqb k k' then Some v else dict_get d' k
  end.

Section Chain.

(** The state of the world the classifiers live in (back ends, their
    counters, the network). *)
Context {World : Type}.

(** A classifiers [advise_folder_action], with its effect on the world. *)
Definition Advisor : Type := World -> FolderActionRequest -> FolderActionResponse * World.

(** [_strip_sources], which rests on [os.path.normpath], [os.path.relpath]
    and the wrapper regex, enters as the function it computes for the
    configured sources. *)
Context (_strip_sources : string -> string).

Definition reason_text (r : option string) : string := default "None" r.

(** The walk over [classifiers_chain].  The result carries the decision (if
    one was final), the request with the last hint, the world, and the names
    of the classifiers that were asked, in order. *)
Fixpoint walk_chain (chain : list (string * Advisor)) (request : FolderActionRequest)
    (w : World) : option (FolderAction * string) * FolderActionRequest * World * list string :=
  match chain with
  | [] => (None, request, w, [])
  | (classifier_name, advise) :: rest =>
      let (response, w1) := advise w request in
      if is_final response then
        match action response with
        | Some a =>
            (Some (a, classifier_name +:+ ":" +:+ value a +:+ ":" +:+ reason_text (reason response)),
             request, w1, [classifier_name])
        | None =>
            let '(r, request', w2, asked) := walk_chain rest request w1 in
            (r, request', w2, classifier_name :: asked)
        end
      else
        let '(r, request', w2, asked) := walk_chain rest (with_hint request (hint response)) w1 in
        (r, request', w2, classifier_name :: asked)
  end.

(** [_decide_folder_action]: the action, its decision source, the world
    afterwards and the classifiers asked. *)
Definition _decide_folder_action (folder : string) (folder_sample : option FolderSample)
    (rules classifier : option Advisor) (w : World)
    : FolderAction * string * World * list string :=
  match folder_sample with
  | None => (KEEP, "default:keep:empty_folder", w, [])
  | Some sample =>
      let request := payload sample (_strip_sources folder) in
      let chain :=
        match rules with Some r => [("rules", r)] | None => [] end ++
        match classifier with Some c => [("ai", c)] | None => [] end in
      match walk_chain chain request w with
      | (Some (a, source), _, w', asked) => (a, source, w', asked)
      | (None, request', w', asked) =>
          let a := default DISAGGREGATE (rule_hint request') in
          (a, "default:chain_exhausted:" +:+ value a, w', asked)
      end
  end.

(** The loop state of [build_folder_action_map]: [actions], [decisions], the
    world, and the record of who was asked about which folder. *)
Record Progress := {
  actions : gmap string FolderAction;
  decisions : gmap string string;
  world : World;
  asked : list (string * string)
}.

(** One round of [for folder in sorted_folders].  The guard is
    [if blocking_parent:], the truth value of the path that
    [_get_decided_parent] returned: the round is skipped when that path is
    not empty. *)
Definition step (rules classifier : option Advisor) (samples : list (string * FolderSample))
    (st : Progress) (folder : string) : Progress :=
  let blocking_parent := fst <$> _get_decided_parent folder (actions st) in
  if truthy blocking_parent then st
  else
    let '(a, source, w', names) :=
      _decide_folder_action folder (dict_get samples folder) rules classifier (world st) in
    {| actions := <[folder := a]> (actions st);
       decisions := <[folder := source]> (decisions st);
       world := w';
       asked := asked st ++ map (fun n => (folder, n)) names |}.

(** [build_folder_action_map(rules, classifier, samples, ...)] *)
Definition build_folder_action_map (rules classifier : option Advisor)
    (samples : list (string * FolderSample)) (w : World) : Progress :=
  let sorted_folders := sort_by (fun a b => Nat.leb (depth a) (depth b)) (map fst samples) in
  fold_left (step rules classifier samples) sorted_folders
    {| actions := ∅; decisions := ∅; world := w; asked := [] |}.

End Chain.

(** ** Sample inputs *)

Definition one_file_sample : FolderSample :=
  {| sample_children :=
       [("file.txt", {| info_type := "file"; info_mime := "text/plain";
                        info_size := 100; info_file_count := 1 |})];
     sample_total_files := 1; max_depth := 0 |}.

(** An advisor without state that keeps [/project] and disaggregates the rest. *)
Definition mock_ai : @Advisor unit :=
  fun w request =>
    (if String.eqb (folder_path request) "/project"
     then decision KEEP "mock" else decision DISAGGREGATE "mock", w).

(** The rules classifier as a link of the chain: it has no state. *)
Definition rules_advisor (rules : list Rules.CompiledRule) : @Advisor unit :=
  fun w request => (Rules.advise_folder_action rules request, w).




End Policy.

(* ===================================================================== *)
(** * app/media.py, with app/file_nodes.py and app/path_models.py *)
(* ===================================================================== *)

Module Media.
Import PyStr Pathlib Action Categories Sorting.

(** The fields of [AppConfig] that path synthesis reads.  The compiled
    [SOURCE_WRAPPER_REGEX] enters through its [fullmatch]. *)
Record AppConfig := {
  MAIN_TARGET : string;
  SOURCES : list string;
  STRIP_DIRS : list string;
  source_wrapper_fullmatch : option (string -> bool);
  categories : Catalog
}.

(** The fields of [FileNode] that [build_destination] reads. *)
Record FileNode := {
  physical_path : PurePosixPath;
  category : CategoryPath;
  mime : string;
  metadata : gmap string MetaValue;
  folder_actions : gmap string FolderAction
}.

Record _DirEntry := {
  value : string;
  lower_value : string;
  abs_path : string;
  folder_action : option FolderAction;
  action_source : option string
}.

Record FullPath := {
  original : PurePosixPath;
  source_prefix : list string;
  disaggregated : list string;
  kept : list string;
  kept_role : string;
  file : string
}.

Record ClassifiedPath := {
  full_path : FullPath;
  destination_path : PurePosixPath;
  category_path : CategoryPath;
  path_metadata : list (string * string)
}.

(** [ClassifiedPath.destination] *)
Definition destination (cp : ClassifiedPath) : string := as_posix (destination_path cp).

(** [_get_source_prefixes] *)
Definition _get_source_prefixes (cfg : AppConfig) : list (list string) :=
  let prefixes :=
    flat_map
      (fun raw =>
         let item := strip_slash (strip raw) in
         if nonempty item then
           match map lower (List.filter (fun p => nonempty (strip p)) (split_on "/" item)) with
           | [] => []
           | parts => [parts]
           end
         else [])
      (SOURCES cfg ++ STRIP_DIRS cfg) in
  sort_by (fun a b => Nat.leb (length b) (length a)) prefixes.

(** The loop of [_collect_parent_entries], with [parts_accum] so far. *)
Fixpoint collect_entries (parts parts_accum : list string) : list _DirEntry :=
  match parts with
  | [] => []
  | part :: rest =>
      let part_text := strip_slash part in
      if negb (nonempty part_text) || endswith ":" part_text
      then collect_entries rest parts_accum
      else
        let parts_accum := parts_accum ++ [part_text] in
        {| value := part_text; lower_value := lower part_text;
           abs_path := "/" +:+ join "/" parts_accum;
           folder_action := None; action_source := None |}
        :: collect_entries rest parts_accum
  end.

Definition _collect_parent_entries (path : PurePosixPath) : list _DirEntry :=
  collect_entries (parts (parent path)) [].

(** [_label_entries]: an entry whose [abs_path] is a key of the map takes
    that action as explicit, any other is [KEEP] without a source. *)
Definition label_entry (folder_actions : gmap string FolderAction) (e : _DirEntry) : _DirEntry :=
  match folder_actions !! abs_path e with
  | Some a =>
      {| value := value e; lower_value := lower_value e; abs_path := abs_path e;
         folder_action := Some a; action_source := Some "explicit" |}
  | None =>
      {| value := value e; lower_value := lower_value e; abs_path := abs_path e;
         folder_action := Some KEEP; action_source := None |}
  end.

Definition _label_entries (entries : list _DirEntry) (folder_actions : gmap string FolderAction)
    : list _DirEntry :=
  map (label_entry folder_actions) entries.

Definition is_keep (e : _DirEntry) : bool :=
  bool_decide (folder_action e = Some KEEP) || bool_decide (folder_action e = Some KEEP_EXCEPT).

(** [_find_first_keep_index] *)
Fixpoint _find_first_keep_index (entries : list _DirEntry) : option nat :=
  match entries with
  | [] => None
  | e :: rest => if is_keep e then Some 0 else S <$> _find_first_keep_index rest
  end.

Definition string_list_eqb (a b : list string) : bool := bool_decide (a = b).

(** The number of leading elements that satisfy [p]. *)
Fixpoint count_while {A : Type} (p : A -> bool) (l : list A) : nat :=
  match l with
  | x :: l' => if p x then S (count_while p l') else 0
  | [] => 0
  end.

(** The length of the longest common prefix. *)
Fixpoint common_prefix (a b : list string) : nat :=
  match a, b with
  | x :: a', y :: b' => if String.eqb x y then S (common_prefix a' b') else 0
  | _, _ => 0
  end.

(** [_strip_prefix]: how many leading entries belong to the source. *)
Definition _strip_prefix (cfg : AppConfig) (entries : list _DirEntry)
    (category_parts : list string) : nat :=
  let source_prefixes := _get_source_prefixes cfg in
  let category_parts_lower := map lower category_parts in
  let strip_names := flat_map (fun prefix => match prefix with [x] => [x] | _ => [] end) source_prefixes in
  let entry_lower := map lower_value entries in
  let stripped :=
    match List.find
            (fun prefix =>
               Nat.ltb 1 (length prefix) && Nat.leb (length prefix) (length entries)
               && string_list_eqb (take (length prefix) entry_lower) prefix)
            source_prefixes with
    | Some prefix => length prefix
    | None => 0
    end in
  let stripped :=
    stripped + count_while (fun e => Categories.mem (lower_value e) strip_names) (drop stripped entries) in
  let stripped :=
    match source_wrapper_fullmatch cfg, drop stripped entries with
    | Some fullmatch, candidate :: _ => if fullmatch (value candidate) then S stripped else stripped
    | _, _ => stripped
    end in
  stripped + common_prefix (drop stripped entry_lower) category_parts_lower.

Definition is_explicit (e : _DirEntry) : bool := bool_decide (action_source e = Some "explicit").

Definition is_explicit_disaggregate (e : _DirEntry) : bool :=
  bool_decide (folder_action e = Some DISAGGREGATE) && is_explicit e.

(** The loop over [entries[keep_index:]] under a [KEEP_EXCEPT] pivot:
    [(kept_parts, temp_disagg)]. *)
Fixpoint split_keep_except (entries : list _DirEntry) (in_disaggregate_section : bool)
    : list string * list string :=
  match entries with
  | [] => ([], [])
  | entry :: rest =>
      if is_explicit_disaggregate entry then
        let (k, d) := split_keep_except rest true in (k, value entry :: d)
      else if in_disaggregate_section then
        let (k, d) := split_keep_except rest true in (k, value entry :: d)
      else
        let (k, d) := split_keep_except rest false in (value entry :: k, d)
  end.

(** The split of the entries after the stripped prefix:
    [(disagg_parts, kept_parts, explicit_keep)]. *)
Definition split_parts (entries : list _DirEntry) (strip_end : nat)
    : list string * list string * bool :=
  match _find_first_keep_index (drop strip_end entries) with
  | Some keep_index_relative =>
      let keep_index := strip_end + keep_index_relative in
      let disagg_parts := map value (take keep_index_relative (drop strip_end entries)) in
      let from_keep := drop keep_index entries in
      match from_keep with
      | keep_entry :: _ =>
          if bool_decide (folder_action keep_entry = Some KEEP_EXCEPT) then
            let (kept_parts, temp_disagg) := split_keep_except from_keep false in
            (disagg_parts ++ temp_disagg, kept_parts,
             existsb is_explicit
               (List.filter (fun e => negb (bool_decide (folder_action e = Some DISAGGREGATE))) from_keep))
          else (disagg_parts, map value from_keep, existsb is_explicit from_keep)
      | [] => (disagg_parts, [], false)
      end
  | None => (map value (drop strip_end entries), [], false)
  end.

(** [PurePosixPath] of a non-empty list of components. *)
Definition Path_of_parts (parts : list string) : PurePosixPath :=
  match parts with
  | [] => Path EmptyString
  | first :: more => Path_of first more
  end.

(** The parent directories of the file, labelled from its folder actions. *)
Definition labelled_entries (file_node : FileNode) : list _DirEntry :=
  _label_entries (_collect_parent_entries (physical_path file_node)) (folder_actions file_node).

(** [strip_end], the end of the source prefix. *)
Definition strip_end_of (cfg : AppConfig) (file_node : FileNode) : nat :=
  _strip_prefix cfg (labelled_entries file_node) (_parts (category file_node)).

(** [entries[strip_end:]], the entries the keep pivot is looked for in. *)
Definition remaining_entries (cfg : AppConfig) (file_node : FileNode) : list _DirEntry :=
  drop (strip_end_of cfg file_node) (labelled_entries file_node).

(** [template and not is_default_template]: the category has a template of
    its own, not the [__default__] one. *)
Definition explicit_template (cfg : AppConfig) (category_path : CategoryPath) : bool :=
  let template := template_for (categories cfg) category_path in
  let is_default_template :=
    bool_decide (template = template_for (categories cfg) (CategoryPath_init [VText "__nonexistent__"])) in
  nonempty (default EmptyString template) && negb is_default_template.

(** [MediaHelper.build_destination] *)
Definition build_destination (cfg : AppConfig) (file_node : FileNode) : ClassifiedPath :=
  let p := physical_path file_node in
  let name := Pathlib.name p in
  let category_path := category file_node in
  let template := template_for (categories cfg) category_path in
  let entries := labelled_entries file_node in
  let strip_end := strip_end_of cfg file_node in
  let prefix_parts := map value (take strip_end entries) in
  let '(disagg_parts, kept_parts, explicit_keep) := split_parts entries strip_end in
  let base := Path_of (MAIN_TARGET cfg) (_parts category_path) in
  let has_template := nonempty (default EmptyString template) in
  let has_kept := negb (bool_decide (kept_parts = [])) in
  let destination :=
    if explicit_template cfg category_path && has_kept then
      joinpath (Path (MAIN_TARGET cfg))
        (render_template (default EmptyString template) (metadata file_node)
           (Some category_path) (Some (join "/" kept_parts)) (Some name) true)
    else if has_kept then
      joinpath (truediv base (Path_of_parts kept_parts)) name
    else if has_template then
      joinpath (Path (MAIN_TARGET cfg))
        (render_template (default EmptyString template) (metadata file_node)
           (Some category_path) None (Some name) true)
    else joinpath base name in
  {| full_path :=
       {| original := p; source_prefix := prefix_parts; disaggregated := disagg_parts;
          kept := kept_parts; kept_role := if has_kept then "keep" else "suffix";
          file := name |};
     destination_path := Path (as_posix destination);
     category_path := category_path;
     path_metadata := [("mime", mime file_node)] |}.

(** ** Sample inputs *)

(** A target, one source root, and a catalog without templates. *)
Definition plain_cfg : AppConfig :=
  {| MAIN_TARGET := "/target"; SOURCES := ["/sources"]; STRIP_DIRS := [];
     source_wrapper_fullmatch := None; categories := sample_catalog |}.

(** The same with a template of its own for [Media/Music]. *)
Definition music_cfg : AppConfig :=
  {| MAIN_TARGET := "/target"; SOURCES := ["/library"]; STRIP_DIRS := [];
     source_wrapper_fullmatch := None;
     categories :=
       Categories_init sample_tree
         (<[ ["Media"; "Music"] := "{artist|Unknown Artist}/{album}/{title}" ]> ∅) |}.

Definition music_tags : gmap string MetaValue :=
  <["artist" := MStr "Tagged Artist"]>
    (<["album" := MStr "Tagged Album"]> (<["title" := MStr "Tagged Title"]> ∅)).


(** An entry as [_label_entries] leaves it. *)
Definition entry_of (v path : string) (a : FolderAction) (explicit : bool) : _DirEntry :=
  {| value := v; lower_value := lower v; abs_path := path; folder_action := Some a;
     action_source := if explicit then Some "explicit" else None |}.

(** [/sources/Music] is taken apart, the album below it is kept, and a
    disc folder inside the album was taken apart in a batch of its own. *)
Definition album_actions : gmap string FolderAction :=
  <["/sources/Music" := DISAGGREGATE]>
    (<["/sources/Music/Album" := KEEP]>
       (<["/sources/Music/Album/CD1" := DISAGGREGATE]> ∅)).

Definition track_node (folder_actions : gmap string FolderAction) : FileNode :=
  {| physical_path := Path "/sources/Music/Album/CD1/track.flac";
     category := CategoryPath_init [VText "Media"; VText "Music"];
     mime := "audio/flac"; metadata := ∅; folder_actions := folder_actions |}.

(** Every folder above the track is taken apart. *)
Definition flat_actions : gmap string FolderAction :=
  <["/sources/Music" := DISAGGREGATE]>
    (<["/sources/Music/Album" := DISAGGREGATE]>
       (<["/sources/Music/Album/CD1" := DISAGGREGATE]> ∅)).




End Media.

(* ===================================================================== *)
(** * app/file_nodes.py and the merge step of app/planner.py *)
(* ===================================================================== *)

Module Planner.
Import PyStr Pathlib Action Categories Media.

(** [dict.update]: the entries of [other] replace those of [d]. *)
Definition dict_update {V : Type} (d other : gmap string V) : gmap string V := other ∪ d.

(** The merge in [classify_and_plan]: the persisted rows parsed with
    [FolderAction.from_string] (a row that does not parse is skipped), then
    [merged_action_map.update(new_folder_action_map)]. *)
Definition merged_action_map (persisted_actions : gmap string string)
    (new_folder_action_map : gmap string FolderAction) : gmap string FolderAction :=
  dict_update (omap from_string persisted_actions) new_folder_action_map.

(** The parents that [_folder_actions_for] walks: [current = path.parent],
    then [current.parent], until the path is its own parent. *)
Fixpoint parents_upto (r : string) (names : list string) (n : nat) : list PurePosixPath :=
  match n with
  | O => []
  | S n' => {| root := r; names := take n names |} :: parents_upto r names n'
  end.

Definition proper_parents (p : PurePosixPath) : list PurePosixPath :=
  parents_upto (root p) (names p) (length (names p) - 1).

(** [_folder_actions_for]: the actions of the parent directories, keyed by
    their physical path. *)
Definition _folder_actions_for (physical_path : PurePosixPath)
    (action_map : gmap string FolderAction) : gmap string FolderAction :=
  fold_left
    (fun acc current =>
       match action_map !! as_posix current with
       | Some a => <[as_posix current := a]> acc
       | None => acc
       end)
    (proper_parents physical_path) ∅.

(** [FileNodeBuilder.build], for the fields path synthesis reads. *)
Definition build (folder_action_map : gmap string FolderAction) (path : string)
    (category : CategoryPath) (mime : string) (metadata : gmap string MetaValue) : FileNode :=
  let physical := Path path in
  {| physical_path := physical; category := category; mime := mime; metadata := metadata;
     folder_actions := _folder_actions_for physical folder_action_map |}.

(** What [classify_and_plan] does with one classified file: build the node
    against the merged map and synthesize the destination. *)
Definition plan_file (cfg : AppConfig) (persisted_actions : gmap string string)
    (new_folder_action_map : gmap string FolderAction) (path : string)
    (category : CategoryPath) (mime : string) (metadata : gmap string MetaValue)
    : ClassifiedPath :=
  let node_builder_map := merged_action_map persisted_actions new_folder_action_map in
  build_destination cfg (build node_builder_map path category mime metadata).

(** ** Sample inputs *)

(** What an earlier batch persisted, and what this batch derived again for
    the same folder. *)
Definition persisted_sample : gmap string string := {[ "/sources/Albums" := "disaggregate" ]}.
Definition rederived_sample : gmap string FolderAction := {[ "/sources/Albums" := KEEP ]}.

End Planner.

(* ===================================================================== *)
(** * app/db.py: the query behind [select_unclassified] *)
(* ===================================================================== *)

Module Db.
Import PyStr Sorting.

(** The columns of [files] and [folder_actions] the query reads; a nullable
    column holds an option. *)
Record FileRow := {
  path : string;
  size : Z;
  mime : option string;
  hash : option string;
  category : option string;
  status : option string
}.

Record FolderActionRow := {
  folder_path : string;
  action : string;
  decision_source : option string;
  decided_at : Z
}.

Record Database := {
  files : list FileRow;
  folder_actions : list FolderActionRow
}.

(** Upper and lower case of an ASCII letter are one character to [LIKE]. *)
Definition fold_case (c : ascii) : ascii :=
  if ((65 <=? ord c) && (ord c <=? 90))%N then ascii_of_N (ord c + 32) else c.

(** [text LIKE pattern] in SQLite without an escape character: a percent sign
    stands for any run of characters, an underscore for any one character,
    and letters compare without case. *)
Fixpoint like (pattern text : string) : bool :=
  match pattern with
  | EmptyString => negb (nonempty text)
  | String c pattern' =>
      if Ascii.eqb c "%" then
        (fix any_suffix (t : string) : bool :=
           like pattern' t ||
           match t with
           | EmptyString => false
           | String _ t' => any_suffix t'
           end) text
      else
        match text with
        | EmptyString => false
        | String d text' =>
            (Ascii.eqb c "_" || Ascii.eqb (fold_case c) (fold_case d)) && like pattern' text'
        end
  end.

(** The [NOT EXISTS] sub-query: some folder action [keep] whose path, read
    as a pattern, matches the file path or its directory part. *)
Definition under_keep (db : Database) (f : FileRow) : bool :=
  existsb
    (fun fa =>
       String.eqb (action fa) "keep"
       && (like (folder_path fa +:+ "/%") (path f) || like (folder_path fa) (path f)))
    (folder_actions db).

(** The [WHERE] clause. *)
Definition selected (db : Database) (f : FileRow) : bool :=
  bool_decide (category f = None)
  && bool_decide (hash f <> None)
  && bool_decide (status f = Some "scanned")
  && negb (under_keep db f).

(** The [ORDER BY]: the number of slashes, then the path. *)
Definition order_le (a b : FileRow) : bool :=
  let da := count "/" (path a) in
  let db := count "/" (path b) in
  Nat.ltb da db || (Nat.eqb da db && leb (path a) (path b)).

(** [LIMIT ?] with the value bound to it: a negative limit is no limit. *)
Definition limited {A : Type} (limit : option Z) (rows : list A) : list A :=
  match limit with
  | Some n => if (n <? 0)%Z then rows else take (Z.to_nat n) rows
  | None => rows
  end.

(** [cur.execute(query, ...).fetchall()]: the rows of the query, with the
    limit bound to it if there is one. *)
Definition execute (db : Database) (limit : option Z) : list (string * option string * Z) :=
  map (fun f => (path f, mime f, size f))
    (limited limit (sort_by order_le (List.filter (selected db) (files db)))).

(** The integers SQLite stores, those of 64 bits with a sign; binding any
    other Python integer to a query raises [OverflowError]. *)
Definition fits_int64 (n : Z) : bool := ((- 2 ^ 63 <=? n) && (n <? 2 ^ 63))%Z.

(** [Database.select_unclassified(limit)]; the left summand is the
    exception raised. *)
Definition select_unclassified (db : Database) (limit : option Z)
    : string + list (string * option string * Z) :=
  match limit with
  | Some n => if fits_int64 n then inr (execute db (Some n)) else inl "OverflowError"
  | None => inr (execute db None)
  end.

(** A file path below the folder: the folder path, a slash, and more. *)
Definition descendant_of (folder file_path : string) : bool :=
  startswith (folder +:+ "/") file_path.

(** [INSERT OR REPLACE INTO folder_actions]: [folder_path] is the primary
    key, so the row that has it, if any, goes and the new row comes in. *)
Definition insert_or_replace (rows : list FolderActionRow) (row : FolderActionRow)
    : list FolderActionRow :=
  List.filter (fun r => negb (String.eqb (folder_path r) (folder_path row))) rows ++ [row].

(** [Database.save_folder_actions(actions, decisions)], with the dict
    [actions] in its order and the clock reading [timestamp]. *)
Definition save_folder_actions (db : Database) (actions : list (string * string))
    (decisions : gmap string string) (timestamp : Z) : Database :=
  {| files := files db;
     folder_actions :=
       fold_left
         (fun rows item =>
            insert_or_replace rows
              {| folder_path := item.1; action := item.2;
                 decision_source := Some (default "unknown" (decisions !! item.1));
                 decided_at := timestamp |})
         actions (folder_actions db) |}.

(** [Database.get_folder_actions()]: the dict built from the rows. *)
Definition get_folder_actions (db : Database) : gmap string string :=
  fold_left (fun m r => <[folder_path r := action r]> m) (folder_actions db) ∅.

(** ** Sample inputs *)

Definition scanned (p : string) : FileRow :=
  {| path := p; size := 10; mime := Some "text/plain"; hash := Some "h";
     category := None; status := Some "scanned" |}.

(** A kept folder [/data/my_app], and files in two other folders beside it. *)
Definition sample_db : Database :=
  {| files := [scanned "/data/my-app/notes.txt"; scanned "/data/My_App/b.txt";
               scanned "/data/other/c.txt"; scanned "/data/my_app/src/a.txt"];
     folder_actions :=
       [{| folder_path := "/data/my_app"; action := "keep";
           decision_source := Some "rules:keep:keep_parent:.git"; decided_at := 0 |}] |}.

End Db.

(* ===================================================================== *)
(** * app/metrics.py and app/classifiers/multiplexed.py *)
(* ===================================================================== *)

Module Mux.
Import Action Categories.

#[local] Open Scope Q_scope.

Definition qlt (a b : Q) : bool := negb (Qle_bool b a).
Definition qmin (a b : Q) : Q := if Qle_bool a b then a else b.
Definition qmax (a b : Q) : Q := if Qle_bool a b then b else a.
Definition of_nat (n : nat) : Q := inject_Z (Z.of_nat n).

Definition MAX_LATENCY_SECONDS : Q := 120.

Record MetricSnapshot := {
  requests : nat;
  success : nat;
  failure : nat;
  latency_ms : Q;
  first_started : option Q;
  last_started : option Q
}.

Definition success_rate (s : MetricSnapshot) : Q :=
  if Nat.eqb (requests s) 0 then 0 else of_nat (success s) / of_nat (requests s).

Definition avg_latency_ms (s : MetricSnapshot) : Q :=
  if Nat.eqb (success s) 0 then 0 else latency_ms s / of_nat (success s).

Record Metric := {
  _success : nat;
  _failure : nat;
  _latency_ms : Q;
  _first_started : option Q;
  _last_started : option Q
}.

Definition Metric_init : Metric :=
  {| _success := 0; _failure := 0; _latency_ms := 0;
     _first_started := None; _last_started := None |}.

(** [Metric.reset] *)
Definition reset (m : Metric) : Metric := Metric_init.

(** [Metric.record] *)
Definition record (m : Metric) (started_at duration_s : Q) (ok : bool) : Metric :=
  let duration := qmax 0 (qmin duration_s MAX_LATENCY_SECONDS) in
  {| _success := if ok then S (_success m) else _success m;
     _failure := if ok then _failure m else S (_failure m);
     _latency_ms := _latency_ms m + duration * 1000;
     _first_started :=
       match _first_started m with Some t => Some t | None => Some started_at end;
     _last_started := Some started_at |}.

(** [Metric.snapshot] *)
Definition snapshot (m : Metric) : MetricSnapshot :=
  {| requests := _success m + _failure m; success := _success m; failure := _failure m;
     latency_ms := _latency_ms m; first_started := _first_started m;
     last_started := _last_started m |}.

(** The arguments of one [classify] call. *)
Record FileRequest := {
  req_name : string;
  req_rel_path : string;
  req_mime : string;
  req_sample : string
}.

(** [ClassifierResponse].  The metrics dict is kept by its entries: those of
    the back end, the [error] text and the [multiplexer] block. *)
Record MuxBlock := {
  mb_worker : string;
  mb_duration : Q;
  mb_queued_tasks : Z;
  mb_consecutive_failures : option nat
}.

Record ClassifierResponse := {
  path : CategoryPath;
  backend_metrics : list (string * string);
  metrics_error : option string;
  multiplexer : option MuxBlock;
  error : option string;
  error_context : list (string * string)
}.

Section Workers.

(** The state of the back ends and the network behind them. *)
Context {World : Type}.

(** What a call into a back end comes to: its result or the exception it
    raises (by its text), and the world afterwards. *)
Definition Outcome (R : Type) : Type := (string + R) * World.

Record Backend := {
  backend_classify : World -> FileRequest -> Outcome ClassifierResponse;
  backend_advise : World -> FolderActionRequest -> Outcome FolderActionResponse;
  display_name : string
}.

Record Worker := {
  classifier : Backend;
  name : string;
  total : Metric;
  window : Metric;
  last_used : Q;
  consecutive_failures : nat;
  current_weight : Q;
  cooldown_until : Q;
  in_flight : Z
}.

(** [Worker(worker, name=worker.display_name())] *)
Definition Worker_init (b : Backend) : Worker :=
  {| classifier := b; name := display_name b; total := Metric_init; window := Metric_init;
     last_used := 0; consecutive_failures := 0; current_weight := 0; cooldown_until := 0;
     in_flight := 0 |}.

(** [MultiplexedClassifier]; a worker is known by its position in [workers]. *)
Record Multiplexer := {
  workers : list Worker;
  stats_interval : Q;
  failure_cooldown : Q;
  _default_weight : Q;
  _last_selected : option nat;
  last_stats_dump : Q;
  requests_since_dump : nat
}.

Definition Multiplexer_init (backends : list Backend) (stats_interval failure_cooldown : Q)
    : Multiplexer :=
  {| workers := map Worker_init backends; stats_interval := stats_interval;
     failure_cooldown := failure_cooldown; _default_weight := 5; _last_selected := None;
     last_stats_dump := 0; requests_since_dump := 0 |}.

Definition set_workers (m : Multiplexer) (ws : list Worker) : Multiplexer :=
  {| workers := ws; stats_interval := stats_interval m; failure_cooldown := failure_cooldown m;
     _default_weight := _default_weight m; _last_selected := _last_selected m;
     last_stats_dump := last_stats_dump m; requests_since_dump := requests_since_dump m |}.

(** An update of the worker at position [i], as the code updates the object. *)
Definition update_worker (m : Multiplexer) (i : nat) (f : Worker -> Worker) : Multiplexer :=
  set_workers m (alter f i (workers m)).

(** [worker.cooldown_until and now < worker.cooldown_until] *)
Definition cooling (now : Q) (w : Worker) : bool :=
  negb (Qeq_bool (cooldown_until w) 0) && qlt now (cooldown_until w).

Definition unused (w : Worker) : bool :=
  Nat.eqb (requests (snapshot (total w))) 0 && Z.eqb (in_flight w) 0.

(** The list a worker that is not cooling down goes to in
    [_available_workers]: [true] for [primary], [false] for [fallback]. *)
Definition is_primary (w : Worker) : bool :=
  let s := snapshot (total w) in
  if unused w then true
  else if Nat.eqb (success s) 0 then false
  else Qle_bool (4 # 10) (success_rate s).

(** The positions of the workers that satisfy [p], in order. *)
Fixpoint positions (p : Worker -> bool) (ws : list Worker) (i : nat) : list nat :=
  match ws with
  | [] => []
  | w :: ws' => if p w then i :: positions p ws' (S i) else positions p ws' (S i)
  end.

(** [_available_workers]; the left summand is the [RuntimeError]. *)
Definition _available_workers (m : Multiplexer) (now : Q) : string + list nat :=
  let primary := positions (fun w => negb (cooling now w) && is_primary w) (workers m) 0 in
  let fallback := positions (fun w => negb (cooling now w) && negb (is_primary w)) (workers m) 0 in
  match primary, fallback with
  | _ :: _, _ => inr primary
  | [], _ :: _ => inr fallback
  | [], [] => inl "No workers available with acceptable success rate"
  end.

(** [_worker_weight] *)
Definition _worker_weight (m : Multiplexer) (w : Worker) : Q :=
  let s := snapshot (total w) in
  if Nat.eqb (success s) 0 then _default_weight m
  else
    let avg := avg_latency_ms s in
    if Qle_bool avg 0 then _default_weight m
    else qmax (1 # 10) (qmin 10 (1000 / (avg + 1))).

Definition set_last_selected (m : Multiplexer) (i : nat) : Multiplexer :=
  {| workers := workers m; stats_interval := stats_interval m;
     failure_cooldown := failure_cooldown m; _default_weight := _default_weight m;
     _last_selected := Some i; last_stats_dump := last_stats_dump m;
     requests_since_dump := requests_since_dump m |}.

Definition set_current_weight (q : Q) (w : Worker) : Worker :=
  {| classifier := classifier w; name := name w; total := total w; window := window w;
     last_used := last_used w; consecutive_failures := consecutive_failures w;
     current_weight := q; cooldown_until := cooldown_until w; in_flight := in_flight w |}.

Definition weight_at (ws : list Worker) (i : nat) : Q :=
  match ws !! i with Some w => current_weight w | None => 0 end.

(** One round of the weighted loop of [_select_worker]: the workers, the
    total weight and the worker chosen so far.  The weights are added and
    compared as exact rationals; the floats of the code round every sum, so
    where two accumulated weights are closer than a rounding error the code
    may choose another worker than this function does.  The facts below
    hold for whichever available worker the loop chooses. *)
Definition weigh (m : Multiplexer) (acc : list Worker * Q * option nat) (i : nat)
    : list Worker * Q * option nat :=
  let '(ws, total_weight, chosen) := acc in
  match ws !! i with
  | None => acc
  | Some w =>
      let weight := _worker_weight m w in
      let ws := alter (set_current_weight (current_weight w + weight)) i ws in
      let chosen :=
        match chosen with
        | None => Some i
        | Some c => if qlt (weight_at ws c) (weight_at ws i) then Some i else Some c
        end in
      (ws, total_weight + weight, chosen)
  end.

(** [_select_worker]: the position of the selected worker and the
    multiplexer afterwards, or the error raised. *)
Definition _select_worker (m : Multiplexer) (now : Q) : string + nat * Multiplexer :=
  match _available_workers m now with
  | inl e => inl e
  | inr available =>
      match List.filter (fun i => from_option unused false (workers m !! i)) available with
      | selected :: _ =>
          inr (selected, set_last_selected (update_worker m selected (set_current_weight 0)) selected)
      | [] =>
          let '(ws, total_weight, chosen) := fold_left (weigh m) available (workers m, 0, None) in
          match chosen with
          | None => inl "AssertionError"
          | Some c =>
              let ws :=
                if qlt 0 total_weight
                then alter (fun w => set_current_weight (current_weight w - total_weight) w) c ws
                else ws in
              inr (c, set_last_selected (set_workers m ws) c)
          end
      end
  end.

(** [_maybe_dump_stats], for its effect on the state (the dump itself is a
    log line). *)
Definition _maybe_dump_stats (m : Multiplexer) (now : Q) : Multiplexer :=
  if Nat.ltb (requests_since_dump m) 1000 && qlt (now - last_stats_dump m) (stats_interval m)
  then m
  else
    {| workers :=
         map (fun w =>
                {| classifier := classifier w; name := name w; total := total w;
                   window := reset (window w); last_used := last_used w;
                   consecutive_failures := consecutive_failures w;
                   current_weight := current_weight w; cooldown_until := cooldown_until w;
                   in_flight := in_flight w |})
           (workers m);
       stats_interval := stats_interval m; failure_cooldown := failure_cooldown m;
       _default_weight := _default_weight m; _last_selected := _last_selected m;
       last_stats_dump := now; requests_since_dump := 0 |}.

(** The readings of [time.time()] during one call, in the order taken:
    in [_available_workers], at [started], when the back end is done, for
    the cooldown, and in [_maybe_dump_stats]. *)
Record Clock := {
  t_select : Q;
  t_started : Q;
  t_done : Q;
  t_cooldown : Q;
  t_dump : Q
}.

(** The head of [classify] and of [advise_folder_action]: select a worker,
    count it in flight and stamp it. *)
Definition dispatch (m : Multiplexer) (clock : Clock) : string + nat * Multiplexer :=
  match _select_worker m (t_select clock) with
  | inl e => inl e
  | inr (i, m1) =>
      inr (i, update_worker m1 i (fun w =>
        {| classifier := classifier w; name := name w; total := total w; window := window w;
           last_used := t_started clock; consecutive_failures := consecutive_failures w;
           current_weight := current_weight w; cooldown_until := cooldown_until w;
           in_flight := in_flight w + 1 |}))
  end.

(** The bookkeeping of the [try] branch. *)
Definition on_success (clock : Clock) (w : Worker) : Worker :=
  let duration := t_done clock - t_started clock in
  {| classifier := classifier w; name := name w;
     total := record (total w) (t_started clock) duration true;
     window := record (window w) (t_started clock) duration true;
     last_used := last_used w; consecutive_failures := 0;
     current_weight := current_weight w; cooldown_until := cooldown_until w;
     in_flight := in_flight w |}.

(** The bookkeeping of the [except] branch. *)
Definition on_failure (m : Multiplexer) (clock : Clock) (w : Worker) : Worker :=
  let duration := t_done clock - t_started clock in
  let failures := S (consecutive_failures w) in
  let backoff := Nat.min 5 failures in
  {| classifier := classifier w; name := name w;
     total := record (total w) (t_started clock) duration false;
     window := record (window w) (t_started clock) duration false;
     last_used := last_used w; consecutive_failures := failures;
     current_weight := current_weight w;
     cooldown_until := t_cooldown clock + failure_cooldown m * of_nat backoff;
     in_flight := in_flight w |}.

(** The [finally] block. *)
Definition finally (m : Multiplexer) (clock : Clock) (i : nat) : Multiplexer :=
  let m :=
    {| workers := workers m; stats_interval := stats_interval m;
       failure_cooldown := failure_cooldown m; _default_weight := _default_weight m;
       _last_selected := _last_selected m; last_stats_dump := last_stats_dump m;
       requests_since_dump := S (requests_since_dump m) |} in
  let m := _maybe_dump_stats m (t_dump clock) in
  update_worker m i (fun w =>
    {| classifier := classifier w; name := name w; total := total w; window := window w;
       last_used := last_used w; consecutive_failures := consecutive_failures w;
       current_weight := current_weight w; cooldown_until := cooldown_until w;
       in_flight := Z.max 0 (in_flight w - 1) |}).

Definition mux_block (clock : Clock) (w : Worker) (failed : bool) : MuxBlock :=
  {| mb_worker := name w; mb_duration := t_done clock - t_started clock;
     mb_queued_tasks := (in_flight w - 1)%Z;
     mb_consecutive_failures := if failed then Some (consecutive_failures w) else None |}.

(** [classify] from the point where the awaited back end call has ended,
    with the multiplexer as it is then: what the call returns and the
    multiplexer it leaves. *)
Definition settle_classify (m : Multiplexer) (clock : Clock) (i : nat)
    (outcome : string + ClassifierResponse) : ClassifierResponse * Multiplexer :=
  match outcome with
  | inr result =>
      let m1 := update_worker m i (on_success clock) in
      ({| path := path result; backend_metrics := backend_metrics result;
          metrics_error := metrics_error result;
          multiplexer := (fun w => mux_block clock w false) <$> workers m1 !! i;
          error := error result; error_context := error_context result |},
       finally m1 clock i)
  | inl exc =>
      let m1 := update_worker m i (on_failure m clock) in
      ({| path := UNKNOWN_CATEGORY; backend_metrics := [];
          metrics_error := Some exc;
          multiplexer := (fun w => mux_block clock w true) <$> workers m1 !! i;
          error := Some exc;
          error_context := from_option (fun w => [("worker", name w)]) [] (workers m1 !! i) |},
       finally m1 clock i)
  end.

(** [MultiplexedClassifier.classify], run without interleaving: the left
    summand is an exception that reaches the caller. *)
Definition classify (m : Multiplexer) (w : World) (request : FileRequest) (clock : Clock)
    : (string + ClassifierResponse) * Multiplexer * World :=
  match dispatch m clock with
  | inl e => (inl e, m, w)
  | inr (i, m1) =>
      match workers m1 !! i with
      | None => (inl "IndexError", m1, w)
      | Some worker =>
          let (outcome, w') := backend_classify (classifier worker) w request in
          let (response, m2) := settle_classify m1 clock i outcome in
          (inr response, m2, w')
      end
  end.

(** [MultiplexedClassifier.advise_folder_action] *)
Definition advise_folder_action (m : Multiplexer) (w : World)
    (request : FolderActionRequest) (clock : Clock)
    : (string + FolderActionResponse) * Multiplexer * World :=
  match dispatch m clock with
  | inl e => (inl e, m, w)
  | inr (i, m1) =>
      match workers m1 !! i with
      | None => (inl "IndexError", m1, w)
      | Some worker =>
          let (outcome, w') := backend_advise (classifier worker) w request in
          match outcome with
          | inr result => (inr result, finally (update_worker m1 i (on_success clock)) clock i, w')
          | inl exc =>
              (inr (decision (default DISAGGREGATE (rule_hint request)) "multiplexer:error"),
               finally (update_worker m1 i (on_failure m1 clock)) clock i, w')
          end
      end
  end.

End Workers.

(** The back end of the unit tests ([MockClassifier]): it raises when its
    [fail_rate] is positive.  The world is the list of the calls made, by
    the name of the back end called. *)
Definition MockClassifier (label : string) (fails : bool) : @Backend (list string) :=
  {| backend_classify := fun calls _ =>
       (if fails then inl "Simulated failure"
        else inr {| path := CategoryPath_init [VText "Test"];
                    backend_metrics := [("source", "mock")]; metrics_error := None;
                    multiplexer := None; error := None; error_context := [] |},
        calls ++ [label]);
     backend_advise := fun calls request =>
       (if fails then inl "Simulated failure"
        else inr (decision (if (10 <? total_files request)%Z then KEEP else DISAGGREGATE)
                    "mock:test"),
        calls ++ [label]);
     display_name := label |}.

Definition sample_request : FileRequest :=
  {| req_name := "file.txt"; req_rel_path := "rel/path"; req_mime := "text/plain";
     req_sample := "sample" |}.

Definition sample_folder_request : FolderActionRequest :=
  {| folder_path := "/test"; folder_name := "test"; children := []; total_files := 2;
     rule_hint := None |}.

(** Two workers, the first of which fails, with the default cooldown of two
    seconds. *)
Definition sample_mux : @Multiplexer (list string) :=
  Multiplexer_init [MockClassifier "mock(a)" true; MockClassifier "mock(b)" false] 900 2.

(** A call that starts [at] and takes one second. *)
Definition clock_at (at_ : Q) : Clock :=
  {| t_select := at_; t_started := at_; t_done := at_ + 1; t_cooldown := at_ + 1;
     t_dump := at_ + 1 |}.

(** Two workers that answer, as in [test_failure_handling]. *)
Definition healthy_mux : @Multiplexer (list string) :=
  Multiplexer_init [MockClassifier "mock(c2)" false; MockClassifier "mock(c3)" false] 900 2.

(** A multiplexer whose only worker has just failed a call started at 100. *)
Definition cooling_mux : @Multiplexer (list string) :=
  snd (fst (classify (Multiplexer_init [MockClassifier "mock(a)" true] 900 2) []
              sample_request (clock_at 100))).

End Mux.

(* ===================================================================== *)
(** * Facts about the string functions *)
(* ===================================================================== *)

Module PyStrFacts.
Import PyStr.

Lemma chars_cons c s : chars (String c s) = c :: chars s.
Proof. reflexivity. Qed.

Lemma nonempty_true s : nonempty s = true <-> s <> EmptyString.
Proof. destruct s; simpl; split; congruence. Qed.

Lemma in_lstrip p s c : In c (chars (lstrip_with p s)) -> In c (chars s).
Proof.
  induction s as [|a s IH]; simpl; [tauto|].
  destruct (p a); simpl; auto.
Qed.

Lemma in_rstrip p s c : In c (chars (rstrip_with p s)) -> In c (chars s).
Proof.
  induction s as [|a s IH]; simpl; [tauto|].
  destruct (rstrip_with p s) eqn:E.
  - destruct (p a); simpl; tauto.
  - simpl in *. intros [->|H]; auto.
Qed.

Lemma in_strip_with p s c : In c (chars (strip_with p s)) -> In c (chars s).
Proof. intros H. apply in_rstrip with p, in_lstrip with p, H. Qed.

Lemma in_sfilter p s c : In c (chars (sfilter p s)) <-> In c (chars s) /\ p c = true.
Proof.
  induction s as [|a s IH]; simpl; [tauto|].
  destruct (p a) eqn:E; simpl; rewrite ?IH; split.
  - intros [->|[? ?]]; auto.
  - intros [[->|?] ?]; auto.
  - intros [? ?]; auto.
  - intros [[->|?] ?]; [congruence|auto].
Qed.

Lemma split_on_nonnil sep s : split_on sep s <> [].
Proof.
  destruct s as [|c s]; simpl; [discriminate|].
  destruct (Ascii.eqb c sep); [discriminate|].
  destruct (split_on sep s); discriminate.
Qed.

(** No piece of a split holds the separator. *)
Lemma split_on_lacks sep s x : In x (split_on sep s) -> lacks sep x.
Proof.
  revert x. induction s as [|c s IH]; simpl; intros x.
  - intros [<-|[]]. unfold lacks. simpl. tauto.
  - destruct (Ascii.eqb_spec c sep) as [->|Hne].
    + intros [<-|H]; [unfold lacks; simpl; tauto | auto].
    + destruct (split_on sep s) as [|h t] eqn:E.
      * intros [<-|[]]. unfold lacks; simpl. intros [?|[]]; congruence.
      * intros [<-|H].
        -- unfold lacks. simpl. intros [?|H]; [congruence|].
           apply (IH h); [left; reflexivity | exact H].
        -- apply IH. right. exact H.
Qed.






Lemma split_on_id sep s : lacks sep s -> split_on sep s = [s].
Proof.
  unfold lacks. induction s as [|c s IH]; simpl; intros H; [reflexivity|].
  destruct (Ascii.eqb_spec c sep) as [->|_]; [exfalso; apply H; left; reflexivity|].
  rewrite IH; [reflexivity|]. intros Hin. apply H. right. exact Hin.
Qed.

(** Splitting a text with a separator in the middle splits both sides. *)
Lemma split_on_app sep a b :
  split_on sep (a +:+ String sep b) = split_on sep a ++ split_on sep b.
Proof.
  induction a as [|c a IH]; simpl.
  - rewrite Ascii.eqb_refl. reflexivity.
  - destruct (Ascii.eqb c sep); [rewrite IH; reflexivity|].
    rewrite IH. pose proof (split_on_nonnil sep a) as Hne.
    destruct (split_on sep a); [congruence | reflexivity].
Qed.

Lemma split_on_join sep l :
  l <> [] -> split_on sep (join (String sep EmptyString) l) = flat_map (split_on sep) l.
Proof.
  unfold join. induction l as [|x l IH]; intros Hne; [congruence|].
  destruct l as [|y l].
  - simpl. rewrite List.app_nil_r. reflexivity.
  - change (String.concat (String sep EmptyString) (x :: y :: l))
      with (x +:+ String sep (String.concat (String sep EmptyString) (y :: l))).
    rewrite split_on_app, IH by discriminate. reflexivity.
Qed.


Lemma append_assoc a b c : (a +:+ b) +:+ c = a +:+ (b +:+ c).
Proof.
  induction a as [|x a IH]; [reflexivity|].
  change (String x ((a +:+ b) +:+ c) = String x (a +:+ (b +:+ c))).
  rewrite IH. reflexivity.
Qed.


Lemma startswith_slash c s : startswith "/" (String c s) = Ascii.eqb "/" c.
Proof. cbn [startswith]. apply andb_true_r. Qed.

Lemma lacks_relative s : lacks "/" s -> relative s.
Proof.
  intros H. destruct s as [|c s]; [reflexivity|].
  unfold relative. rewrite startswith_slash.
  destruct (Ascii.eqb_spec "/"%char c) as [<-|]; [|reflexivity].
  exfalso. apply H. left. reflexivity.
Qed.

Lemma lstrip_slash_relative s : relative (lstrip_with (is_char "/") s).
Proof.
  unfold relative. induction s as [|c s IH]; [reflexivity|].
  cbn [lstrip_with]. unfold is_char at 1.
  destruct (Ascii.eqb_spec c "/") as [->|Hne]; [exact IH|].
  rewrite startswith_slash.
  destruct (Ascii.eqb_spec "/"%char c); [congruence | reflexivity].
Qed.

Lemma strip_slash_relative s : relative (strip_slash s).
Proof. apply lstrip_slash_relative. Qed.

End PyStrFacts.

(* ===================================================================== *)
(** * Facts about category paths and the catalog *)
(* ===================================================================== *)

Module CategoriesFacts.
Import PyStr PyStrFacts Categories.

Lemma clean_is_clean seg :
  lacks "/" seg -> nonempty (clean seg) = true -> clean_segment (clean seg).
Proof.
  intros Hseg Hne. split.
  - apply nonempty_true, Hne.
  - intros c Hc. unfold clean in Hc. apply in_sfilter in Hc as [Hc Hp].
    split; [exact Hp|]. intros ->. apply Hseg.
    unfold strip in Hc. apply in_strip_with in Hc. exact Hc.
Qed.

Lemma filter_nonempty_ne l : Forall (fun s => s <> EmptyString) (List.filter nonempty l).
Proof.
  apply List.Forall_forall. intros x Hx. apply List.filter_In in Hx as [_ Hx].
  apply nonempty_true, Hx.
Qed.

(** Whatever the argument, no empty segment comes out of it. *)
Lemma decompose_value_ne v : Forall (fun s => s <> EmptyString) (decompose_value v).
Proof.
  destruct v as [|p|p|s]; simpl.
  - constructor.
  - apply filter_nonempty_ne.
  - apply filter_nonempty_ne.
  - destruct (nonempty (strip s)); [apply filter_nonempty_ne | constructor].
Qed.

Lemma decompose_value_clean v : plain v -> Forall clean_segment (decompose_value v).
Proof.
  destruct v as [|p|p|s]; simpl; intros Hv.
  - constructor.
  - apply List.Forall_forall. intros x Hx. apply List.filter_In in Hx as [Hx _].
    rewrite List.Forall_forall in Hv. apply Hv, Hx.
  - destruct Hv.
  - destruct (nonempty (strip s)); [|constructor].
    apply List.Forall_forall. intros x Hx. apply List.filter_In in Hx as [Hx Hne].
    apply List.in_map_iff in Hx as [seg [<- Hseg]].
    apply clean_is_clean; [|exact Hne].
    apply split_on_lacks in Hseg. exact Hseg.
Qed.

Lemma decompose_values_ne values :
  Forall (fun s => s <> EmptyString) (_decompose_values values).
Proof.
  unfold _decompose_values. induction values as [|v vs IH]; simpl.
  - constructor.
  - apply List.Forall_app. split; [apply decompose_value_ne | exact IH].
Qed.

Lemma decompose_values_clean values :
  Forall plain values -> Forall clean_segment (_decompose_values values).
Proof.
  unfold _decompose_values. induction 1 as [|v vs Hv _ IH]; simpl.
  - constructor.
  - apply List.Forall_app. split; [apply decompose_value_clean, Hv | exact IH].
Qed.

Lemma unknown_clean : clean_segment "Unknown".
Proof.
  split; [discriminate|]. intros c Hc. simpl in Hc.
  repeat (destruct Hc as [<-|Hc]; [split; [reflexivity | discriminate]|]).
  destruct Hc.
Qed.

Lemma init_parts segments :
  _parts (CategoryPath_init segments) =
  match _decompose_values segments with [] => ["Unknown"] | parts => parts end.
Proof. unfold CategoryPath_init. destruct (_decompose_values segments); reflexivity. Qed.

(** The part of the invariant that holds for every argument: the path is
    not empty, none of its segments is empty, and it is the sentinel when
    nothing survives. *)
Lemma init_nonempty segments :
  _parts (CategoryPath_init segments) <> [] /\
  Forall (fun s => s <> EmptyString) (_parts (CategoryPath_init segments)) /\
  (_decompose_values segments = [] -> CategoryPath_init segments = UNKNOWN_CATEGORY).
Proof.
  rewrite init_parts. pose proof (decompose_values_ne segments) as H.
  unfold CategoryPath_init.
  destruct (_decompose_values segments) as [|x l].
  - split; [discriminate|]. split; [|intros _; reflexivity].
    repeat constructor. discriminate.
  - split; [discriminate|]. split; [exact H | discriminate].
Qed.

(** Arguments that go through the cleaning give a clean path. *)
Lemma init_clean segments :
  Forall plain segments -> Forall clean_segment (_parts (CategoryPath_init segments)).
Proof.
  intros Hplain. rewrite init_parts.
  pose proof (decompose_values_clean segments Hplain) as H.
  destruct (_decompose_values segments) as [|x l]; [|exact H].
  constructor; [apply unknown_clean | constructor].
Qed.

(** C10, as amended.  For every argument list, [CategoryPath(...)] is a
    non-empty sequence of non-empty segments, and when nothing survives the
    cleaning it is the single segment [Unknown].  For arguments that are
    [None], text, or category paths that are clean themselves, each segment
    is moreover printable ASCII and free of slashes. *)
Theorem categorypath_init_clean (segments : list Value) :
  _parts (CategoryPath_init segments) <> [] /\
  Forall (fun s => s <> EmptyString) (_parts (CategoryPath_init segments)) /\
  (_decompose_values segments = [] -> _parts (CategoryPath_init segments) = ["Unknown"]) /\
  (Forall plain segments -> Forall clean_segment (_parts (CategoryPath_init segments))).
Proof.
  rewrite init_parts.
  pose proof (decompose_values_ne segments) as Hne.
  pose proof (decompose_values_clean segments) as Hclean.
  destruct (_decompose_values segments) as [|x l].
  - split; [discriminate|]. split; [repeat constructor; discriminate|].
    split; [intros _; reflexivity|].
    intros _. constructor; [apply unknown_clean | constructor].
  - split; [discriminate|]. split; [exact Hne|]. split; [discriminate | exact Hclean].
Qed.

(** The text [" Media / <tab>Mu<e9>sic "], with a control character and a
    character beyond ASCII, and a [None] beside it. *)
Lemma categorypath_init_clean_witness :
  Forall plain [VText (" Media / " +:+ String (ascii_of_nat 9) ("Mu" +:+ String (ascii_of_nat 233) "sic ")); VNone] /\
  _parts (CategoryPath_init
            [VText (" Media / " +:+ String (ascii_of_nat 9) ("Mu" +:+ String (ascii_of_nat 233) "sic ")); VNone])
  = ["Media"; "Music"] /\
  Forall clean_segment ["Media"; "Music"].
Proof.
  assert (Hp : Forall plain [VText (" Media / " +:+ String (ascii_of_nat 9) ("Mu" +:+ String (ascii_of_nat 233) "sic ")); VNone]).
  { repeat constructor. }
  split; [exact Hp|]. split; [reflexivity|].
  exact (proj2 (proj2 (proj2 (categorypath_init_clean _))) Hp).
Defined.

(** C10, as stated, fails on a path argument: the parts of [PurePosixPath("/a")]
    are taken as they are, and the first of them is the root. *)
Lemma categorypath_init_purepath_counterexample :
  _parts (CategoryPath_init [VPurePath (Pathlib.Path "/a")]) = ["/"; "a"] /\
  ~ clean_segment "/".
Proof.
  split; [reflexivity|].
  intros [_ H]. destruct (H "/"%char) as [_ Hne]; [left; reflexivity|].
  apply Hne. reflexivity.
Qed.

(** The loop of [_lookup] returns at the longest known prefix, with
    everything after it appended as it is. *)
Lemma lookup_prefixes_found pl norm parts idx k c :
  1 <= k <= idx ->
  pl !! take k norm = Some c -> c <> [] ->
  (forall j, k < j <= idx -> pl !! take j norm = None) ->
  _lookup_prefixes pl norm parts idx = Some (c ++ drop k parts).
Proof.
  induction idx as [|i IH]; intros Hk Hc Hne Hnone; [lia|].
  cbn [_lookup_prefixes].
  destruct (decide (k = S i)) as [->|Hki].
  - rewrite Hc. destruct c; [congruence | reflexivity].
  - rewrite (Hnone (S i)) by lia.
    apply IH; [lia | exact Hc | exact Hne |].
    intros j Hj. apply Hnone. lia.
Qed.

(** A path that extends a known category path, by one segment or by more,
    and has no longer known prefix, normalizes to the canonical path with
    the extra segments appended. *)
Lemma lookup_extends_known_path c known extra canonical :
  known <> [] -> extra <> [] -> canonical <> [] ->
  _path_lookup c !! map lower known = Some canonical ->
  (forall j, length known < j <= length (known ++ extra) ->
     _path_lookup c !! take j (map lower (known ++ extra)) = None) ->
  _lookup c (known ++ extra) = Some (canonical ++ extra).
Proof.
  intros Hk He Hc Hknown Hnone. unfold _lookup.
  assert (Hlen : length known >= 1) by (destruct known; [congruence | simpl; lia]).
  assert (Hlen' : length extra >= 1) by (destruct extra; [congruence | simpl; lia]).
  assert (Hfull : _path_lookup c !! map lower (known ++ extra) = None).
  { rewrite <- (firstn_all (map lower (known ++ extra))).
    apply Hnone. rewrite length_map, length_app. lia. }
  rewrite Hfull.
  destruct (Nat.eqb_spec (length (known ++ extra)) 1) as [E|_].
  { rewrite length_app in E. lia. }
  rewrite (lookup_prefixes_found _ _ _ _ (length known) canonical).
  - rewrite drop_app_length. reflexivity.
  - rewrite length_app. lia.
  - rewrite map_app, <- (length_map lower known), take_app_length. exact Hknown.
  - exact Hc.
  - intros j Hj. apply Hnone. rewrite length_app in *. lia.
Qed.

(** C9.  [normalize] at an input that extends the known path
    [Documents/Other] by two segments: the catalog returns the path with both
    extra segments appended, where the claim has the input not normalized to
    a category. *)
Theorem normalize_two_extra_segments :
  normalize sample_catalog [VText "Documents/Other/Academic/Exams"]
  = Some {| _parts := ["Documents"; "Other"; "Academic"; "Exams"] |}.
Proof. vm_compute. reflexivity. Qed.

(** One extra segment is appended in the same way. *)
Lemma normalize_one_extra_segment :
  normalize sample_catalog [VText "documents/other/Academic"]
  = Some {| _parts := ["Documents"; "Other"; "Academic"] |}.
Proof. vm_compute. reflexivity. Qed.

End CategoriesFacts.

(* ===================================================================== *)
(** * Facts about the rules classifier *)
(* ===================================================================== *)

Module RulesFacts.
Import PyStr Action Categories Rules.

(** A marker child makes its round of the loop return the final [KEEP]. *)
Lemma marker_step rules request child :
  is_marker rules request child = true ->
  child_step rules request child = Some (decision KEEP ("keep_parent:" +:+ child_name child)).
Proof.
  unfold is_marker, child_step. cbv zeta.
  destruct (String.eqb (child_type child) "dir").
  - intros ->. reflexivity.
  - destruct (String.eqb (child_type child) "file"); [|discriminate].
    destruct (match_ rules (child_name child) _ _) as [rule|]; [|discriminate].
    simpl. intros ->. reflexivity.
Qed.

(** When no child before the marker makes the loop return, the marker
    decides, whatever comes after it and whatever the folder rule says. *)
Lemma marker_decides rules request before child after :
  children request = before ++ child :: after ->
  Forall (fun c => child_step rules request c = None) before ->
  is_marker rules request child = true ->
  advise_folder_action rules request = decision KEEP ("keep_parent:" +:+ child_name child).
Proof.
  intros Hch Hbefore Hmarker. unfold advise_folder_action. rewrite Hch.
  assert (H : scan_children rules request (before ++ child :: after)
              = Some (decision KEEP ("keep_parent:" +:+ child_name child))).
  { clear Hch. induction Hbefore as [|c cs Hc _ IH]; simpl.
    - rewrite (marker_step _ _ _ Hmarker). reflexivity.
    - rewrite Hc. exact IH. }
  rewrite H. reflexivity.
Qed.

(** C5.  The rules classifier at a folder whose children are a read-me
    (matched by the catch-all rule, which requires the AI) and a
    [node_modules] directory (matched by a [keep_parent] rule): the read-me
    comes first and makes the function delegate, so the marker is never
    looked at and no final [KEEP] is returned. *)
Theorem advise_folder_action_marker_after_file :
  is_marker sample_rules webapp_request node_modules_child = true /\
  In node_modules_child (children webapp_request) /\
  advise_folder_action sample_rules webapp_request = delegate None "rule:requires_ai".
Proof. split; [reflexivity|]. split; [right; left; reflexivity | reflexivity]. Qed.

(** With the marker alone, or first, the decision is the final [KEEP]. *)
Lemma advise_folder_action_marker_first :
  advise_folder_action sample_rules
    {| folder_path := "/WebApp"; folder_name := "WebApp";
       children := [node_modules_child; readme_child];
       total_files := 4; rule_hint := None |}
  = decision KEEP "keep_parent:node_modules".
Proof. reflexivity. Qed.

End RulesFacts.

(* ===================================================================== *)
(** * Facts about sorting *)
(* ===================================================================== *)

Module SortingFacts.
Import Sorting.

Section SortBy.
Context {A : Type} (le : A -> A -> bool).
Hypothesis le_total : forall a b, le a b = true \/ le b a = true.
Hypothesis le_trans : forall a b c, le a b = true -> le b c = true -> le a c = true.

Lemma insert_by_perm x l : Permutation (insert_by le x l) (x :: l).
Proof.
  induction l as [|y l IH]; simpl; [reflexivity|].
  destruct (le x y); [reflexivity|].
  rewrite IH. apply perm_swap.
Qed.

Lemma sort_by_perm l : Permutation (sort_by le l) l.
Proof.
  induction l as [|x l IH]; simpl; [reflexivity|].
  rewrite insert_by_perm. constructor. exact IH.
Qed.

Lemma insert_by_sorted x l :
  StronglySorted (fun a b => le a b = true) l ->
  StronglySorted (fun a b => le a b = true) (insert_by le x l).
Proof.
  induction 1 as [|y l Hs IH Hy]; simpl.
  - repeat constructor.
  - destruct (le x y) eqn:E.
    + constructor; [constructor; assumption|].
      constructor; [exact E|].
      rewrite List.Forall_forall in *. intros z Hz. apply le_trans with y; auto.
    + constructor; [exact IH|].
      rewrite List.Forall_forall in *. intros z Hz.
      apply (Permutation_in _ (insert_by_perm x l)) in Hz. destruct Hz as [<-|Hz].
      * destruct (le_total x y) as [H|H]; [congruence | exact H].
      * apply Hy, Hz.
Qed.

Lemma sort_by_sorted l : StronglySorted (fun a b => le a b = true) (sort_by le l).
Proof.
  induction l as [|x l IH]; simpl; [constructor|].
  apply insert_by_sorted, IH.
Qed.


End SortBy.

End SortingFacts.

(* ===================================================================== *)
(** * Facts about the folder-action resolver *)
(* ===================================================================== *)

Module PolicyFacts.
Import PyStr PyStrFacts Action Sorting SortingFacts Policy.






Section Chain.
Context {World : Type} (_strip_sources : string -> string).
Context (rules classifier : option (@Advisor World)) (samples : list (string * FolderSample)).

#[local] Abbreviation step := (step _strip_sources rules classifier samples).
#[local] Abbreviation blocked st folder :=
  (truthy (fst <$> _get_decided_parent folder (actions st))).


Lemma step_actions_other st folder k :
  k <> folder -> actions (step st folder) !! k = actions st !! k.
Proof.
  intros Hne. unfold Policy.step. cbv zeta.
  destruct (blocked st folder); [reflexivity|].
  destruct (_decide_folder_action _ _ _ _ _ _) as [[[a source] w'] names]. simpl.
  apply lookup_insert_ne. congruence.
Qed.







#[local] Abbreviation run := (fold_left step).

Lemma run_actions_other l st k :
  ~ In k l -> actions (run l st) !! k = actions st !! k.
Proof.
  revert st. induction l as [|f l IH]; intros st Hk; [reflexivity|]. simpl.
  rewrite IH by (intros H; apply Hk; right; exact H).
  apply step_actions_other. intros ->. apply Hk. left. reflexivity.
Qed.



Lemma run_keys l st k :
  is_Some (actions (run l st) !! k) -> In k l \/ is_Some (actions st !! k).
Proof.
  intros H. destruct (List.in_dec string_dec k l) as [Hin|Hout]; [left; exact Hin|].
  right. rewrite run_actions_other in H by exact Hout. exact H.
Qed.

#[local] Abbreviation sorted_folders :=
  (sort_by (fun a b => Nat.leb (depth a) (depth b)) (map fst samples)).

#[local] Abbreviation start w :=
  ({| actions := ∅; decisions := ∅; world := w; asked := [] |}).



End Chain.



End PolicyFacts.

(* ===================================================================== *)
(** * Facts about paths *)
(* ===================================================================== *)

Module PathlibFacts.
Import PyStr PyStrFacts Pathlib.

Lemma parse_names_join l :
  parse_names (join "/" l) = List.filter keep_name (flat_map (split_on "/") l).
Proof.
  unfold parse_names. destruct l as [|x l]; [reflexivity|].
  rewrite split_on_join by discriminate. reflexivity.
Qed.

Lemma wf_names_fixed l :
  Forall wf_name l -> List.filter keep_name (flat_map (split_on "/") l) = l.
Proof.
  induction 1 as [|x l [Hk Hl] _ IH]; [reflexivity|]. simpl.
  rewrite (split_on_id _ _ Hl). simpl. rewrite Hk, IH. reflexivity.
Qed.

(** Joined segments parse back, and well-formed leading segments come back
    as they are. *)
Lemma parse_names_join_app a b :
  Forall wf_name a -> parse_names (join "/" (a ++ b)) = a ++ parse_names (join "/" b).
Proof.
  intros Ha. rewrite !parse_names_join, List.flat_map_app, List.filter_app.
  rewrite (wf_names_fixed _ Ha). reflexivity.
Qed.

Lemma parse_names_wf s : Forall wf_name (parse_names s).
Proof.
  apply List.Forall_forall. intros x Hx. apply List.filter_In in Hx as [Hx Hk].
  split; [exact Hk | apply split_on_lacks in Hx; exact Hx].
Qed.

Lemma wf_name_no_slash_start s : wf_name s -> startswith "/" s = false.
Proof.
  intros [_ Hl]. destruct s as [|c s]; [reflexivity|].
  change (startswith "/" (String c s)) with (Ascii.eqb "/" c && true).
  destruct (Ascii.eqb_spec "/"%char c) as [<-|Hne]; [|reflexivity].
  exfalso. apply Hl. left. reflexivity.
Qed.

Lemma parse_root_cases s : parse_root s = "" \/ parse_root s = "/" \/ parse_root s = "//".
Proof.
  unfold parse_root.
  destruct (startswith "///" s); [auto|].
  destruct (startswith "//" s); [auto|].
  destruct (startswith "/" s); auto.
Qed.

Lemma Path_wf s : wf_path (Path s).
Proof. split; [apply parse_root_cases | apply parse_names_wf]. Qed.

Lemma joinpath_wf p s : wf_path p -> wf_path (joinpath p s).
Proof.
  intros [Hr Hn]. unfold joinpath. destruct (startswith "/" s); [apply Path_wf|].
  split; [exact Hr|]. simpl. apply List.Forall_app. split; [exact Hn | apply parse_names_wf].
Qed.

Lemma truediv_wf p q : wf_path p -> wf_path q -> wf_path (truediv p q).
Proof.
  intros [Hr Hn] [Hr' Hn']. unfold truediv. destruct (nonempty (root q)); [split; assumption|].
  split; [exact Hr|]. simpl. apply List.Forall_app. split; assumption.
Qed.

Lemma fold_joinpath_wf more p : wf_path p -> wf_path (fold_left joinpath more p).
Proof.
  revert p. induction more as [|s more IH]; intros p Hp; [exact Hp|].
  simpl. apply IH, joinpath_wf, Hp.
Qed.

Lemma Path_of_wf first more : wf_path (Path_of first more).
Proof. apply fold_joinpath_wf, Path_wf. Qed.

(** Joining a relative text keeps what was there. *)
Lemma joinpath_relative p s :
  startswith "/" s = false ->
  joinpath p s = {| root := root p; names := names p ++ parse_names s |}.
Proof. intros H. unfold joinpath. rewrite H. reflexivity. Qed.

Lemma parse_names_name s : wf_name s -> parse_names s = [s].
Proof.
  intros [Hk Hl]. unfold parse_names. rewrite (split_on_id _ _ Hl). simpl. rewrite Hk. reflexivity.
Qed.

Lemma fold_joinpath_names more p :
  Forall wf_name more ->
  fold_left joinpath more p = {| root := root p; names := names p ++ more |}.
Proof.
  intros H. revert p. induction H as [|s more Hs _ IH]; intros p; simpl.
  - rewrite List.app_nil_r. destruct p; reflexivity.
  - rewrite IH, (joinpath_relative _ _ (wf_name_no_slash_start _ Hs)). simpl.
    rewrite (parse_names_name _ Hs), <- List.app_assoc. reflexivity.
Qed.

(** [PurePosixPath(target, *parts)] for well-formed parts. *)
Lemma Path_of_names first more :
  Forall wf_name more ->
  Path_of first more = {| root := root (Path first); names := names (Path first) ++ more |}.
Proof. apply fold_joinpath_names. Qed.

Lemma join_no_slash_start l : Forall wf_name l -> startswith "/" (join "/" l) = false.
Proof.
  intros H. destruct H as [|x l Hx _]; [reflexivity|].
  pose proof (wf_name_no_slash_start _ Hx) as Hs.
  destruct Hx as [Hk _]. unfold join.
  destruct x as [|c x]; [discriminate|].
  destruct l; simpl in *; exact Hs.
Qed.

Lemma parse_root_relative s : startswith "/" s = false -> parse_root s = "".
Proof.
  intros H. unfold parse_root. destruct s as [|c s]; [reflexivity|].
  cbn [startswith] in *. apply andb_false_iff in H as [H|H]; [|discriminate].
  rewrite H. reflexivity.
Qed.

Lemma parse_names_slash t : parse_names (String "/" t) = parse_names t.
Proof. reflexivity. Qed.

Lemma parse_root_one t : startswith "/" t = false -> parse_root (String "/" t) = "/".
Proof.
  intros H. destruct t as [|c t]; [reflexivity|].
  cbn [startswith] in H. apply andb_false_iff in H as [H|H]; [|discriminate].
  unfold parse_root. cbn [startswith]. rewrite H, !Ascii.eqb_refl. reflexivity.
Qed.

Lemma parse_root_two t :
  startswith "/" t = false -> parse_root (String "/" (String "/" t)) = "//".
Proof.
  intros H. destruct t as [|c t]; [reflexivity|].
  cbn [startswith] in H. apply andb_false_iff in H as [H|H]; [|discriminate].
  unfold parse_root. cbn [startswith]. rewrite H, !Ascii.eqb_refl. reflexivity.
Qed.

(** A well-formed path is the parse of its own text, which is why
    [ClassifiedPath.build], fed [destination.as_posix()], holds the path that
    [build_destination] computed. *)
Lemma Path_as_posix p : wf_path p -> Path (as_posix p) = p.
Proof.
  destruct p as [r ns]. intros [Hr Hn]. simpl in Hr, Hn.
  pose proof (join_no_slash_start _ Hn) as Hs.
  assert (Hnames : parse_names (join "/" ns) = ns).
  { rewrite parse_names_join. apply wf_names_fixed, Hn. }
  unfold Path, as_posix. cbn [root names].
  destruct Hr as [-> | [-> | ->]].
  - destruct ns as [|x l]; [reflexivity|].
    change ("" +:+ join "/" (x :: l)) with (join "/" (x :: l)).
    rewrite Hnames, (parse_root_relative _ Hs). reflexivity.
  - change ("/" +:+ join "/" ns) with (String "/" (join "/" ns)).
    rewrite parse_names_slash, Hnames, (parse_root_one _ Hs). reflexivity.
  - change ("//" +:+ join "/" ns) with (String "/" (String "/" (join "/" ns))).
    rewrite !parse_names_slash, Hnames, (parse_root_two _ Hs). reflexivity.
Qed.

(** Stripping slashes leaves a path component as it is. *)
Lemma rstrip_with_id (p : ascii -> bool) (s : string) :
  (forall c, In c (chars s) -> p c = false) -> rstrip_with p s = s.
Proof.
  induction s as [|c s IH]; intros H; simpl; [reflexivity|].
  rewrite IH by (intros d Hd; apply H; now right).
  destruct s; [|reflexivity]. rewrite (H c) by now left. reflexivity.
Qed.

Lemma lstrip_with_id (p : ascii -> bool) (s : string) :
  (forall c, In c (chars s) -> p c = false) -> lstrip_with p s = s.
Proof.
  destruct s as [|c s]; intros H; simpl; [reflexivity|].
  rewrite (H c) by now left. reflexivity.
Qed.

Lemma strip_slash_name (s : string) : wf_name s -> strip_slash s = s.
Proof.
  intros [_ Hl]. unfold strip_slash, strip_with.
  assert (forall c, In c (chars s) -> is_char "/" c = false) as H.
  { intros c Hc. unfold is_char. destruct (Ascii.eqb_spec c "/") as [->|]; [|reflexivity].
    now destruct Hl. }
  now rewrite (rstrip_with_id _ _ H), (lstrip_with_id _ _ H).
Qed.

End PathlibFacts.

(* ===================================================================== *)
(** * Facts about path synthesis *)
(* ===================================================================== *)

Module MediaFacts.
Import PyStr PyStrFacts Pathlib PathlibFacts Action Categories CategoriesFacts Media.

(** ** Texts that cannot restart a path *)

Lemma join_relative l :
  Forall (fun s => s <> EmptyString /\ relative s) l -> relative (join "/" l).
Proof.
  intros H. destruct H as [|x l [Hne Hx] _]; [reflexivity|].
  destruct x as [|c x]; [congruence|].
  unfold join. destruct l; simpl in *; exact Hx.
Qed.

Lemma fold_joinpath_relative more p :
  Forall relative more ->
  root (fold_left joinpath more p) = root p /\
  exists rest, names (fold_left joinpath more p) = names p ++ rest.
Proof.
  intros H. revert p. induction H as [|s more Hs _ IH]; intros p; simpl.
  - split; [reflexivity|]. exists []. rewrite List.app_nil_r. reflexivity.
  - destruct (IH (joinpath p s)) as [Hr [rest Hn]].
    rewrite Hr, Hn, (joinpath_relative _ _ Hs). simpl. split; [reflexivity|].
    exists (parse_names s ++ rest). rewrite List.app_assoc. reflexivity.
Qed.

Lemma Path_of_parts_relative parts : Forall relative parts -> root (Path_of_parts parts) = "".
Proof.
  intros H. destruct H as [|x l Hx Hl]; [reflexivity|].
  unfold Path_of_parts, Path_of.
  destruct (fold_joinpath_relative l (Path x) Hl) as [-> _].
  apply parse_root_relative, Hx.
Qed.

Lemma Path_of_parts_wf parts : wf_path (Path_of_parts parts).
Proof. destruct parts; [apply Path_wf | apply Path_of_wf]. Qed.

(** ** The entries and the split *)

Lemma collect_entries_relative parts accum :
  Forall relative (map value (collect_entries parts accum)).
Proof.
  revert accum. induction parts as [|part rest IH]; intros accum; simpl; [constructor|].
  destruct (negb (nonempty (strip_slash part)) || endswith ":" (strip_slash part)); [apply IH|].
  simpl. constructor; [apply strip_slash_relative | apply IH].
Qed.

Lemma label_entries_value entries folder_actions :
  map value (_label_entries entries folder_actions) = map value entries.
Proof.
  unfold _label_entries. rewrite List.map_map. apply List.map_ext.
  intros e. unfold label_entry. destruct (folder_actions !! abs_path e); reflexivity.
Qed.

Lemma split_keep_except_values entries flag (P : string -> Prop) :
  Forall P (map value entries) ->
  Forall P (split_keep_except entries flag).1 /\ Forall P (split_keep_except entries flag).2.
Proof.
  revert flag. induction entries as [|e rest IH]; intros flag H; simpl; [split; constructor|].
  inversion H as [|x l He Hrest]; subst.
  destruct (is_explicit_disaggregate e).
  - destruct (IH true Hrest) as [Hk Hd].
    destruct (split_keep_except rest true) as [k d]. simpl in *. split; [exact Hk | constructor; assumption].
  - destruct flag.
    + destruct (IH true Hrest) as [Hk Hd].
      destruct (split_keep_except rest true) as [k d]. simpl in *. split; [exact Hk | constructor; assumption].
    + destruct (IH false Hrest) as [Hk Hd].
      destruct (split_keep_except rest false) as [k d]. simpl in *. split; [constructor; assumption | exact Hd].
Qed.

Lemma Forall_drop_map (P : string -> Prop) n (entries : list _DirEntry) :
  Forall P (map value entries) -> Forall P (map value (drop n entries)).
Proof. rewrite !List.Forall_map. apply Forall_drop. Qed.

(** The kept parts are values of entries. *)
Lemma split_parts_kept entries strip_end (P : string -> Prop) :
  Forall P (map value entries) -> Forall P (split_parts entries strip_end).1.2.
Proof.
  intros H. unfold split_parts.
  destruct (_find_first_keep_index (drop strip_end entries)) as [rel|]; [|constructor].
  pose proof (Forall_drop_map P (strip_end + rel) entries H) as Hfrom.
  destruct (drop (strip_end + rel) entries) as [|keep_entry rest] eqn:E; [constructor|].
  destruct (bool_decide (folder_action keep_entry = Some KEEP_EXCEPT)).
  - pose proof (split_keep_except_values (keep_entry :: rest) false P Hfrom) as [Hk _].
    destruct (split_keep_except (keep_entry :: rest) false) as [k d]. exact Hk.
  - exact Hfrom.
Qed.

(** ** Rendered segments *)

Lemma in_smap f s c : In c (chars (smap f s)) -> exists d, c = f d.
Proof.
  induction s as [|a s IH]; simpl; [tauto|]. intros [<-|H]; [eauto | auto].
Qed.

Lemma sanitize_lacks v : lacks "/" (_sanitize_component v).
Proof.
  unfold _sanitize_component. cbv zeta.
  destruct (negb (nonempty (strip v))); [intros []|].
  intros H. unfold strip in H at 1. apply in_strip_with in H.
  apply in_smap in H as [d Hd].
  destruct (Ascii.eqb d "/") eqn:E; [discriminate|].
  destruct (is_reserved d); [discriminate|].
  simpl in Hd. subst d. discriminate.
Qed.

Lemma sanitized_relative parts :
  Forall (fun s => s <> EmptyString /\ relative s) (sanitized true parts).
Proof.
  unfold sanitized. apply List.Forall_forall. intros x Hx.
  apply List.filter_In in Hx as [Hx Hne]. apply List.in_map_iff in Hx as [p [<- _]].
  split; [apply nonempty_true, Hne | apply lacks_relative, sanitize_lacks].
Qed.

Lemma render_parts_relative context has_ref filename template_parts used :
  Forall (fun s => s <> EmptyString /\ relative s)
    (render_parts context has_ref filename true template_parts used).1.1.
Proof.
  revert used. induction template_parts as [|raw rest IH]; intros used; simpl; [constructor|].
  destruct (substitute context raw None used) as [replaced used1].
  specialize (IH used1).
  destruct (render_parts context has_ref filename true rest used1) as [[more rendered] used2].
  simpl in *. apply List.Forall_app. split; [apply sanitized_relative | exact IH].
Qed.

(** What [render_template] joins: the category segments first, then
    segments none of which is empty or begins with a slash. *)
Lemma render_segments_shape template metadata cp kept_path filename :
  exists more,
    render_segments template metadata (Some cp) kept_path filename true = _parts cp ++ more /\
    Forall (fun s => s <> EmptyString /\ relative s) more.
Proof.
  unfold render_segments. cbv zeta.
  pose proof (render_parts_relative metadata
    (existsb (fun ref => contains ref (lower template)) ["{filename}"; "{file_stem}"; "{title"])
    filename (split_on "/" (strip_slash template)) []) as Hr.
  destruct (render_parts _ _ _ _ _ _) as [[rendered_segments filename_rendered] used_values].
  simpl in Hr. eexists. split; [reflexivity|].
  apply List.Forall_app. split; [exact Hr|]. apply List.Forall_app. split.
  - destruct kept_path as [kept|]; [|constructor].
    destruct (nonempty kept && negb filename_rendered); [apply sanitized_relative | constructor].
  - destruct filename as [fn|]; [|constructor].
    destruct (negb filename_rendered && nonempty fn); [apply sanitized_relative | constructor].
Qed.

Lemma wf_name_relative s : wf_name s -> s <> EmptyString /\ relative s.
Proof.
  intros [Hk Hl]. split; [|apply lacks_relative, Hl].
  intros ->. discriminate.
Qed.

(** Joining a rendered template to the target: the target, then the category
    segments, then the rest. *)
Lemma joinpath_rendered target template metadata cp kept_path filename :
  Forall wf_name (_parts cp) ->
  let d := joinpath target (render_template template metadata (Some cp) kept_path filename true) in
  root d = root target /\ exists rest, names d = names target ++ _parts cp ++ rest.
Proof.
  intros Hcat. unfold render_template.
  destruct (render_segments_shape template metadata cp kept_path filename) as (more & -> & Hmore).
  cbv zeta. rewrite joinpath_relative.
  - simpl. split; [reflexivity|].
    rewrite (parse_names_join_app _ _ Hcat). eauto.
  - apply join_relative, List.Forall_app. split; [|exact Hmore].
    eapply List.Forall_impl; [|exact Hcat]. apply wf_name_relative.
Qed.

Lemma name_relative p : wf_path p -> relative (Pathlib.name p).
Proof.
  intros [_ Hn]. unfold Pathlib.name.
  destruct (names p) as [|x l] eqn:E; [reflexivity|].
  assert (Hin : In (List.last (x :: l) "") (x :: l)).
  { destruct (List.exists_last (l := x :: l)) as (l' & a & ->); [discriminate|].
    rewrite List.last_last. apply List.in_app_iff. right. left. reflexivity. }
  rewrite List.Forall_forall in Hn. apply wf_name_relative, Hn, Hin.
Qed.

(** A segment of a clean category path that is not a lone dot is a path
    component as it stands. *)
Lemma clean_segment_wf_name s : clean_segment s -> s <> "." -> wf_name s.
Proof.
  intros [Hne Hc] Hdot. split.
  - unfold keep_name. apply andb_true_intro. split; [apply nonempty_true, Hne|].
    apply negb_true_iff. destruct (String.eqb_spec s "."); [contradiction | reflexivity].
  - intros H. apply Hc in H as [_ H]. congruence.
Qed.

(** The four branches that build the destination, each on its own. *)
Lemma destination_branches target cp template metadata kept_parts name (b1 b2 b3 : bool) :
  Forall wf_name (_parts cp) -> relative name -> Forall relative kept_parts ->
  let base := Path_of target (_parts cp) in
  let d :=
    if b1 then
      joinpath (Path target)
        (render_template template metadata (Some cp) (Some (join "/" kept_parts)) (Some name) true)
    else if b2 then joinpath (truediv base (Path_of_parts kept_parts)) name
    else if b3 then
      joinpath (Path target) (render_template template metadata (Some cp) None (Some name) true)
    else joinpath base name in
  wf_path d /\ root d = root (Path target) /\
  exists rest, names d = names (Path target) ++ _parts cp ++ rest.
Proof.
  intros Hcat Hname Hkept base d.
  assert (Hbase : base = {| root := root (Path target); names := names (Path target) ++ _parts cp |}).
  { apply Path_of_names, Hcat. }
  assert (Hwf : wf_path d).
  { unfold d. destruct b1; [apply joinpath_wf, Path_wf|].
    destruct b2; [apply joinpath_wf, truediv_wf; [apply Path_of_wf | apply Path_of_parts_wf]|].
    destruct b3; [apply joinpath_wf, Path_wf | apply joinpath_wf, Path_of_wf]. }
  split; [exact Hwf|]. unfold d. clear Hwf d.
  destruct b1; [apply joinpath_rendered, Hcat|].
  destruct b2.
  { rewrite (joinpath_relative _ _ Hname). unfold truediv.
    rewrite (Path_of_parts_relative _ Hkept), Hbase. simpl. split; [reflexivity|].
    rewrite <- !List.app_assoc. eauto. }
  destruct b3; [apply joinpath_rendered, Hcat|].
  rewrite (joinpath_relative _ _ Hname), Hbase. simpl. split; [reflexivity|].
  rewrite <- !List.app_assoc. eauto.
Qed.

(** C1, as amended.  For a file whose category path is clean (segments
    non-empty, printable, free of slashes) and has no segment that is a lone
    dot, the destination path has the root of the target and its components
    begin with those of the target followed by the category segments in
    order, whichever of the four branches builds it. *)
Theorem destination_begins_with_target_and_category
    (cfg : AppConfig) (path : string) (c : CategoryPath) (mime : string)
    (metadata : gmap string MetaValue) (folder_actions : gmap string FolderAction) :
  Forall clean_segment (_parts c) ->
  ~ In "." (_parts c) ->
  let cp :=
    build_destination cfg
      {| physical_path := Path path; category := c; mime := mime;
         metadata := metadata; folder_actions := folder_actions |} in
  root (destination_path cp) = root (Path (MAIN_TARGET cfg)) /\
  exists rest,
    names (destination_path cp) = names (Path (MAIN_TARGET cfg)) ++ _parts c ++ rest.
Proof.
  intros Hclean Hdot.
  assert (Hcat : Forall wf_name (_parts c)).
  { rewrite List.Forall_forall in *. intros s Hs.
    apply clean_segment_wf_name; [apply Hclean, Hs | intros ->; contradiction]. }
  unfold build_destination. cbv zeta. cbn [physical_path category Media.metadata Media.folder_actions Media.mime].
  match goal with
  | |- context [split_parts ?es ?n] => set (entries := es); set (strip_end := n)
  end.
  assert (Hkept : Forall relative (split_parts entries strip_end).1.2).
  { apply split_parts_kept. unfold entries, labelled_entries. rewrite label_entries_value.
    apply collect_entries_relative. }
  destruct (split_parts entries strip_end) as [[disagg_parts kept_parts] explicit_keep].
  simpl in Hkept. cbn [destination_path].
  match goal with
  | |- context [Path (as_posix (if ?b1 then _ else if ?b2 then _ else if ?b3 then _ else _))] =>
      pose proof (destination_branches (MAIN_TARGET cfg) c
                    (default EmptyString (template_for (categories cfg) c)) metadata
                    kept_parts (Pathlib.name (Path path)) b1 b2 b3 Hcat
                    (name_relative _ (Path_wf path)) Hkept) as H
  end.
  cbv zeta in H. destruct H as (Hwf & Hroot & Hnames).
  rewrite (Path_as_posix _ Hwf). split; assumption.
Qed.

(** A tagged track under a category with a template of its own. *)
Lemma destination_begins_with_target_and_category_witness :
  let c := CategoryPath_init [VText "Media/Music"] in
  let cp :=
    build_destination music_cfg
      {| physical_path := Path "/library/Music/Tagged Artist/Tagged Album/track.flac";
         category := c; mime := "audio/flac"; metadata := music_tags; folder_actions := ∅ |} in
  Forall clean_segment (_parts c) /\
  ~ In "." (_parts c) /\
  destination cp = "/target/Media/Music/Tagged Artist/Tagged Album/Tagged Title.flac" /\
  root (destination_path cp) = "/" /\
  exists rest, names (destination_path cp) = ["target"] ++ ["Media"; "Music"] ++ rest.
Proof.
  intros c cp.
  assert (Hclean : Forall clean_segment (_parts c)).
  { apply init_clean. repeat constructor. }
  assert (Hdot : ~ In "." (_parts c)).
  { intros [H|[H|[]]]; discriminate. }
  split; [exact Hclean|]. split; [exact Hdot|]. split; [vm_compute; reflexivity|].
  exact (destination_begins_with_target_and_category music_cfg
           "/library/Music/Tagged Artist/Tagged Album/track.flac" c "audio/flac"
           music_tags ∅ Hclean Hdot).
Defined.

(** C1, as stated, fails for a category with a segment that is a lone dot:
    [pathlib] folds the segment away, and the destination lacks it. *)
Lemma destination_dot_segment_counterexample :
  let c := CategoryPath_init [VText "."] in
  let cp :=
    build_destination plain_cfg
      {| physical_path := Path "/sources/a.txt"; category := c; mime := "text/plain";
         metadata := ∅; folder_actions := ∅ |} in
  _parts c = ["."] /\
  destination cp = "/target/a.txt" /\
  ~ (exists rest,
       names (destination_path cp) = names (Path (MAIN_TARGET plain_cfg)) ++ _parts c ++ rest).
Proof.
  intros c cp. split; [reflexivity|]. split; [vm_compute; reflexivity|].
  intros [rest H]. vm_compute in H. discriminate.
Qed.

(** ** The keep pivot and [KEEP_EXCEPT] *)

Lemma find_first_keep before pivot tail :
  Forall (fun e => is_keep e = false) before -> is_keep pivot = true ->
  _find_first_keep_index (before ++ pivot :: tail) = Some (length before).
Proof.
  intros Hb Hp. induction Hb as [|e before He _ IH]; simpl.
  - rewrite Hp. reflexivity.
  - rewrite He, IH. reflexivity.
Qed.






(** ** The kept segments in the destination *)










End MediaFacts.

(* ===================================================================== *)
(** * Facts about the merge of folder actions *)
(* ===================================================================== *)

Module PlannerFacts.
Import PyStr Pathlib Action Categories Media Planner.

(** What the merged map holds for a folder: the action derived in this
    batch when there is one, the persisted one otherwise. *)
Lemma merged_lookup persisted_actions new_folder_action_map folder :
  merged_action_map persisted_actions new_folder_action_map !! folder =
  match new_folder_action_map !! folder with
  | Some a => Some a
  | None => persisted_actions !! folder ≫= from_string
  end.
Proof.
  unfold merged_action_map, dict_update. rewrite lookup_union, lookup_omap.
  destruct (new_folder_action_map !! folder); simpl.
  - destruct (persisted_actions !! folder ≫= from_string); reflexivity.
  - destruct (persisted_actions !! folder ≫= from_string); reflexivity.
Qed.

(** C4.  A folder persisted as [disaggregate] and derived again as [KEEP] in
    the current batch: the merged map, and with it the node builder and the
    destination, follow the new derivation, where the claim (and the comment
    above the merge) has the persisted decision take precedence. *)
Theorem merge_prefers_rederived_action :
  persisted_sample !! "/sources/Albums" = Some "disaggregate" /\
  rederived_sample !! "/sources/Albums" = Some KEEP /\
  merged_action_map persisted_sample rederived_sample !! "/sources/Albums" = Some KEEP /\
  destination
    (plan_file plain_cfg persisted_sample rederived_sample "/sources/Albums/Live/track.flac"
       (CategoryPath_init [VText "Media/Music"]) "audio/flac" ∅)
  = "/target/Media/Music/Albums/Live/track.flac" /\
  destination
    (plan_file plain_cfg persisted_sample ∅ "/sources/Albums/Live/track.flac"
       (CategoryPath_init [VText "Media/Music"]) "audio/flac" ∅)
  = "/target/Media/Music/Live/track.flac".
Proof. repeat split; vm_compute; reflexivity. Qed.

End PlannerFacts.

(* ===================================================================== *)
(** * Facts about the selection of unclassified files *)
(* ===================================================================== *)

Module DbFacts.
Import PyStr PyStrFacts Sorting SortingFacts Db.

Lemma like_percent pattern text :
  like (String "%" pattern) text =
  like pattern text ||
  match text with
  | EmptyString => false
  | String _ t => like (String "%" pattern) t
  end.
Proof. destruct text; reflexivity. Qed.

Lemma like_percent_any text : like "%" text = true.
Proof.
  induction text as [|c t IH]; [reflexivity|].
  rewrite like_percent, IH. apply orb_true_r.
Qed.

(** A pattern followed by a percent sign matches every text that begins with
    the pattern itself, wildcards in it or not. *)
Lemma like_own_prefix p t : like (p +:+ "%") (p +:+ t) = true.
Proof.
  induction p as [|c p IH]; [apply like_percent_any|].
  change (String c p +:+ "%") with (String c (p +:+ "%")).
  change (String c p +:+ t) with (String c (p +:+ t)).
  destruct (Ascii.eqb c "%") eqn:E.
  - apply Ascii.eqb_eq in E. subst c.
    rewrite like_percent. apply orb_true_iff. right.
    rewrite like_percent, IH. reflexivity.
  - cbn [like]. rewrite E, Ascii.eqb_refl, orb_true_r, IH. reflexivity.
Qed.

Lemma startswith_app p s : startswith p s = true -> exists t, s = p +:+ t.
Proof.
  revert s. induction p as [|c p IH]; intros s H; [exists s; reflexivity|].
  destruct s as [|d s]; [discriminate|]. cbn [startswith] in H.
  apply andb_true_iff in H as [Hc Hp]. apply Ascii.eqb_eq in Hc. subst d.
  destruct (IH s Hp) as [t ->]. exists t. reflexivity.
Qed.

(** A descendant of a kept folder is under the [NOT EXISTS] clause. *)
Lemma descendant_under_keep db fa f :
  In fa (folder_actions db) -> action fa = "keep" ->
  descendant_of (folder_path fa) (path f) = true ->
  under_keep db f = true.
Proof.
  intros Hin Hkeep Hdesc. unfold under_keep. apply List.existsb_exists.
  exists fa. split; [exact Hin|]. rewrite Hkeep. simpl.
  apply orb_true_iff. left.
  apply startswith_app in Hdesc as [t ->].
  change (folder_path fa +:+ "/%") with (folder_path fa +:+ ("/" +:+ "%")).
  rewrite <- !append_assoc. apply like_own_prefix.
Qed.

Lemma limited_subset {A : Type} limit (rows : list A) x : In x (limited limit rows) -> In x rows.
Proof.
  unfold limited. destruct limit as [n|]; [|auto].
  destruct (n <? 0)%Z; [auto|]. intros H.
  rewrite <- (List.firstn_skipn (Z.to_nat n) rows). apply List.in_or_app. left. exact H.
Qed.

(** The spec sentence behind C6 that does hold: whatever the limit, no row
    that comes back is a descendant of a folder recorded as [keep], and each
    is unclassified, hashed and scanned. *)
Lemma execute_sound db limit row :
  In row (execute db limit) ->
  exists f, In f (files db) /\ row = (path f, mime f, size f) /\
    category f = None /\ hash f <> None /\ status f = Some "scanned" /\
    forall fa, In fa (folder_actions db) -> action fa = "keep" ->
      descendant_of (folder_path fa) (path f) = false.
Proof.
  unfold execute. rewrite List.in_map_iff. intros (f & <- & Hf).
  apply limited_subset in Hf.
  apply (Permutation_in _ (sort_by_perm order_le _)) in Hf.
  apply List.filter_In in Hf as [Hin Hsel]. exists f.
  unfold selected in Hsel. rewrite !andb_true_iff, !bool_decide_eq_true, negb_true_iff in Hsel.
  destruct Hsel as [[[Hc Hh] Hs] Hk].
  repeat (split; [assumption || reflexivity|]).
  intros fa Hfa Hkeep. destruct (descendant_of (folder_path fa) (path f)) eqn:E; [|reflexivity].
  rewrite (descendant_under_keep db fa f Hfa Hkeep E) in Hk. discriminate.
Qed.

(** With a limit that is not negative, the first rows of the full answer. *)
Lemma execute_limit db n :
  (0 <= n)%Z ->
  execute db (Some n) = take (Z.to_nat n) (execute db None).
Proof.
  intros Hn. unfold execute, limited.
  destruct (Z.ltb_spec n 0); [lia|]. symmetry. apply List.firstn_map.
Qed.

Lemma leb_total x y : leb x y = true \/ leb y x = true.
Proof.
  revert y. induction x as [|c x IH]; intros [|d y]; simpl; auto.
  destruct (N.ltb_spec (ord c) (ord d)); [auto|].
  destruct (N.ltb_spec (ord d) (ord c)); [auto|]. apply IH.
Qed.

Lemma leb_trans x y z : leb x y = true -> leb y z = true -> leb x z = true.
Proof.
  revert y z. induction x as [|c x IH]; intros [|d y] [|e z]; simpl; try congruence.
  destruct (N.ltb_spec (ord c) (ord d)), (N.ltb_spec (ord d) (ord e)),
    (N.ltb_spec (ord c) (ord e)); try lia; try congruence;
    destruct (N.ltb_spec (ord d) (ord c)), (N.ltb_spec (ord e) (ord d)),
      (N.ltb_spec (ord e) (ord c)); try lia; try congruence.
  apply IH.
Qed.

Lemma order_le_total a b : order_le a b = true \/ order_le b a = true.
Proof.
  unfold order_le. cbv zeta.
  destruct (Nat.lt_trichotomy (count "/" (path a)) (count "/" (path b))) as [H|[H|H]].
  - left. apply orb_true_iff. left. apply Nat.ltb_lt, H.
  - rewrite H, Nat.eqb_refl, Nat.ltb_irrefl. simpl. apply leb_total.
  - right. apply orb_true_iff. left. apply Nat.ltb_lt, H.
Qed.

Lemma order_le_trans a b c :
  order_le a b = true -> order_le b c = true -> order_le a c = true.
Proof.
  unfold order_le. cbv zeta.
  rewrite !orb_true_iff, !andb_true_iff, !Nat.ltb_lt, !Nat.eqb_eq.
  intros [H1|[H1 L1]] [H2|[H2 L2]]; try (left; lia).
  right. split; [lia | eapply leb_trans; eassumption].
Qed.

(** The answer is in the order of the [ORDER BY]: by the number of slashes,
    then by path. *)
Lemma execute_sorted db :
  exists rows,
    execute db None = map (fun f => (path f, mime f, size f)) rows /\
    StronglySorted (fun a b => order_le a b = true) rows.
Proof.
  eexists. split; [reflexivity|]. simpl.
  apply sort_by_sorted; [apply order_le_total | apply order_le_trans].
Qed.

(** The rows that come back are rows of the table that pass the [WHERE]
    clause, and every such row comes back when there is no limit. *)
Lemma execute_rows db row :
  In row (execute db None) <->
  exists f, In f (files db) /\ selected db f = true /\ row = (path f, mime f, size f).
Proof.
  unfold execute, limited. rewrite List.in_map_iff. split.
  - intros (f & <- & Hf).
    apply (Permutation_in _ (sort_by_perm order_le _)) in Hf.
    apply List.filter_In in Hf as [Hin Hsel]. eauto.
  - intros (f & Hin & Hsel & ->). exists f. split; [reflexivity|].
    apply (Permutation_in _ (Permutation_sym (sort_by_perm order_le _))).
    apply List.filter_In. auto.
Qed.

(** A call that returns has bound a limit SQLite can store, and returns
    the rows of the query. *)
Lemma select_unclassified_returns db limit rows :
  select_unclassified db limit = inr rows ->
  rows = execute db limit /\
  match limit with Some n => (- 2 ^ 63 <= n < 2 ^ 63)%Z | None => True end.
Proof.
  unfold select_unclassified. destruct limit as [n|].
  - destruct (fits_int64 n) eqn:E; [|discriminate]. intros [= <-].
    split; [reflexivity|]. unfold fits_int64 in E. lia.
  - intros [= <-]. split; [reflexivity | exact I].
Qed.

(** C6.  With [/data/my_app] recorded as [keep], the files
    [/data/my-app/notes.txt] and [/data/My_App/b.txt] are unclassified,
    hashed and scanned and are no descendants of that folder, yet the query
    leaves them out: the underscore of the folder path is a wildcard of
    [LIKE], which also ignores case. *)
Theorem select_unclassified_like_wildcard :
  selected {| files := files sample_db; folder_actions := [] |}
    (scanned "/data/my-app/notes.txt") = true /\
  descendant_of "/data/my_app" "/data/my-app/notes.txt" = false /\
  descendant_of "/data/my_app" "/data/My_App/b.txt" = false /\
  select_unclassified sample_db None = inr [("/data/other/c.txt", Some "text/plain", 10%Z)].
Proof. repeat split; vm_compute; reflexivity. Qed.

End DbFacts.

(* ===================================================================== *)
(** * Facts about the multiplexer *)
(* ===================================================================== *)

Module MuxFacts.
Import Action Categories Mux.

#[local] Open Scope Q_scope.

Lemma qlt_false (a b : Q) : qlt a b = false -> b <= a.
Proof.
  unfold qlt. intros H. apply negb_false_iff in H. now apply Qle_bool_iff.
Qed.

Lemma qlt_true (a b : Q) : a < b -> qlt a b = true.
Proof.
  unfold qlt. intros H. apply negb_true_iff.
  destruct (Qle_bool b a) eqn:E; [|reflexivity].
  apply Qle_bool_iff in E. exfalso. exact (Qlt_not_le _ _ H E).
Qed.

Section Workers.

Context {World : Type}.

#[local] Abbreviation Worker := (@Mux.Worker World).
#[local] Abbreviation Multiplexer := (@Mux.Multiplexer World).

(** The worker [w'] is the worker [w] up to its [current_weight]. *)
#[local] Abbreviation reweighted :=
  (fun w w' : Worker => w' = set_current_weight (current_weight w') w).

Lemma reweighted_refl (w : Worker) : reweighted w w.
Proof. now destruct w. Qed.

Lemma reweighted_set (q : Q) (w w' : Worker) :
  reweighted w w' -> reweighted w (set_current_weight q w').
Proof. intros ->. reflexivity. Qed.

Lemma reweighted_alter (f : Worker -> Q) (i : nat) (ws ws' : list Worker) :
  Forall2 reweighted ws ws' ->
  Forall2 reweighted ws (alter (fun w => set_current_weight (f w) w) i ws').
Proof.
  intros H. apply Forall2_alter_r; [exact H|].
  intros x y _ _ Hxy. now apply reweighted_set.
Qed.

(** A worker that is not skipped by the cooldown test, at a time that is
    not before the epoch, has no cooldown ahead of it. *)
Lemma cooling_false (now : Q) (w : Worker) :
  0 <= now -> cooling now w = false -> cooldown_until w <= now.
Proof.
  unfold cooling. intros Hnow H. apply andb_false_iff in H as [H|H].
  - apply negb_false_iff, Qeq_bool_iff in H. now rewrite H.
  - now apply qlt_false.
Qed.

Lemma cooling_true (now : Q) (w : Worker) :
  0 <= now -> now < cooldown_until w -> cooling now w = true.
Proof.
  unfold cooling. intros Hnow H. apply andb_true_iff. split.
  - apply negb_true_iff. destruct (Qeq_bool (cooldown_until w) 0) eqn:E; [|reflexivity].
    apply Qeq_bool_iff in E. rewrite E in H. exfalso. exact (Qlt_not_le _ _ H Hnow).
  - now apply qlt_true.
Qed.

Lemma positions_spec (p : Worker -> bool) (ws : list Worker) (k i : nat) :
  In i (positions p ws k) ->
  (k <= i)%nat /\ exists w, ws !! (i - k)%nat = Some w /\ p w = true.
Proof.
  revert k. induction ws as [|w ws IH]; intros k; simpl; [tauto|].
  intros H.
  assert (In i (positions p ws (S k)) ->
          (k <= i)%nat /\ exists w0, (w :: ws) !! (i - k)%nat = Some w0 /\ p w0 = true) as Htail.
  { intros Hin. destruct (IH _ Hin) as (Hle & w0 & Hw0 & Hp). split; [lia|].
    exists w0. split; [|exact Hp].
    replace (i - k)%nat with (S (i - S k)) by lia. exact Hw0. }
  destruct (p w) eqn:Hp; [|now apply Htail].
  destruct H as [<-|H]; [|now apply Htail].
  split; [lia|]. exists w. now rewrite Nat.sub_diag.
Qed.

Lemma positions_nil (p : Worker -> bool) (ws : list Worker) (k : nat) :
  Forall (fun w => p w = false) ws -> positions p ws k = [].
Proof.
  intros H. revert k. induction H as [|w ws Hw _ IH]; intros k; simpl; [reflexivity|].
  now rewrite Hw.
Qed.

Lemma positions_found (p : Worker -> bool) (ws : list Worker) (k : nat) :
  positions p ws k = [] -> Forall (fun w => p w = false) ws.
Proof.
  revert k. induction ws as [|w ws IH]; intros k; simpl; [constructor|].
  destruct (p w) eqn:Hp; [discriminate|]. intros H. constructor; [exact Hp|now apply (IH (S k))].
Qed.

(** Every position [_available_workers] returns is that of a worker that
    passed the cooldown test. *)
Lemma available_not_cooling (m : Multiplexer) (now : Q) (available : list nat) (i : nat) :
  _available_workers m now = inr available -> In i available ->
  exists w, workers m !! i = Some w /\ cooling now w = false.
Proof.
  unfold _available_workers. intros H Hin.
  assert (forall q : Worker -> bool, In i (positions (fun w => negb (cooling now w) && q w) (workers m) 0) ->
          exists w, workers m !! i = Some w /\ cooling now w = false) as Hpos.
  { intros q Hq. apply positions_spec in Hq as (_ & w & Hw & Hp).
    rewrite Nat.sub_0_r in Hw. exists w. split; [exact Hw|].
    apply andb_true_iff in Hp as [Hp _]. now apply negb_true_iff in Hp. }
  destruct (positions (fun w => negb (cooling now w) && is_primary w) (workers m) 0) eqn:Ep.
  - destruct (positions (fun w => negb (cooling now w) && negb (is_primary w)) (workers m) 0) eqn:Ef;
      [discriminate|].
    injection H as <-. apply (Hpos (fun w => negb (is_primary w))). now rewrite Ef.
  - injection H as <-. apply (Hpos is_primary). now rewrite Ep.
Qed.

Lemma available_nonempty (m : Multiplexer) (now : Q) (available : list nat) :
  _available_workers m now = inr available -> available <> [].
Proof.
  unfold _available_workers.
  destruct (positions (fun w => negb (cooling now w) && is_primary w) (workers m) 0) eqn:Ep.
  - destruct (positions (fun w => negb (cooling now w) && negb (is_primary w)) (workers m) 0) eqn:Ef;
      [discriminate|].
    intros [= <-]. discriminate.
  - intros [= <-]. discriminate.
Qed.

(** With every worker cooling down both lists stay empty. *)
Lemma available_all_cooling (m : Multiplexer) (now : Q) :
  Forall (fun w => cooling now w = true) (workers m) ->
  _available_workers m now = inl "No workers available with acceptable success rate".
Proof.
  intros H. unfold _available_workers.
  rewrite !positions_nil; [reflexivity| |].
  - eapply Forall_impl; [exact H|]. intros w Hw. simpl in Hw. now rewrite Hw.
  - eapply Forall_impl; [exact H|]. intros w Hw. simpl in Hw. now rewrite Hw.
Qed.

(** Conversely the error is raised only then. *)
Lemma available_error (m : Multiplexer) (now : Q) (e : string) :
  _available_workers m now = inl e ->
  Forall (fun w => cooling now w = true) (workers m).
Proof.
  unfold _available_workers.
  destruct (positions (fun w => negb (cooling now w) && is_primary w) (workers m) 0) eqn:Ep;
    [|discriminate].
  destruct (positions (fun w => negb (cooling now w) && negb (is_primary w)) (workers m) 0) eqn:Ef;
    [|discriminate].
  intros _. apply positions_found in Ep, Ef.
  rewrite Forall_forall in Ep, Ef. apply Forall_forall. intros w Hw.
  specialize (Ep w Hw). specialize (Ef w Hw). simpl in Ep, Ef.
  destruct (cooling now w); [reflexivity|]. simpl in Ep, Ef. rewrite Ep in Ef. discriminate.
Qed.

(** The weighted loop chooses among the positions it is run on, and touches
    nothing but weights. *)
Lemma weigh_fold (m : Multiplexer) (ws0 : list Worker) (l : list nat)
    (ws : list Worker) (t : Q) (c : option nat) :
  Forall2 reweighted ws0 ws ->
  let '(ws', _, c') := fold_left (weigh m) l (ws, t, c) in
  Forall2 reweighted ws0 ws' /\
  (c' = c \/ exists x, c' = Some x /\ In x l).
Proof.
  revert ws t c. induction l as [|i l IH]; intros ws t c Hws; simpl.
  - split; [exact Hws|now left].
  - destruct (ws !! i) as [w|] eqn:Ew.
    + match goal with |- context [fold_left _ l (?a, ?b, ?d)] =>
        specialize (IH a b d) end.
      destruct (fold_left (weigh m) l _) as [[ws' t'] c'].
      destruct IH as [IH1 IH2].
      { apply (reweighted_alter (fun _ => current_weight w + _worker_weight m w)), Hws. }
      split; [exact IH1|].
      destruct IH2 as [->|(x & -> & Hx)]; [|right; eauto].
      destruct c as [c0|]; [|right; eauto].
      destruct (qlt _ _); [right; eauto|now left].
    + specialize (IH ws t c Hws).
      destruct (fold_left (weigh m) l (ws, t, c)) as [[ws' t'] c'].
      destruct IH as [IH1 IH2]. split; [exact IH1|].
      destruct IH2 as [->|(x & -> & Hx)]; [now left|right; eauto].
Qed.

(** The weighted loop chooses a worker when it is run on at least one
    position, all positions being those of workers. *)
Lemma weigh_fold_chooses (m : Multiplexer) (l : list nat) (ws : list Worker) (t : Q)
    (c : option nat) :
  (forall i, In i l -> is_Some (ws !! i)) -> l <> [] \/ is_Some c ->
  let '(_, _, c') := fold_left (weigh m) l (ws, t, c) in is_Some c'.
Proof.
  revert ws t c. induction l as [|i l IH]; intros ws t c Hl Hc; simpl.
  - destruct Hc as [Hc|Hc]; [congruence|exact Hc].
  - destruct (Hl i (or_introl eq_refl)) as [w Ew]. rewrite Ew.
    apply IH.
    + intros j Hj. apply lookup_lt_is_Some. rewrite length_alter.
      apply lookup_lt_is_Some, Hl. now right.
    + right. destruct c as [c0|]; [destruct (qlt _ _)|]; eauto.
Qed.

Lemma reweighted_all (ws : list Worker) : Forall2 reweighted ws ws.
Proof. induction ws; constructor; [apply reweighted_refl|assumption]. Qed.

(** [_select_worker] returns the position of a worker that passed the
    cooldown test, and changes weights only. *)
Lemma select_worker_spec (m : Multiplexer) (now : Q) (i : nat) (m' : Multiplexer) :
  _select_worker m now = inr (i, m') ->
  (exists w, workers m !! i = Some w /\ cooling now w = false) /\
  Forall2 reweighted (workers m) (workers m') /\
  failure_cooldown m' = failure_cooldown m.
Proof.
  unfold _select_worker.
  destruct (_available_workers m now) as [e|available] eqn:Ea; [discriminate|].
  destruct (List.filter _ available) as [|selected rest] eqn:Ef.
  - pose proof (weigh_fold m (workers m) available (workers m) 0 None (reweighted_all _)) as Hfold.
    destruct (fold_left (weigh m) available (workers m, 0, None)) as [[ws t] c].
    destruct Hfold as [Hws Hc].
    destruct c as [c|]; [|discriminate].
    intros [= <- <-]. split; [|split].
    + destruct Hc as [Hc|(x & [= <-] & Hx)]; [discriminate|].
      now apply (available_not_cooling m now available).
    + simpl. destruct (qlt 0 t); [|exact Hws].
      now apply (reweighted_alter (fun w => current_weight w - t)).
    + reflexivity.
  - intros [= <- <-]. split; [|split].
    + apply (available_not_cooling m now available); [exact Ea|].
      assert (In selected (List.filter (fun i => from_option unused false (workers m !! i)) available))
        as Hin by (rewrite Ef; now left).
      now apply List.filter_In in Hin.
    + simpl. apply (reweighted_alter (fun _ => 0)), reweighted_all.
    + reflexivity.
Qed.

(** [_select_worker] raises only when every worker is cooling down (which
    includes the case of no worker at all). *)
Lemma select_worker_error (m : Multiplexer) (now : Q) (e : string) :
  _select_worker m now = inl e ->
  e = "No workers available with acceptable success rate" /\
  Forall (fun w => cooling now w = true) (workers m).
Proof.
  unfold _select_worker.
  destruct (_available_workers m now) as [e'|available] eqn:Ea.
  - intros [= <-]. split; [|now apply (available_error m now e')].
    revert Ea. unfold _available_workers.
    destruct (positions _ _ _); [destruct (positions _ _ _)|]; congruence.
  - destruct (List.filter _ available) as [|selected rest] eqn:Ef; [|discriminate].
    pose proof (weigh_fold_chooses m available (workers m) 0 None) as Hfold.
    destruct (fold_left (weigh m) available (workers m, 0, None)) as [[ws t] c].
    destruct c as [c|]; [discriminate|].
    exfalso. destruct Hfold as [x Hx]; [| |discriminate].
    + intros i Hi. destruct (available_not_cooling m now available i Ea Hi) as (w & -> & _). eauto.
    + left. now apply (available_nonempty m now).
Qed.

Lemma select_worker_all_cooling (m : Multiplexer) (now : Q) :
  Forall (fun w => cooling now w = true) (workers m) ->
  _select_worker m now = inl "No workers available with acceptable success rate".
Proof.
  intros H. unfold _select_worker. now rewrite available_all_cooling.
Qed.

(** [dispatch] stamps the selected worker and counts it in flight; the
    worker keeps its back end, its counters and its cooldown. *)
Lemma dispatch_spec (m : Multiplexer) (clock : Clock) (i : nat) (m1 : Multiplexer) :
  dispatch m clock = inr (i, m1) ->
  exists w w1,
    workers m !! i = Some w /\ cooling (t_select clock) w = false /\
    workers m1 !! i = Some w1 /\
    classifier w1 = classifier w /\ name w1 = name w /\ total w1 = total w /\
    window w1 = window w /\ consecutive_failures w1 = consecutive_failures w /\
    cooldown_until w1 = cooldown_until w /\ in_flight w1 = (in_flight w + 1)%Z /\
    last_used w1 = t_started clock /\ failure_cooldown m1 = failure_cooldown m.
Proof.
  unfold dispatch.
  destruct (_select_worker m (t_select clock)) as [e|[j m']] eqn:Es; [discriminate|].
  intros [= <- <-].
  apply select_worker_spec in Es as ((w & Hw & Hcool) & Hws & Hfc).
  destruct (Forall2_lookup_l _ _ _ _ _ Hws Hw) as (w' & Hw' & Hrw).
  exists w. eexists. split; [exact Hw|]. split; [exact Hcool|]. split.
  { unfold update_worker. simpl. rewrite list_lookup_alter_eq, Hw'. reflexivity. }
  rewrite Hrw. simpl. repeat split; try reflexivity. exact Hfc.
Qed.

(** The [finally] block leaves the worker its counters and its cooldown. *)
Lemma finally_lookup (m : Multiplexer) (clock : Clock) (i : nat) (w : Worker) :
  workers m !! i = Some w ->
  exists w', workers (finally m clock i) !! i = Some w' /\
    classifier w' = classifier w /\ name w' = name w /\ total w' = total w /\
    (window w' = window w \/ window w' = Metric_init) /\
    consecutive_failures w' = consecutive_failures w /\
    cooldown_until w' = cooldown_until w /\
    in_flight w' = Z.max 0 (in_flight w - 1).
Proof.
  intros Hw. unfold finally, update_worker, _maybe_dump_stats. simpl.
  destruct (_ && _); simpl; rewrite list_lookup_alter_eq.
  - rewrite Hw. simpl. eexists. split; [reflexivity|]. simpl. repeat split; auto.
  - rewrite list_lookup_fmap, Hw. simpl. eexists. split; [reflexivity|]. simpl.
    repeat split; auto.
Qed.

(** C7.  Whatever the state of the multiplexer, at a time [now] (the reading
    of the clock in [_available_workers], not before the epoch): the worker a
    [classify] or [advise_folder_action] request is dispatched to has a
    [cooldown_until] that is not after [now], and the back end called is that
    worker's; and when the [cooldown_until] of every worker is after [now],
    [_select_worker] raises, and so do both requests, without a call to any
    back end and leaving the multiplexer as it was. *)
Theorem dispatch_respects_cooldown (m : Multiplexer) (clock : Clock) :
  0 <= t_select clock ->
  (forall i m1, dispatch m clock = inr (i, m1) ->
     exists w,
       workers m !! i = Some w /\ cooldown_until w <= t_select clock /\
       (forall world request,
          classify m world request clock =
          let (outcome, world') := backend_classify (classifier w) world request in
          let (response, m2) := settle_classify m1 clock i outcome in
          (inr response, m2, world')) /\
       (forall world request,
          advise_folder_action m world request clock =
          let (outcome, world') := backend_advise (classifier w) world request in
          match outcome with
          | inr result =>
              (inr result, finally (update_worker m1 i (on_success clock)) clock i, world')
          | inl exc =>
              (inr (decision (default DISAGGREGATE (rule_hint request)) "multiplexer:error"),
               finally (update_worker m1 i (on_failure m1 clock)) clock i, world')
          end)) /\
  (Forall (fun w => t_select clock < cooldown_until w) (workers m) ->
     exists e,
       _select_worker m (t_select clock) = inl e /\
       (forall world request, classify m world request clock = (inl e, m, world)) /\
       (forall world request, advise_folder_action m world request clock = (inl e, m, world))).
Proof.
  intros Hnow. split.
  - intros i m1 Hd.
    destruct (dispatch_spec m clock i m1 Hd)
      as (w & w1 & Hw & Hcool & Hw1 & Hcl & _).
    exists w. split; [exact Hw|]. split; [now apply cooling_false|]. split.
    + intros world request. unfold classify. rewrite Hd, Hw1, Hcl. reflexivity.
    + intros world request. unfold advise_folder_action. rewrite Hd, Hw1, Hcl. reflexivity.
  - intros Hall.
    assert (_select_worker m (t_select clock)
            = inl "No workers available with acceptable success rate") as Hs.
    { apply select_worker_all_cooling. eapply Forall_impl; [exact Hall|].
      intros w Hw. now apply cooling_true. }
    eexists. split; [exact Hs|].
    split; intros world request; unfold classify, advise_folder_action, dispatch;
      now rewrite Hs.
Qed.

(** C8.  When the back end of the selected worker raises during [classify],
    the call returns a response that carries the error (with the path
    [Unknown]); the worker has one more failure in its lifetime counters and
    one more consecutive failure; and its [cooldown_until] is the reading of
    the clock in the [except] branch plus [failure_cooldown] times the
    smaller of 5 and its consecutive failures.  Its in-flight count is back
    to what it was (or zero). *)
Theorem classify_failure_sets_cooldown (m : Multiplexer) (clock : Clock)
    (world world' : World) (request : FileRequest) (i : nat) (m1 : Multiplexer)
    (w : Worker) (exc : string) :
  dispatch m clock = inr (i, m1) ->
  workers m !! i = Some w ->
  backend_classify (classifier w) world request = (inl exc, world') ->
  exists response m2 w2,
    classify m world request clock = (inr response, m2, world') /\
    error response = Some exc /\ metrics_error response = Some exc /\
    path response = UNKNOWN_CATEGORY /\
    error_context response = [("worker", name w)] /\
    workers m2 !! i = Some w2 /\
    failure (snapshot (total w2)) = S (failure (snapshot (total w))) /\
    success (snapshot (total w2)) = success (snapshot (total w)) /\
    consecutive_failures w2 = S (consecutive_failures w) /\
    cooldown_until w2
    = t_cooldown clock + failure_cooldown m * of_nat (Nat.min 5 (consecutive_failures w2)) /\
    in_flight w2 = Z.max 0 (in_flight w).
Proof.
  intros Hd Hw Hraise.
  destruct (dispatch_spec m clock i m1 Hd)
    as (w0 & w1 & Hw0 & _ & Hw1 & Hcl & Hname & Htotal & _ & Hcf & _ & Hin & _ & Hfc).
  rewrite Hw in Hw0. injection Hw0 as <-.
  assert (workers (update_worker m1 i (on_failure m1 clock)) !! i = Some (on_failure m1 clock w1))
    as Hw1'.
  { unfold update_worker. simpl. now rewrite list_lookup_alter_eq, Hw1. }
  destruct (finally_lookup _ clock i _ Hw1')
    as (w2 & Hw2 & _ & _ & Ht2 & _ & Hcf2 & Hcd2 & Hin2).
  eexists. eexists. exists w2. split.
  { unfold classify. rewrite Hd, Hw1, Hcl, Hraise. unfold settle_classify. reflexivity. }
  cbv zeta. cbn [error metrics_error path error_context]. rewrite Hw1'.
  cbn [from_option on_failure name]. rewrite Hname.
  repeat (split; [reflexivity|]). split; [exact Hw2|].
  rewrite Ht2, Hcf2, Hcd2, Hin2. simpl. rewrite Htotal, Hcf, Hfc, Hin.
  repeat (split; [reflexivity|]). f_equal. lia.
Qed.

End Workers.

(** C7 on the sample: the first worker has failed at 100 and cools down
    until 103; at 102 the request goes to the second worker, and with the
    first worker alone the request is refused. *)
Lemma dispatch_respects_cooldown_witness :
  0 <= t_select (clock_at 102) /\
  Forall (fun w => t_select (clock_at 102) < cooldown_until w) (workers cooling_mux) /\
  exists e, forall calls request,
    classify cooling_mux calls request (clock_at 102) = (inl e, cooling_mux, calls).
Proof.
  assert (0 <= t_select (clock_at 102)) as Hnow by (vm_compute; discriminate).
  assert (Forall (fun w => t_select (clock_at 102) < cooldown_until w) (workers cooling_mux))
    as Hall by (vm_compute; constructor; [reflexivity|constructor]).
  split; [exact Hnow|]. split; [exact Hall|].
  destruct (dispatch_respects_cooldown cooling_mux (clock_at 102) Hnow) as [_ H].
  destruct (H Hall) as (e & _ & Hc & _).
  exists e. exact Hc.
Defined.

(** C8 on the sample: the first worker of the sample multiplexer raises. *)
Lemma classify_failure_sets_cooldown_witness :
  let w := Worker_init (MockClassifier "mock(a)" true) in
  let m1 :=
    match dispatch sample_mux (clock_at 100) with
    | inr (_, m1) => m1
    | inl _ => sample_mux
    end in
  dispatch sample_mux (clock_at 100) = inr (0%nat, m1) /\
  workers sample_mux !! 0%nat = Some w /\
  backend_classify (classifier w) [] sample_request = (inl "Simulated failure", ["mock(a)"]) /\
  exists response m2 w2,
    classify sample_mux [] sample_request (clock_at 100) = (inr response, m2, ["mock(a)"]) /\
    error response = Some "Simulated failure" /\
    workers m2 !! 0%nat = Some w2 /\
    consecutive_failures w2 = 1%nat /\
    cooldown_until w2
    = t_cooldown (clock_at 100)
      + failure_cooldown sample_mux * of_nat (Nat.min 5 (consecutive_failures w2)).
Proof.
  intros w m1.
  assert (dispatch sample_mux (clock_at 100) = inr (0%nat, m1)) as Hd by reflexivity.
  assert (workers sample_mux !! 0%nat = Some w) as Hw by reflexivity.
  assert (backend_classify (classifier w) [] sample_request
          = (inl "Simulated failure", ["mock(a)"])) as Hraise by reflexivity.
  split; [exact Hd|]. split; [exact Hw|]. split; [exact Hraise|].
  destruct (classify_failure_sets_cooldown sample_mux (clock_at 100) [] ["mock(a)"]
              sample_request 0%nat m1 w "Simulated failure" Hd Hw Hraise)
    as (response & m2 & w2 & Hc & He & _ & _ & _ & Hw2 & _ & _ & Hcf & Hcd & _).
  exists response, m2, w2. repeat split; assumption.
Defined.

End MuxFacts.

(* ===================================================================== *)
(** * More on the metrics and the multiplexer *)
(* ===================================================================== *)

Module MuxProps.
Import Action Categories Mux MuxFacts.

#[local] Open Scope Q_scope.

Lemma qmax_bounds (a b : Q) : a <= qmax a b /\ b <= qmax a b.
Proof.
  unfold qmax. destruct (Qle_bool a b) eqn:E.
  - apply Qle_bool_iff in E. split; [exact E|apply Qle_refl].
  - split; [apply Qle_refl|].
    destruct (Qlt_le_dec a b) as [H|H]; [|exact H].
    apply Qlt_le_weak, Qle_bool_iff in H. congruence.
Qed.

Lemma qmin_bounds (a b : Q) : qmin a b <= a /\ qmin a b <= b.
Proof.
  unfold qmin. destruct (Qle_bool a b) eqn:E.
  - apply Qle_bool_iff in E. split; [apply Qle_refl|exact E].
  - split; [|apply Qle_refl].
    destruct (Qlt_le_dec a b) as [H|H]; [|exact H].
    apply Qlt_le_weak, Qle_bool_iff in H. congruence.
Qed.

Lemma qmax_cases (a b : Q) : qmax a b = a \/ qmax a b = b.
Proof. unfold qmax. destruct (Qle_bool a b); auto. Qed.

Lemma qmin_cases (a b : Q) : qmin a b = a \/ qmin a b = b.
Proof. unfold qmin. destruct (Qle_bool a b); auto. Qed.

(** The clamped duration of [Metric.record], in milliseconds. *)
Lemma clamped_bounds (d : Q) :
  0 <= qmax 0 (qmin d MAX_LATENCY_SECONDS) * 1000 /\
  qmax 0 (qmin d MAX_LATENCY_SECONDS) * 1000 <= 120000.
Proof.
  assert (0 <= qmax 0 (qmin d MAX_LATENCY_SECONDS)) as H0 by apply qmax_bounds.
  assert (qmax 0 (qmin d MAX_LATENCY_SECONDS) <= 120) as H1.
  { destruct (qmax_cases 0 (qmin d MAX_LATENCY_SECONDS)) as [->| ->]; [discriminate|].
    apply (qmin_bounds d MAX_LATENCY_SECONDS). }
  split.
  - apply Qmult_le_0_compat; [exact H0|discriminate].
  - change (120000 : Q) with (120 * 1000).
    apply Qmult_le_compat_r; [exact H1|discriminate].
Qed.

Lemma of_nat_S (n : nat) : of_nat (S n) == of_nat n + 1.
Proof.
  unfold of_nat. rewrite Nat2Z.inj_succ. unfold Z.succ. rewrite inject_Z_plus. reflexivity.
Qed.

Lemma of_nat_le (a b : nat) : (a <= b)%nat -> of_nat a <= of_nat b.
Proof. intros H. unfold of_nat. rewrite <- Zle_Qle. lia. Qed.

Lemma of_nat_pos (n : nat) : (0 < n)%nat -> 0 < of_nat n.
Proof.
  intros H. unfold of_nat. replace 0 with (inject_Z 0) by reflexivity.
  rewrite <- Zlt_Qlt. lia.
Qed.

Lemma record_fold (rs : list (Q * Q * bool)) (m : Metric) :
  let m' := fold_left (fun m r => record m r.1.1 r.1.2 r.2) rs m in
  _success m' = (_success m + length (List.filter (fun r => r.2) rs))%nat /\
  _failure m' = (_failure m + length (List.filter (fun r => negb r.2) rs))%nat /\
  _latency_ms m <= _latency_ms m' /\
  _latency_ms m' <= _latency_ms m + 120000 * of_nat (length rs).
Proof.
  revert m. induction rs as [|[[s d] ok] rs IH]; intros m; simpl.
  - repeat split; try lia; try apply Qle_refl.
    unfold of_nat. simpl. rewrite Qmult_0_r, Qplus_0_r. apply Qle_refl.
  - specialize (IH (record m s d ok)). simpl in IH.
    destruct IH as (Hs & Hf & Hlo & Hhi).
    destruct (clamped_bounds d) as [Hd0 Hd1].
    split; [|split; [|split]].
    + rewrite Hs. destruct ok; simpl; lia.
    + rewrite Hf. destruct ok; simpl; lia.
    + eapply Qle_trans; [|exact Hlo]. simpl.
      rewrite <- (Qplus_0_r (_latency_ms m)) at 1.
      apply Qplus_le_compat; [apply Qle_refl|exact Hd0].
    + eapply Qle_trans; [exact Hhi|]. simpl.
      rewrite of_nat_S.
      setoid_replace (_latency_ms m + 120000 * (of_nat (length rs) + 1))
        with (_latency_ms m + 120000 + 120000 * of_nat (length rs)) using relation Qeq by ring.
      apply Qplus_le_compat; [|apply Qle_refl].
      apply Qplus_le_compat; [apply Qle_refl|exact Hd1].
Qed.

Lemma record_fold_started (rs : list (Q * Q * bool)) (m : Metric) :
  let m' := fold_left (fun m r => record m r.1.1 r.1.2 r.2) rs m in
  _first_started m' =
    match _first_started m with
    | Some t => Some t
    | None => head (map (fun r => r.1.1) rs)
    end /\
  _last_started m' =
    match last (map (fun r => r.1.1) rs) with
    | Some t => Some t
    | None => _last_started m
    end.
Proof.
  revert m. induction rs as [|[[s d] ok] rs IH]; intros m; simpl.
  - split; [now destruct (_first_started m)|reflexivity].
  - specialize (IH (record m s d ok)). simpl in IH. destruct IH as [IH1 IH2]. split.
    + rewrite IH1. now destruct (_first_started m).
    + rewrite IH2. destruct rs as [|r rs]; [reflexivity|].
      cbn [map last].
      destruct (last (r.1.1 :: map (fun r0 : Q * Q * bool => r0.1.1) rs)) eqn:E; [reflexivity|].
      now apply last_None in E.
Qed.

Lemma filter_split_length {A : Type} (p : A -> bool) (l : list A) :
  (length (List.filter p l) + length (List.filter (fun x => negb (p x)) l) = length l)%nat.
Proof. induction l as [|x l IH]; simpl; [reflexivity|]. destruct (p x); simpl; lia. Qed.

(** X1.  A metric that has recorded the calls [rs] (start, duration and
    outcome of each, in order) counts one request per call and one success
    per successful call; its latency is between 0 and 120000 ms per call,
    whatever the durations reported (negative or huge); its success rate is
    between 0 and 1; and it remembers the start of the first and of the last
    call. *)
Theorem metric_counts_records (rs : list (Q * Q * bool)) :
  let s := snapshot (fold_left (fun m r => record m r.1.1 r.1.2 r.2) rs Metric_init) in
  requests s = length rs /\
  success s = length (List.filter (fun r => r.2) rs) /\
  (success s + failure s = length rs)%nat /\
  0 <= latency_ms s /\ latency_ms s <= 120000 * of_nat (length rs) /\
  0 <= success_rate s /\ success_rate s <= 1 /\
  first_started s = head (map (fun r => r.1.1) rs) /\
  last_started s = last (map (fun r => r.1.1) rs).
Proof.
  destruct (record_fold rs Metric_init) as (Hs & Hf & Hlo & Hhi).
  destruct (record_fold_started rs Metric_init) as (Hfirst & Hlast).
  simpl in Hs, Hf, Hlo, Hhi, Hfirst, Hlast.
  pose proof (filter_split_length (fun r : Q * Q * bool => r.2) rs) as Hlen.
  cbv zeta. unfold success_rate. cbn [requests success failure latency_ms first_started last_started snapshot].
  rewrite Hs, Hf.
  split; [exact Hlen|]. split; [reflexivity|]. split; [exact Hlen|].
  split; [exact Hlo|]. split; [now rewrite Qplus_0_l in Hhi|].
  split; [|split; [|split]].
  - destruct (Nat.eqb _ 0) eqn:E; [apply Qle_refl|].
    apply Nat.eqb_neq in E. apply Qle_shift_div_l; [apply of_nat_pos; lia|].
    rewrite Qmult_0_l. apply (of_nat_le 0). lia.
  - destruct (Nat.eqb _ 0) eqn:E; [discriminate|].
    apply Nat.eqb_neq in E. apply Qle_shift_div_r; [apply of_nat_pos; lia|].
    rewrite Qmult_1_l. apply of_nat_le. lia.
  - exact Hfirst.
  - rewrite Hlast. now destruct (last _).
Qed.

Section Workers.

Context {World : Type}.

#[local] Abbreviation Worker := (@Mux.Worker World).
#[local] Abbreviation Multiplexer := (@Mux.Multiplexer World).

#[local] Abbreviation reweighted :=
  (fun w w' : Worker => w' = set_current_weight (current_weight w') w).

(** What a call leaves of a worker it was not dispatched to: all but its
    weight and its window. *)
#[local] Abbreviation untouched :=
  (fun w w' : Worker =>
     classifier w' = classifier w /\ name w' = name w /\ total w' = total w /\
     last_used w' = last_used w /\ consecutive_failures w' = consecutive_failures w /\
     cooldown_until w' = cooldown_until w /\ in_flight w' = in_flight w).

Lemma positions_complete (p : Worker -> bool) (ws : list Worker) (k j : nat) (w : Worker) :
  ws !! j = Some w -> p w = true -> In (k + j)%nat (positions p ws k).
Proof.
  revert k j. induction ws as [|x ws IH]; intros k j Hj Hp; [discriminate|].
  destruct j as [|j]; simpl in *.
  - injection Hj as ->. rewrite Hp, Nat.add_0_r. now left.
  - replace (k + S j)%nat with (S k + j)%nat by lia.
    destruct (p x); [right|]; now apply IH.
Qed.

(** The worker a failed call leaves at position [i]. *)
Lemma failure_bookkeeping (m1 : Multiplexer) (clock : Clock) (i : nat) (w1 : Worker) :
  workers m1 !! i = Some w1 ->
  exists w2,
    workers (finally (update_worker m1 i (on_failure m1 clock)) clock i) !! i = Some w2 /\
    classifier w2 = classifier w1 /\ name w2 = name w1 /\
    total w2 = record (total w1) (t_started clock) (t_done clock - t_started clock) false /\
    consecutive_failures w2 = S (consecutive_failures w1) /\
    cooldown_until w2
    = t_cooldown clock + failure_cooldown m1 * of_nat (Nat.min 5 (S (consecutive_failures w1))) /\
    in_flight w2 = Z.max 0 (in_flight w1 - 1).
Proof.
  intros Hw1.
  assert (workers (update_worker m1 i (on_failure m1 clock)) !! i = Some (on_failure m1 clock w1))
    as Hw1'.
  { unfold update_worker. simpl. now rewrite list_lookup_alter_eq, Hw1. }
  destruct (finally_lookup _ clock i _ Hw1')
    as (w2 & Hw2 & Hcl & Hn & Ht & _ & Hcf & Hcd & Hin).
  exists w2. split; [exact Hw2|].
  rewrite Hcl, Hn, Ht, Hcf, Hcd, Hin. repeat split; reflexivity.
Qed.

(** The worker a successful call leaves at position [i]. *)
Lemma success_bookkeeping (m1 : Multiplexer) (clock : Clock) (i : nat) (w1 : Worker) :
  workers m1 !! i = Some w1 ->
  exists w2,
    workers (finally (update_worker m1 i (on_success clock)) clock i) !! i = Some w2 /\
    classifier w2 = classifier w1 /\ name w2 = name w1 /\
    total w2 = record (total w1) (t_started clock) (t_done clock - t_started clock) true /\
    consecutive_failures w2 = 0%nat /\
    cooldown_until w2 = cooldown_until w1 /\
    in_flight w2 = Z.max 0 (in_flight w1 - 1).
Proof.
  intros Hw1.
  assert (workers (update_worker m1 i (on_success clock)) !! i = Some (on_success clock w1))
    as Hw1'.
  { unfold update_worker. simpl. now rewrite list_lookup_alter_eq, Hw1. }
  destruct (finally_lookup _ clock i _ Hw1')
    as (w2 & Hw2 & Hcl & Hn & Ht & _ & Hcf & Hcd & Hin).
  exists w2. split; [exact Hw2|].
  rewrite Hcl, Hn, Ht, Hcf, Hcd, Hin. repeat split; reflexivity.
Qed.

(** X2.  When the back end of the selected worker raises during
    [advise_folder_action], the call returns a final decision, the hint of
    the request or else DISAGGREGATE, with the reason [multiplexer:error];
    the failure is booked on the worker as for [classify]. *)
Theorem advise_failure_falls_back (m : Multiplexer) (clock : Clock)
    (world world' : World) (request : FolderActionRequest) (i : nat) (m1 : Multiplexer)
    (w : Worker) (exc : string) :
  dispatch m clock = inr (i, m1) ->
  workers m !! i = Some w ->
  backend_advise (classifier w) world request = (inl exc, world') ->
  exists m2 w2,
    advise_folder_action m world request clock
    = (inr {| action := Some (default DISAGGREGATE (rule_hint request)); is_final := true;
              hint := None; reason := Some "multiplexer:error" |}, m2, world') /\
    workers m2 !! i = Some w2 /\
    failure (snapshot (total w2)) = S (failure (snapshot (total w))) /\
    consecutive_failures w2 = S (consecutive_failures w) /\
    cooldown_until w2
    = t_cooldown clock + failure_cooldown m * of_nat (Nat.min 5 (consecutive_failures w2)) /\
    in_flight w2 = Z.max 0 (in_flight w).
Proof.
  intros Hd Hw Hraise.
  destruct (dispatch_spec m clock i m1 Hd)
    as (w0 & w1 & Hw0 & _ & Hw1 & Hcl & _ & Htotal & _ & Hcf & _ & Hin & _ & Hfc).
  rewrite Hw in Hw0. injection Hw0 as <-.
  destruct (failure_bookkeeping m1 clock i w1 Hw1)
    as (w2 & Hw2 & _ & _ & Ht2 & Hcf2 & Hcd2 & Hin2).
  eexists. exists w2. split.
  { unfold advise_folder_action. rewrite Hd, Hw1, Hcl, Hraise. reflexivity. }
  split; [exact Hw2|].
  rewrite Ht2, Hcf2, Hcd2, Hin2, Htotal, Hcf, Hfc, Hin. simpl.
  repeat (split; [reflexivity|]). f_equal. lia.
Qed.

(** X3.  When the back end of the selected worker answers, [classify]
    hands on its path, its metrics and its error fields and adds the
    [multiplexer] block (worker name, duration, the calls that were in flight
    before this one); the worker has one more success, no consecutive
    failure, the cooldown it had, and its in-flight count is back. *)
Theorem classify_success_bookkeeping (m : Multiplexer) (clock : Clock)
    (world world' : World) (request : FileRequest) (i : nat) (m1 : Multiplexer)
    (w : Worker) (result : ClassifierResponse) :
  dispatch m clock = inr (i, m1) ->
  workers m !! i = Some w ->
  backend_classify (classifier w) world request = (inr result, world') ->
  exists m2 w2,
    classify m world request clock
    = (inr {| path := path result; backend_metrics := backend_metrics result;
              metrics_error := metrics_error result;
              multiplexer :=
                Some {| mb_worker := name w; mb_duration := t_done clock - t_started clock;
                        mb_queued_tasks := in_flight w; mb_consecutive_failures := None |};
              error := error result; error_context := error_context result |},
       m2, world') /\
    workers m2 !! i = Some w2 /\
    success (snapshot (total w2)) = S (success (snapshot (total w))) /\
    failure (snapshot (total w2)) = failure (snapshot (total w)) /\
    consecutive_failures w2 = 0%nat /\
    cooldown_until w2 = cooldown_until w /\
    in_flight w2 = Z.max 0 (in_flight w).
Proof.
  intros Hd Hw Hres.
  destruct (dispatch_spec m clock i m1 Hd)
    as (w0 & w1 & Hw0 & _ & Hw1 & Hcl & Hname & Htotal & _ & Hcf & Hcd & Hin & _ & Hfc).
  rewrite Hw in Hw0. injection Hw0 as <-.
  destruct (success_bookkeeping m1 clock i w1 Hw1)
    as (w2 & Hw2 & _ & _ & Ht2 & Hcf2 & Hcd2 & Hin2).
  eexists. exists w2. split.
  { unfold classify. rewrite Hd, Hw1, Hcl, Hres. unfold settle_classify. cbv zeta.
    unfold update_worker at 1. simpl. rewrite list_lookup_alter_eq, Hw1. simpl.
    replace (mux_block clock (on_success clock w1) false)
      with {| mb_worker := name w; mb_duration := t_done clock - t_started clock;
              mb_queued_tasks := in_flight w; mb_consecutive_failures := None |};
      [reflexivity|].
    unfold mux_block. simpl. rewrite Hname, Hin. f_equal. lia. }
  split; [exact Hw2|].
  rewrite Ht2, Hcf2, Hcd2, Hin2, Htotal, Hcd, Hin. simpl.
  repeat (split; [reflexivity|]). f_equal. lia.
Qed.

(** X4.  A worker whose back end has just raised during [classify] is not
    selected again at any time before its cooldown ends, whatever else the
    multiplexer holds. *)
Theorem failed_worker_is_skipped (m : Multiplexer) (clock : Clock)
    (world world' : World) (request : FileRequest) (i : nat) (m1 : Multiplexer)
    (w : Worker) (exc : string) (now : Q) :
  dispatch m clock = inr (i, m1) ->
  workers m !! i = Some w ->
  backend_classify (classifier w) world request = (inl exc, world') ->
  0 <= now ->
  now < t_cooldown clock
        + failure_cooldown m * of_nat (Nat.min 5 (S (consecutive_failures w))) ->
  forall j m3,
    _select_worker (classify m world request clock).1.2 now = inr (j, m3) -> j <> i.
Proof.
  intros Hd Hw Hraise Hnow Hbefore j m3 Hsel ->.
  destruct (dispatch_spec m clock i m1 Hd)
    as (w0 & w1 & Hw0 & _ & Hw1 & Hcl & _ & _ & _ & Hcf & _ & _ & _ & Hfc).
  rewrite Hw in Hw0. injection Hw0 as <-.
  destruct (failure_bookkeeping m1 clock i w1 Hw1)
    as (w2 & Hw2 & _ & _ & _ & _ & Hcd2 & _).
  assert ((classify m world request clock).1.2
          = finally (update_worker m1 i (on_failure m1 clock)) clock i) as Hm2.
  { unfold classify. rewrite Hd, Hw1, Hcl, Hraise. reflexivity. }
  rewrite Hm2 in Hsel.
  apply select_worker_spec in Hsel as ((w' & Hw' & Hcool) & _).
  rewrite Hw2 in Hw'. injection Hw' as <-.
  rewrite cooling_true in Hcool; [discriminate|exact Hnow|].
  now rewrite Hcd2, Hcf, Hfc.
Qed.

(** X5.  [_select_worker] raises exactly when every worker is skipped by
    the cooldown test (which is so when there is no worker): as long as one
    worker is not cooling down, a worker is selected, whatever its record. *)
Theorem select_worker_raises_iff_all_cooling (m : Multiplexer) (now : Q) :
  (exists e, _select_worker m now = inl e) <->
  Forall (fun w => cooling now w = true) (workers m).
Proof.
  split.
  - intros [e He]. now apply (select_worker_error m now e).
  - intros H. eexists. now apply select_worker_all_cooling.
Qed.

(** The first branch of [_select_worker]. *)
Lemma select_unused (m : Multiplexer) (now : Q) (j : nat) (wj : Worker) :
  workers m !! j = Some wj -> cooling now wj = false -> unused wj = true ->
  exists i m' wi,
    _select_worker m now = inr (i, m') /\
    workers m !! i = Some wi /\ unused wi = true /\ cooling now wi = false /\
    workers m' !! i = Some (set_current_weight 0 wi) /\ _last_selected m' = Some i.
Proof.
  intros Hj Hcool Hunused.
  assert (In j (positions (fun w => negb (cooling now w) && is_primary w) (workers m) 0)) as Hin.
  { apply (positions_complete _ _ 0 j wj Hj). unfold is_primary. now rewrite Hcool, Hunused. }
  unfold _select_worker.
  destruct (_available_workers m now) as [e|available] eqn:Ea.
  { unfold _available_workers in Ea.
    destruct (positions (fun w => negb (cooling now w) && is_primary w) (workers m) 0);
      [destruct Hin|discriminate]. }
  assert (In j available) as Hav.
  { unfold _available_workers in Ea.
    destruct (positions (fun w => negb (cooling now w) && is_primary w) (workers m) 0);
      [destruct Hin|]. now injection Ea as <-. }
  assert (In j (List.filter (fun i => from_option unused false (workers m !! i)) available))
    as Hf.
  { apply List.filter_In. split; [exact Hav|]. now rewrite Hj. }
  destruct (List.filter _ available) as [|selected rest] eqn:Ef; [destruct Hf|].
  assert (In selected (List.filter (fun i => from_option unused false (workers m !! i)) available))
    as Hs by (rewrite Ef; now left).
  apply List.filter_In in Hs as [Hs1 Hs2].
  destruct (available_not_cooling m now available selected Ea Hs1) as (wi & Hwi & Hci).
  rewrite Hwi in Hs2. simpl in Hs2.
  exists selected. eexists. exists wi. split; [reflexivity|].
  split; [exact Hwi|]. split; [exact Hs2|]. split; [exact Hci|]. split; [|reflexivity].
  unfold update_worker. simpl. now rewrite list_lookup_alter_eq, Hwi.
Qed.

(** X6.  A worker that has had no request yet and is not cooling down goes
    before the weighted choice: when there is one, the worker selected is
    such a worker, and its weight is set to zero. *)
Theorem unused_worker_goes_first (m : Multiplexer) (now : Q) (j : nat) (wj : Worker) :
  workers m !! j = Some wj -> cooling now wj = false -> unused wj = true ->
  exists i m' wi,
    _select_worker m now = inr (i, m') /\
    workers m !! i = Some wi /\ unused wi = true /\ cooling now wi = false /\
    workers m' !! i = Some (set_current_weight 0 wi) /\ _last_selected m' = Some i.
Proof. apply select_unused. Qed.

(** X7.  With a default weight between 0.1 and 10 (it is 5), the weight
    of a worker is between 0.1 and 10, whatever its latencies. *)
Theorem worker_weight_bounds (m : Multiplexer) (w : Worker) :
  (1 # 10) <= _default_weight m -> _default_weight m <= 10 ->
  (1 # 10) <= _worker_weight m w /\ _worker_weight m w <= 10.
Proof.
  intros Hlo Hhi. unfold _worker_weight.
  destruct (Nat.eqb _ 0); [now split|].
  destruct (Qle_bool _ 0); [now split|].
  split; [apply qmax_bounds|].
  destruct (qmax_cases (1 # 10) (qmin 10 (1000 / (avg_latency_ms (snapshot (total w)) + 1))))
    as [-> | ->]; [discriminate|apply qmin_bounds].
Qed.

(** X8.  A call to [classify] changes, of the workers it is not
    dispatched to, nothing but their weights and their windows: their
    lifetime counters, consecutive failures, cooldowns and in-flight counts
    stay, whether the call succeeds or fails. *)
Theorem classify_leaves_other_workers (m : Multiplexer) (clock : Clock) (world : World)
    (request : FileRequest) (i : nat) (m1 : Multiplexer) (j : nat) (wj : Worker) :
  dispatch m clock = inr (i, m1) -> j <> i -> workers m !! j = Some wj ->
  exists wj',
    workers (classify m world request clock).1.2 !! j = Some wj' /\
    classifier wj' = classifier wj /\ name wj' = name wj /\ total wj' = total wj /\
    last_used wj' = last_used wj /\ consecutive_failures wj' = consecutive_failures wj /\
    cooldown_until wj' = cooldown_until wj /\ in_flight wj' = in_flight wj.
Proof.
  intros Hd Hne Hj.
  destruct (dispatch_spec m clock i m1 Hd) as (w & w1 & _ & _ & Hw1 & _).
  assert (exists wj1, workers m1 !! j = Some wj1 /\ untouched wj wj1) as (wj1 & Hj1 & Hu1).
  { revert Hd. unfold dispatch.
    destruct (_select_worker m (t_select clock)) as [e|[i' m']] eqn:Es; [discriminate|].
    intros [= -> <-].
    apply select_worker_spec in Es as (_ & Hws & _).
    destruct (Forall2_lookup_l _ _ _ _ _ Hws Hj) as (wj' & Hj' & Hrw).
    exists wj'. split.
    - unfold update_worker. simpl. rewrite list_lookup_alter_ne by congruence. exact Hj'.
    - rewrite Hrw. repeat split. }
  assert (forall f : Worker -> Worker,
            exists wj2, workers (finally (update_worker m1 i f) clock i) !! j = Some wj2 /\
                        untouched wj wj2) as Hfin.
  { intros f. unfold finally, update_worker, _maybe_dump_stats. simpl.
    destruct (_ && _); simpl; rewrite list_lookup_alter_ne by congruence.
    - rewrite list_lookup_alter_ne by congruence. now exists wj1.
    - rewrite list_lookup_fmap, list_lookup_alter_ne by congruence. rewrite Hj1. simpl.
      eexists. split; [reflexivity|]. exact Hu1. }
  unfold classify. rewrite Hd, Hw1.
  destruct (backend_classify (classifier w1) world request) as [[exc|result] world'];
    unfold settle_classify; simpl; apply Hfin.
Qed.

(** X9.  A multiplexer that has just been built sends its first request to
    its first worker, at any time and whatever the number of workers. *)
Theorem fresh_multiplexer_selects_first (b : Backend) (bs : list Backend)
    (stats_interval failure_cooldown : Q) (clock : Clock) (world : World)
    (request : FileRequest) :
  let m := Multiplexer_init (b :: bs) stats_interval failure_cooldown in
  exists m1,
    dispatch m clock = inr (0%nat, m1) /\
    classify m world request clock =
    let (outcome, world') := backend_classify b world request in
    let (response, m2) := settle_classify m1 clock 0 outcome in
    (inr response, m2, world').
Proof.
  cbv zeta.
  assert (exists m', _select_worker (Multiplexer_init (b :: bs) stats_interval failure_cooldown)
                       (t_select clock) = inr (0%nat, m') /\
                     workers m' !! 0%nat = Some (Worker_init b)) as (m' & Hs & Hm').
  { destruct (select_unused
                (Multiplexer_init (b :: bs) stats_interval failure_cooldown)
                (t_select clock) 0 (Worker_init b))
      as (i & m' & wi & Hs & Hwi & Hu & Hc & Hm' & _); try reflexivity.
    revert Hs Hwi Hm'. unfold _select_worker, _available_workers. simpl.
    change (cooling (t_select clock) (Worker_init b)) with false. simpl.
    intros [= <- <-]. eauto. }
  eexists. split.
  - unfold dispatch. rewrite Hs. reflexivity.
  - unfold classify, dispatch. rewrite Hs. unfold update_worker. simpl.
    rewrite list_lookup_alter_eq, Hm'. reflexivity.
Qed.

End Workers.

(** The sample multiplexer when the call of its first worker is under way. *)
#[local] Abbreviation sample_dispatched :=
  (match dispatch sample_mux (clock_at 100) with
   | inr (_, m1) => m1
   | inl _ => sample_mux
   end).

#[local] Abbreviation healthy_dispatched :=
  (match dispatch healthy_mux (clock_at 100) with
   | inr (_, m1) => m1
   | inl _ => healthy_mux
   end).

Lemma advise_failure_falls_back_witness :
  let w := Worker_init (MockClassifier "mock(a)" true) in
  dispatch sample_mux (clock_at 100) = inr (0%nat, sample_dispatched) /\
  workers sample_mux !! 0%nat = Some w /\
  backend_advise (classifier w) [] sample_folder_request
  = (inl "Simulated failure", ["mock(a)"]) /\
  (advise_folder_action sample_mux [] sample_folder_request (clock_at 100)).1.1
  = inr (decision DISAGGREGATE "multiplexer:error").
Proof.
  intros w.
  assert (dispatch sample_mux (clock_at 100) = inr (0%nat, sample_dispatched)) as Hd
    by reflexivity.
  assert (workers sample_mux !! 0%nat = Some w) as Hw by reflexivity.
  assert (backend_advise (classifier w) [] sample_folder_request
          = (inl "Simulated failure", ["mock(a)"])) as Hraise by reflexivity.
  split; [exact Hd|]. split; [exact Hw|]. split; [exact Hraise|].
  destruct (advise_failure_falls_back sample_mux (clock_at 100) [] ["mock(a)"]
              sample_folder_request 0%nat sample_dispatched w "Simulated failure" Hd Hw Hraise)
    as (m2 & w2 & Hc & _).
  rewrite Hc. reflexivity.
Defined.

Lemma classify_success_bookkeeping_witness :
  let w := Worker_init (MockClassifier "mock(c2)" false) in
  let result :=
    {| path := CategoryPath_init [VText "Test"]; backend_metrics := [("source", "mock")];
       metrics_error := None; multiplexer := None; error := None; error_context := [] |} in
  dispatch healthy_mux (clock_at 100) = inr (0%nat, healthy_dispatched) /\
  workers healthy_mux !! 0%nat = Some w /\
  backend_classify (classifier w) [] sample_request = (inr result, ["mock(c2)"]) /\
  exists m2 w2,
    (classify healthy_mux [] sample_request (clock_at 100)).1.2 = m2 /\
    workers m2 !! 0%nat = Some w2 /\
    success (snapshot (total w2)) = 1%nat /\ consecutive_failures w2 = 0%nat.
Proof.
  intros w result.
  assert (dispatch healthy_mux (clock_at 100) = inr (0%nat, healthy_dispatched)) as Hd
    by reflexivity.
  assert (workers healthy_mux !! 0%nat = Some w) as Hw by reflexivity.
  assert (backend_classify (classifier w) [] sample_request = (inr result, ["mock(c2)"]))
    as Hres by reflexivity.
  split; [exact Hd|]. split; [exact Hw|]. split; [exact Hres|].
  destruct (classify_success_bookkeeping healthy_mux (clock_at 100) [] ["mock(c2)"]
              sample_request 0%nat healthy_dispatched w result Hd Hw Hres)
    as (m2 & w2 & Hc & Hw2 & Hs & _ & Hcf & _).
  exists m2, w2. rewrite Hc. repeat split; assumption.
Defined.

Lemma failed_worker_is_skipped_witness :
  let w := Worker_init (MockClassifier "mock(a)" true) in
  dispatch sample_mux (clock_at 100) = inr (0%nat, sample_dispatched) /\
  workers sample_mux !! 0%nat = Some w /\
  backend_classify (classifier w) [] sample_request = (inl "Simulated failure", ["mock(a)"]) /\
  0 <= 102 /\
  102 < t_cooldown (clock_at 100)
        + failure_cooldown sample_mux * of_nat (Nat.min 5 (S (consecutive_failures w))) /\
  match _select_worker (classify sample_mux [] sample_request (clock_at 100)).1.2 102 with
  | inr (j, _) => j <> 0%nat
  | inl _ => True
  end.
Proof.
  intros w.
  assert (dispatch sample_mux (clock_at 100) = inr (0%nat, sample_dispatched)) as Hd
    by reflexivity.
  assert (workers sample_mux !! 0%nat = Some w) as Hw by reflexivity.
  assert (backend_classify (classifier w) [] sample_request
          = (inl "Simulated failure", ["mock(a)"])) as Hraise by reflexivity.
  assert (0 <= 102) as Hnow by discriminate.
  assert (102 < t_cooldown (clock_at 100)
                + failure_cooldown sample_mux * of_nat (Nat.min 5 (S (consecutive_failures w))))
    as Hbefore by reflexivity.
  split; [exact Hd|]. split; [exact Hw|]. split; [exact Hraise|].
  split; [exact Hnow|]. split; [exact Hbefore|].
  destruct (_select_worker (classify sample_mux [] sample_request (clock_at 100)).1.2 102)
    as [e|[j m3]] eqn:E; [exact I|].
  exact (failed_worker_is_skipped sample_mux (clock_at 100) [] ["mock(a)"] sample_request
           0%nat sample_dispatched w "Simulated failure" 102 Hd Hw Hraise Hnow Hbefore j m3 E).
Defined.

Lemma unused_worker_goes_first_witness :
  let m := (classify sample_mux [] sample_request (clock_at 100)).1.2 in
  let wj := Worker_init (MockClassifier "mock(b)" false) in
  workers m !! 1%nat = Some wj /\ cooling 102 wj = false /\ unused wj = true /\
  exists i m' wi, _select_worker m 102 = inr (i, m') /\ workers m !! i = Some wi /\
    unused wi = true.
Proof.
  intros m wj.
  assert (workers m !! 1%nat = Some wj) as Hj by reflexivity.
  assert (cooling 102 wj = false) as Hc by reflexivity.
  assert (unused wj = true) as Hu by reflexivity.
  split; [exact Hj|]. split; [exact Hc|]. split; [exact Hu|].
  destruct (unused_worker_goes_first m 102 1%nat wj Hj Hc Hu)
    as (i & m' & wi & Hs & Hwi & Hui & _).
  exists i, m', wi. repeat split; assumption.
Defined.

Lemma worker_weight_bounds_witness :
  let w := Worker_init (MockClassifier "mock(a)" true) in
  (1 # 10) <= _default_weight sample_mux /\ _default_weight sample_mux <= 10 /\
  (1 # 10) <= _worker_weight sample_mux w /\ _worker_weight sample_mux w <= 10.
Proof.
  intros w.
  assert ((1 # 10) <= _default_weight sample_mux) as Hlo by discriminate.
  assert (_default_weight sample_mux <= 10) as Hhi by discriminate.
  split; [exact Hlo|]. split; [exact Hhi|].
  exact (worker_weight_bounds sample_mux w Hlo Hhi).
Defined.

Lemma classify_leaves_other_workers_witness :
  let wj := Worker_init (MockClassifier "mock(b)" false) in
  dispatch sample_mux (clock_at 100) = inr (0%nat, sample_dispatched) /\
  1%nat <> 0%nat /\ workers sample_mux !! 1%nat = Some wj /\
  exists wj',
    workers (classify sample_mux [] sample_request (clock_at 100)).1.2 !! 1%nat = Some wj' /\
    total wj' = total wj /\ cooldown_until wj' = cooldown_until wj.
Proof.
  intros wj.
  assert (dispatch sample_mux (clock_at 100) = inr (0%nat, sample_dispatched)) as Hd
    by reflexivity.
  assert (1%nat <> 0%nat) as Hne by discriminate.
  assert (workers sample_mux !! 1%nat = Some wj) as Hj by reflexivity.
  split; [exact Hd|]. split; [exact Hne|]. split; [exact Hj|].
  destruct (classify_leaves_other_workers sample_mux (clock_at 100) [] sample_request
              0%nat sample_dispatched 1%nat wj Hd Hne Hj)
    as (wj' & Hj' & _ & _ & Ht & _ & _ & Hcd & _).
  exists wj'. repeat split; assumption.
Defined.

End MuxProps.

(* ===================================================================== *)
(** * More on the rules classifier *)
(* ===================================================================== *)

Module RulesProps.
Import PyStr Action Categories Rules RulesFacts.

Lemma find_first {A : Type} (p : A -> bool) (before : list A) (x : A) (after : list A) :
  Forall (fun y => p y = false) before -> p x = true ->
  List.find p (before ++ x :: after) = Some x.
Proof.
  intros Hb Hx. induction Hb as [|y before Hy _ IH]; simpl.
  - now rewrite Hx.
  - now rewrite Hy.
Qed.

Lemma find_none {A : Type} (p : A -> bool) (l : list A) :
  Forall (fun y => p y = false) l -> List.find p l = None.
Proof. intros H. induction H as [|y l Hy _ IH]; simpl; [reflexivity|now rewrite Hy]. Qed.

(** X10.  The rules are tried in the order of the file: the first rule whose
    patterns match the path (taken with a leading slash) and the mime type
    gives the category, whatever the rules after it say; when no rule
    matches, the category is [Unknown] and [rule_match] is false. *)
Theorem classify_first_match_wins (before : list CompiledRule) (r : CompiledRule)
    (after : list CompiledRule) (name rel_path mime : string) :
  let key := if nonempty rel_path then rel_path else name in
  let raw := if startswith "/" key then key else "/" +:+ key in
  Forall (fun r' => rule_match r' raw mime = false) before ->
  (rule_match r raw mime = true ->
   classify (before ++ r :: after) name rel_path mime = (category_path r, true)) /\
  classify before name rel_path mime = (UNKNOWN_CATEGORY, false).
Proof.
  intros key raw Hb. unfold classify, match_, _match_rule. fold key. fold raw. split.
  - intros Hr. now rewrite (find_first _ before r after Hb Hr).
  - now rewrite (find_none _ before Hb).
Qed.

Lemma classify_first_match_wins_witness :
  Forall (fun r' => rule_match r' "/WebApp/README.md" "text/markdown" = false)
    [node_modules_rule] /\
  rule_match catch_all_rule "/WebApp/README.md" "text/markdown" = true /\
  classify sample_rules "README.md" "WebApp/README.md" "text/markdown"
  = (UNKNOWN_CATEGORY, true) /\
  classify [node_modules_rule] "README.md" "WebApp/README.md" "text/markdown"
  = (UNKNOWN_CATEGORY, false).
Proof.
  assert (Forall (fun r' => rule_match r' "/WebApp/README.md" "text/markdown" = false)
            [node_modules_rule]) as Hb by (constructor; [reflexivity|constructor]).
  assert (rule_match catch_all_rule "/WebApp/README.md" "text/markdown" = true) as Hr
    by reflexivity.
  split; [exact Hb|]. split; [exact Hr|].
  destruct (classify_first_match_wins [node_modules_rule] catch_all_rule []
              "README.md" "WebApp/README.md" "text/markdown" Hb) as [H1 H2].
  split; [exact (H1 Hr)|exact H2].
Defined.

Lemma scan_children_none rules request children :
  Forall (fun c => child_step rules request c = None) children ->
  scan_children rules request children = None.
Proof. intros H. induction H as [|c l Hc _ IH]; simpl; [reflexivity|now rewrite Hc]. Qed.

(** X11.  When no rule matches any path, in particular with no rules at
    all, every folder is delegated to the next classifier with the hint
    DISAGGREGATE and the reason [rule:no_match]. *)
Theorem advise_without_match_delegates (rules : list CompiledRule)
    (request : FolderActionRequest) :
  (forall key mime, _match_rule rules key mime = None) ->
  advise_folder_action rules request = delegate (Some DISAGGREGATE) "rule:no_match".
Proof.
  intros Hnone. unfold advise_folder_action.
  rewrite scan_children_none.
  - unfold folder_rule, match_. now rewrite !Hnone.
  - apply Forall_forall. intros c _. unfold child_step, match_.
    rewrite !Hnone. simpl.
    now destruct (String.eqb (child_type c) "dir"), (String.eqb (child_type c) "file").
Qed.

Lemma advise_without_match_delegates_witness :
  (forall key mime, _match_rule [] key mime = None) /\
  advise_folder_action [] webapp_request = delegate (Some DISAGGREGATE) "rule:no_match".
Proof.
  assert (forall key mime, _match_rule [] key mime = None) as H by reflexivity.
  split; [exact H|]. exact (advise_without_match_delegates [] webapp_request H).
Defined.

(** X12.  A child that carries a [keep_parent] marker decides the folder:
    when no child listed before it makes the function return, the response
    is the final decision KEEP with the reason [keep_parent:] and the name of
    the child, whatever the children after it and the rule of the folder
    itself say. *)
Theorem marker_child_decides_keep (rules : list CompiledRule) (request : FolderActionRequest)
    (before : list Child) (child : Child) (after : list Child) :
  children request = before ++ child :: after ->
  Forall (fun c => child_step rules request c = None) before ->
  is_marker rules request child = true ->
  advise_folder_action rules request
  = {| action := Some KEEP; is_final := true; hint := None;
       reason := Some ("keep_parent:" +:+ child_name child) |}.
Proof. apply marker_decides. Qed.

Lemma marker_child_decides_keep_witness :
  let request :=
    {| folder_path := "/WebApp"; folder_name := "WebApp";
       children := [node_modules_child; readme_child]; total_files := 4;
       rule_hint := None |} in
  children request = [] ++ node_modules_child :: [readme_child] /\
  Forall (fun c => child_step sample_rules request c = None) [] /\
  is_marker sample_rules request node_modules_child = true /\
  advise_folder_action sample_rules request = decision KEEP "keep_parent:node_modules".
Proof.
  intros request.
  assert (children request = [] ++ node_modules_child :: [readme_child]) as Hc by reflexivity.
  assert (Forall (fun c => child_step sample_rules request c = None) []) as Hb by constructor.
  assert (is_marker sample_rules request node_modules_child = true) as Hm by reflexivity.
  split; [exact Hc|]. split; [exact Hb|]. split; [exact Hm|].
  exact (marker_child_decides_keep sample_rules request [] node_modules_child
           [readme_child] Hc Hb Hm).
Defined.

(** A response as the chain expects it: a final one has an action and no
    hint, a delegation has no action. *)
#[local] Abbreviation well_formed :=
  (fun r : FolderActionResponse =>
     (is_final r = true /\ is_Some (action r) /\ hint r = None) \/
     (is_final r = false /\ action r = None)).

Lemma child_step_well_formed rules request child r :
  child_step rules request child = Some r -> well_formed r.
Proof.
  unfold child_step.
  destruct (String.eqb _ "dir").
  - destruct (_ || _); [|discriminate]. intros [= <-]. left. simpl. eauto.
  - destruct (String.eqb _ "file"); [|discriminate].
    destruct (match_ _ _ _ _) as [rule|]; [|discriminate].
    destruct (bool_decide _).
    + intros [= <-]. left. simpl. eauto.
    + destruct (folder_action rule), (requires_ai rule); intros [= <-]; simpl; eauto.
Qed.

(** X13.  Whatever the rules and the request, the response of the rules
    classifier is either a final decision that carries an action (and no
    hint) or a delegation without an action: the case final without action,
    which the chain has to skip, does not come from the rules. *)
Theorem advise_response_well_formed (rules : list CompiledRule)
    (request : FolderActionRequest) :
  let r := advise_folder_action rules request in
  (is_final r = true /\ is_Some (action r) /\ hint r = None) \/
  (is_final r = false /\ action r = None).
Proof.
  cbv zeta. unfold advise_folder_action.
  destruct (scan_children rules request (children request)) as [r|] eqn:Es.
  - revert Es. induction (children request) as [|c l IH]; simpl; [discriminate|].
    destruct (child_step rules request c) as [r'|] eqn:Ec; [|exact IH].
    intros [= <-]. now apply (child_step_well_formed rules request c).
  - unfold folder_rule.
    destruct (match match_ rules "" (folder_path request) "" with
              | Some r => Some r
              | None => match_ rules "" (folder_path request +:+ "/") ""
              end) as [rule|]; [|right; now split].
    destruct (folder_action rule), (requires_ai rule); simpl; eauto.
Qed.

End RulesProps.

(* ===================================================================== *)
(** * More on the catalog store *)
(* ===================================================================== *)

Module DbProps.
Import PyStr Sorting SortingFacts Db DbFacts.

(** X14.  Every row [select_unclassified] returns is a row of [files] that
    has no category, has a hash and has the status [scanned], and its path
    does not lie below any folder recorded with the action [keep]. *)
Theorem select_unclassified_returns_unclassified (db : Database) (limit : option Z)
    (rows : list (string * option string * Z)) (row : string * option string * Z) :
  select_unclassified db limit = inr rows ->
  In row rows ->
  exists f, In f (files db) /\ row = (path f, mime f, size f) /\
    category f = None /\ hash f <> None /\ status f = Some "scanned" /\
    forall fa, In fa (folder_actions db) -> action fa = "keep" ->
      descendant_of (folder_path fa) (path f) = false.
Proof.
  intros Hret. apply select_unclassified_returns in Hret as [-> _]. apply execute_sound.
Qed.

Lemma select_unclassified_returns_unclassified_witness :
  select_unclassified sample_db None = inr [("/data/other/c.txt", Some "text/plain", 10%Z)] /\
  In ("/data/other/c.txt", Some "text/plain", 10%Z)
     [("/data/other/c.txt", Some "text/plain", 10%Z)] /\
  exists f, In f (files sample_db) /\ path f = "/data/other/c.txt" /\ category f = None.
Proof.
  assert (select_unclassified sample_db None
          = inr [("/data/other/c.txt", Some "text/plain", 10%Z)]) as Hret
    by (vm_compute; reflexivity).
  assert (In ("/data/other/c.txt", Some "text/plain", 10%Z)
             [("/data/other/c.txt", Some "text/plain", 10%Z)]) as Hin by now left.
  split; [exact Hret|]. split; [exact Hin|].
  destruct (select_unclassified_returns_unclassified sample_db None _ _ Hret Hin)
    as (f & Hf & Hrow & Hc & _).
  exists f. split; [exact Hf|]. split; [|exact Hc]. congruence.
Defined.

Lemma sorted_map {A B : Type} (R : A -> A -> Prop) (R' : B -> B -> Prop) (f : A -> B)
    (l : list A) :
  (forall a b, R a b -> R' (f a) (f b)) -> StronglySorted R l -> StronglySorted R' (map f l).
Proof.
  intros HR H. induction H as [|a l Hs IH Ha]; simpl; constructor; [exact IH|].
  rewrite List.Forall_map. eapply List.Forall_impl; [|exact Ha]. intros b. apply HR.
Qed.

(** X15.  Without a limit [select_unclassified] returns, and the rows come
    ordered by the number of slashes of the path and, among equals, by the
    path.  A limit [n] from 0 up to 2^63 - 1 gives the first [n] rows of that
    list, a negative limit down to -2^63 gives all of it, and with any other
    limit the call raises [OverflowError]. *)
Theorem select_unclassified_order_and_limit (db : Database) (n : Z) :
  exists all : list (string * option string * Z),
    select_unclassified db None = inr all /\
    StronglySorted
      (fun r1 r2 : string * option string * Z =>
         count "/" r1.1.1 < count "/" r2.1.1 \/
         (count "/" r1.1.1 = count "/" r2.1.1 /\ leb r1.1.1 r2.1.1 = true))
      all /\
    ((0 <= n < 2 ^ 63)%Z ->
       select_unclassified db (Some n) = inr (take (Z.to_nat n) all) /\
       (Z.of_nat (length (take (Z.to_nat n) all)) <= n)%Z) /\
    ((- 2 ^ 63 <= n < 0)%Z -> select_unclassified db (Some n) = inr all) /\
    ((n < - 2 ^ 63 \/ 2 ^ 63 <= n)%Z -> select_unclassified db (Some n) = inl "OverflowError").
Proof.
  exists (execute db None). split; [reflexivity|].
  split; [|split; [|split]].
  - destruct (execute_sorted db) as (rows & -> & Hs).
    eapply sorted_map; [|exact Hs]. intros a b. unfold order_le. simpl.
    intros H. apply orb_true_iff in H as [H|H].
    + left. now apply Nat.ltb_lt.
    + right. apply andb_true_iff in H as [H1 H2]. apply Nat.eqb_eq in H1. now split.
  - intros Hn. unfold select_unclassified, fits_int64.
    destruct (Z.leb_spec (- 2 ^ 63) n); [|lia]. destruct (Z.ltb_spec n (2 ^ 63)); [|lia].
    simpl. rewrite (execute_limit db n) by lia. split; [reflexivity|].
    rewrite length_take. lia.
  - intros Hn. unfold select_unclassified, fits_int64.
    destruct (Z.leb_spec (- 2 ^ 63) n); [|lia]. destruct (Z.ltb_spec n (2 ^ 63)); [|lia].
    simpl. unfold execute, limited. destruct (Z.ltb_spec n 0); [reflexivity | lia].
  - intros Hn. unfold select_unclassified, fits_int64.
    destruct (Z.leb_spec (- 2 ^ 63) n); destruct (Z.ltb_spec n (2 ^ 63)); try reflexivity; lia.
Qed.

(** The dict [get_folder_actions] builds from the rows, started from [m]. *)
#[local] Abbreviation collect :=
  (fold_left (fun (m : gmap string string) (r : FolderActionRow) =>
                <[folder_path r := action r]> m)).

Lemma find_filter {A : Type} (p q : A -> bool) (l : list A) :
  (forall x, p x = true -> q x = true) -> List.find p (List.filter q l) = List.find p l.
Proof.
  intros H. induction l as [|x l IH]; simpl; [reflexivity|].
  destruct (q x) eqn:Eq; simpl.
  - now rewrite IH.
  - destruct (p x) eqn:Ep; [|exact IH]. apply H in Ep. congruence.
Qed.

Lemma find_snoc {A : Type} (p : A -> bool) (l : list A) (x : A) :
  List.find p (l ++ [x]) =
  match List.find p l with
  | Some y => Some y
  | None => if p x then Some x else None
  end.
Proof.
  induction l as [|y l IH]; simpl; [reflexivity|]. now destruct (p y).
Qed.

(** The value the dict holds for [k]: that of the last row with that key. *)
Lemma collect_lookup (rows : list FolderActionRow) (m : gmap string string) (k : string) :
  collect rows m !! k =
  match List.find (fun r => String.eqb (folder_path r) k) (rev rows) with
  | Some r => Some (action r)
  | None => m !! k
  end.
Proof.
  revert m. induction rows as [|r rows IH]; intros m; simpl; [reflexivity|].
  rewrite IH, find_snoc.
  destruct (List.find _ (rev rows)); [reflexivity|].
  destruct (String.eqb_spec (folder_path r) k) as [->|E].
  - now rewrite lookup_insert_eq.
  - now rewrite lookup_insert_ne.
Qed.

Lemma collect_insert_or_replace (rows : list FolderActionRow) (row : FolderActionRow) :
  collect (insert_or_replace rows row) ∅ = <[folder_path row := action row]> (collect rows ∅).
Proof.
  apply map_eq. intros k. unfold insert_or_replace.
  rewrite collect_lookup, rev_app_distr. simpl.
  destruct (String.eqb_spec (folder_path row) k) as [->|E].
  - now rewrite lookup_insert_eq.
  - rewrite lookup_insert_ne by exact E. rewrite collect_lookup.
    rewrite <- List.filter_rev, find_filter; [reflexivity|].
    intros x Hx. apply String.eqb_eq in Hx. apply negb_true_iff, String.eqb_neq. congruence.
Qed.

Lemma collect_saved (actions : list (string * string)) (decisions : gmap string string)
    (timestamp : Z) (rows : list FolderActionRow) :
  collect
    (fold_left
       (fun rows item =>
          insert_or_replace rows
            {| folder_path := item.1; action := item.2;
               decision_source := Some (default "unknown" (decisions !! item.1));
               decided_at := timestamp |})
       actions rows) ∅
  = fold_left (fun m item => <[item.1 := item.2]> m) actions (collect rows ∅).
Proof.
  revert rows. induction actions as [|item actions IH]; intros rows; simpl; [reflexivity|].
  now rewrite IH, collect_insert_or_replace.
Qed.

Lemma update_lookup (actions : list (string * string)) (m : gmap string string) (k : string) :
  (~ In k (map fst actions) ->
   fold_left (fun m item => <[item.1 := item.2]> m) actions m !! k = m !! k) /\
  (forall a, NoDup (map fst actions) -> In (k, a) actions ->
   fold_left (fun m item => <[item.1 := item.2]> m) actions m !! k = Some a).
Proof.
  revert m. induction actions as [|[k' a'] actions IH]; intros m; simpl.
  - split; [reflexivity|contradiction].
  - destruct (IH (<[k' := a']> m)) as [IH1 IH2]. split.
    + intros Hk. rewrite IH1 by tauto. apply lookup_insert_ne. tauto.
    + intros a Hnd [[= -> ->]|Hin].
      * apply NoDup_cons in Hnd as [Hk _]. rewrite IH1; [apply lookup_insert_eq|].
        intros H. apply Hk, list_elem_of_In, H.
      * apply NoDup_cons in Hnd as [_ Hnd]. now apply IH2.
Qed.

(** X16.  Folder actions that are saved are read back: after
    [save_folder_actions(actions, decisions)], [get_folder_actions()] gives,
    for a folder of [actions], the action saved (replacing what was stored
    for it), and for any other folder what it gave before. *)
Theorem saved_folder_actions_are_read_back (db : Database) (actions : list (string * string))
    (decisions : gmap string string) (timestamp : Z) (k : string) :
  NoDup (map fst actions) ->
  let db' := save_folder_actions db actions decisions timestamp in
  files db' = files db /\
  (forall a, In (k, a) actions -> get_folder_actions db' !! k = Some a) /\
  (~ In k (map fst actions) -> get_folder_actions db' !! k = get_folder_actions db !! k).
Proof.
  intros Hnd. cbv zeta. unfold get_folder_actions, save_folder_actions. simpl.
  rewrite collect_saved. split; [reflexivity|]. split.
  - intros a Hin. now apply update_lookup.
  - apply update_lookup.
Qed.

Lemma saved_folder_actions_are_read_back_witness :
  let db' := save_folder_actions sample_db [("/data/my_app", "disaggregate"); ("/data/other", "keep")]
               ∅ 1700000000 in
  NoDup (map fst [("/data/my_app", "disaggregate"); ("/data/other", "keep")]) /\
  get_folder_actions sample_db !! "/data/my_app" = Some "keep" /\
  get_folder_actions db' !! "/data/my_app" = Some "disaggregate" /\
  length (folder_actions db') = 2.
Proof.
  intros db'.
  assert (NoDup (map fst [("/data/my_app", "disaggregate"); ("/data/other", "keep")])) as Hnd.
  { apply (bool_decide_unpack _). vm_compute. exact I. }
  split; [exact Hnd|]. split; [reflexivity|]. split; [|reflexivity].
  destruct (saved_folder_actions_are_read_back sample_db
              [("/data/my_app", "disaggregate"); ("/data/other", "keep")] ∅ 1700000000
              "/data/my_app" Hnd) as (_ & H & _).
  apply H. now left.
Defined.

End DbProps.

(* ===================================================================== *)
(** * More on the folder policy *)
(* ===================================================================== *)

Module PolicyProps.
Import PyStr PyStrFacts Action Sorting SortingFacts Policy PolicyFacts.

(** X17.  The request built from a folder sample lists at most
    [FOLDER_SAMPLE_LIMIT] children, in the order of their names, each a
    child of the sample; when the sample has no more children than the limit
    all of them are listed.  The path, the file count and the empty hint go
    into the request as they are. *)
Theorem payload_lists_sorted_children (sample : FolderSample) (path : string) :
  let request := payload sample path in
  length (children request) <= FOLDER_SAMPLE_LIMIT /\
  StronglySorted (fun a b => leb (child_name a) (child_name b) = true) (children request) /\
  (forall c, In c (children request) ->
     exists info, In (child_name c, info) (sample_children sample) /\
                  child_type c = info_type info) /\
  (length (sample_children sample) <= FOLDER_SAMPLE_LIMIT ->
   Permutation (map child_name (children request)) (map fst (sample_children sample))) /\
  folder_path request = path /\ total_files request = sample_total_files sample /\
  rule_hint request = None.
Proof.
  cbv zeta. unfold payload. simpl.
  set (le := fun a b : string * ChildInfo => leb a.1 b.1).
  assert (Permutation (sort_by le (sample_children sample)) (sample_children sample)) as Hperm
    by apply sort_by_perm.
  assert (StronglySorted (fun a b => le a b = true) (sort_by le (sample_children sample)))
    as Hsorted.
  { apply sort_by_sorted.
    - intros a b. apply DbFacts.leb_total.
    - intros a b c. apply DbFacts.leb_trans. }
  assert (forall item : string * ChildInfo, child_name (payload_entry item) = item.1) as Hname.
  { intros [n info]. simpl. now destruct (String.eqb _ _). }
  split; [|split; [|split; [|split]]].
  - rewrite length_map, length_take. lia.
  - assert (StronglySorted (fun a b => le a b = true)
              (take FOLDER_SAMPLE_LIMIT (sort_by le (sample_children sample)))) as Ht.
    { revert Hsorted. generalize (sort_by le (sample_children sample)). generalize FOLDER_SAMPLE_LIMIT.
      intros n l H. revert n. induction H as [|a l Hs IH Ha]; intros [|n]; simpl; try constructor.
      - apply IH.
      - apply List.Forall_forall. intros x Hx. rewrite List.Forall_forall in Ha. apply Ha.
        rewrite <- (List.firstn_skipn n l). apply List.in_or_app. now left. }
    induction Ht as [|a l Hs IH Ha]; simpl; constructor; [exact IH|].
    rewrite List.Forall_map. eapply List.Forall_impl; [|exact Ha].
    intros b Hb. now rewrite !Hname.
  - intros c Hc. apply List.in_map_iff in Hc as ([n info] & <- & Hin).
    exists info. split.
    + rewrite Hname. simpl. apply (Permutation_in _ Hperm).
      rewrite <- (List.firstn_skipn FOLDER_SAMPLE_LIMIT (sort_by le _)).
      apply List.in_or_app. now left.
    + simpl. now destruct (String.eqb _ _).
  - intros Hlen. rewrite take_ge.
    + rewrite List.map_map. rewrite (List.map_ext _ fst) by exact Hname. now rewrite Hperm.
    + rewrite (Permutation_length Hperm). exact Hlen.
  - auto.
Qed.

Section Chain.
Context {World : Type} (_strip_sources : string -> string).

#[local] Abbreviation Advisor := (@Policy.Advisor World).

(** X18.  When the rules classifier returns a final decision with an
    action, that action is the decision of the folder, its source reads
    [rules:<action>:<reason>], and the AI classifier is not called: the world
    is the one the rules classifier left. *)
Theorem rules_decision_stops_chain (rules : Advisor) (classifier : option Advisor)
    (folder : string) (sample : FolderSample) (w w1 : World)
    (response : FolderActionResponse) (a : FolderAction) :
  rules w (payload sample (_strip_sources folder)) = (response, w1) ->
  is_final response = true -> action response = Some a ->
  _decide_folder_action _strip_sources folder (Some sample) (Some rules) classifier w
  = (a, "rules:" +:+ value a +:+ ":" +:+ default "None" (reason response), w1, ["rules"]).
Proof.
  intros Hr Hf Ha. unfold _decide_folder_action. simpl. now rewrite Hr, Hf, Ha.
Qed.

(** X19.  When the rules classifier delegates, the AI classifier is asked
    about the same folder with the hint of the rules in [rule_hint].  A final
    answer of the AI that carries an action decides; otherwise the chain is
    exhausted and the folder gets the last hint given (that of the AI when it
    delegated, that of the rules when the AI answered final without an
    action), or DISAGGREGATE when that hint is empty. *)
Theorem rules_hint_reaches_ai (rules ai : Advisor) (folder : string) (sample : FolderSample)
    (w w1 w2 : World) (r1 r2 : FolderActionResponse) :
  let request := payload sample (_strip_sources folder) in
  rules w request = (r1, w1) -> is_final r1 = false ->
  ai w1 (with_hint request (hint r1)) = (r2, w2) ->
  _decide_folder_action _strip_sources folder (Some sample) (Some rules) (Some ai) w
  = match is_final r2, action r2 with
    | true, Some a =>
        (a, "ai:" +:+ value a +:+ ":" +:+ default "None" (reason r2), w2, ["rules"; "ai"])
    | true, None =>
        let a := default DISAGGREGATE (hint r1) in
        (a, "default:chain_exhausted:" +:+ value a, w2, ["rules"; "ai"])
    | false, _ =>
        let a := default DISAGGREGATE (hint r2) in
        (a, "default:chain_exhausted:" +:+ value a, w2, ["rules"; "ai"])
    end.
Proof.
  intros request H1 Hf H2. unfold _decide_folder_action. fold request. simpl.
  rewrite H1, Hf, H2. destruct (is_final r2); [destruct (action r2)|]; reflexivity.
Qed.

Context (rules classifier : option Advisor) (samples : list (string * FolderSample)).

#[local] Abbreviation step := (step _strip_sources rules classifier samples).

Lemma walk_chain_names (chain : list (string * Advisor)) (request : FolderActionRequest)
    (w : World) (n : string) :
  In n (walk_chain chain request w).2 -> In n (map fst chain).
Proof.
  revert request w. induction chain as [|[name advise] chain IH]; intros request w; simpl;
    [tauto|].
  destruct (advise w request) as [response w1].
  destruct (is_final response); [destruct (action response)|].
  - simpl. tauto.
  - specialize (IH request w1). destruct (walk_chain chain request w1) as [[[r q] w2] asked].
    simpl in *. tauto.
  - specialize (IH (with_hint request (hint response)) w1).
    destruct (walk_chain chain _ w1) as [[[r q] w2] asked]. simpl in *. tauto.
Qed.

Lemma decide_names (folder : string) (sample : option FolderSample) (w : World) (n : string) :
  In n (_decide_folder_action _strip_sources folder sample rules classifier w).2 ->
  n = "rules" \/ n = "ai".
Proof.
  unfold _decide_folder_action. destruct sample as [sample|]; [|simpl; tauto].
  pose proof (walk_chain_names
                (match rules with Some r => [("rules", r)] | None => [] end ++
                 match classifier with Some c => [("ai", c)] | None => [] end)
                (payload sample (_strip_sources folder)) w n) as H.
  destruct (walk_chain _ _ w) as [[[[[a source]|] q] w'] asked]; simpl in *;
    intros Hn; apply H in Hn; destruct rules, classifier; simpl in Hn; intuition congruence.
Qed.

(** What the loop of [build_folder_action_map] keeps true. *)
#[local] Abbreviation consistent :=
  (fun st : Progress =>
     (forall k, is_Some (actions st !! k) <-> is_Some (decisions st !! k)) /\
     (forall k n, In (k, n) (asked st) ->
        is_Some (actions st !! k) /\ (n = "rules" \/ n = "ai"))).

Lemma step_consistent (st : Progress) (folder : string) :
  consistent st -> consistent (step st folder).
Proof.
  intros [Hd Ha]. unfold Policy.step. cbv zeta.
  destruct (truthy _); [now split|].
  pose proof (decide_names folder (dict_get samples folder) (world st)) as Hn.
  destruct (_decide_folder_action _ _ _ _ _ _) as [[[a source] w'] names]. simpl in *.
  split.
  - intros k. destruct (decide (k = folder)) as [->|Hne].
    + rewrite !lookup_insert_eq. split; eauto.
    + rewrite !lookup_insert_ne by congruence. apply Hd.
  - intros k n Hin. apply List.in_app_iff in Hin as [Hin|Hin].
    + destruct (Ha k n Hin) as [H1 H2]. split; [|exact H2].
      destruct (decide (k = folder)) as [->|Hne].
      * rewrite lookup_insert_eq. eauto.
      * now rewrite lookup_insert_ne by congruence.
    + apply List.in_map_iff in Hin as (x & [= <- <-] & Hx).
      split; [rewrite lookup_insert_eq; eauto|now apply Hn].
Qed.

Lemma run_consistent (l : list string) (st : Progress) :
  consistent st -> consistent (fold_left step l st).
Proof.
  revert st. induction l as [|f l IH]; intros st H; [exact H|]. simpl.
  apply IH, step_consistent, H.
Qed.

(** X20.  In the result of [build_folder_action_map] the actions and the
    decision sources have the same folders, all of them folders of the
    samples; and the classifiers were asked only about folders that are in
    the result, under the names [rules] and [ai]. *)
Theorem folder_action_map_is_consistent (w : World) (k : string) :
  let result := build_folder_action_map _strip_sources rules classifier samples w in
  (is_Some (actions result !! k) <-> is_Some (decisions result !! k)) /\
  (is_Some (actions result !! k) -> In k (map fst samples)) /\
  (forall n, In (k, n) (asked result) ->
     is_Some (actions result !! k) /\ (n = "rules" \/ n = "ai")).
Proof.
  cbv zeta. unfold build_folder_action_map.
  destruct (run_consistent
              (sort_by (fun a b => Nat.leb (depth a) (depth b)) (map fst samples))
              {| actions := ∅; decisions := ∅; world := w; asked := [] |}) as [Hd Ha].
  { split; [|simpl; tauto]. intros k'. simpl. rewrite !lookup_empty. split; intros [? ?]; discriminate. }
  split; [apply Hd|]. split; [|apply Ha].
  intros H. apply run_keys in H as [H|H].
  - eapply Permutation_in; [apply sort_by_perm|exact H].
  - simpl in H. rewrite lookup_empty in H. destruct H; discriminate.
Qed.

End Chain.

Lemma rules_decision_stops_chain_witness :
  mock_ai tt (payload one_file_sample "/project") = (decision KEEP "mock", tt) /\
  is_final (decision KEEP "mock") = true /\ action (decision KEEP "mock") = Some KEEP /\
  _decide_folder_action (fun s => s) "/project" (Some one_file_sample) (Some mock_ai)
    (Some mock_ai) tt
  = (KEEP, "rules:keep:mock", tt, ["rules"]).
Proof.
  assert (mock_ai tt (payload one_file_sample "/project") = (decision KEEP "mock", tt)) as Hr
    by reflexivity.
  assert (is_final (decision KEEP "mock") = true) as Hf by reflexivity.
  assert (action (decision KEEP "mock") = Some KEEP) as Ha by reflexivity.
  split; [exact Hr|]. split; [exact Hf|]. split; [exact Ha|].
  exact (rules_decision_stops_chain (fun s => s) mock_ai (Some mock_ai) "/project"
           one_file_sample tt tt (decision KEEP "mock") KEEP Hr Hf Ha).
Defined.

Lemma rules_hint_reaches_ai_witness :
  let request := payload one_file_sample "/other" in
  let r1 := delegate None "rule:requires_ai" in
  rules_advisor Rules.sample_rules tt request = (r1, tt) /\
  is_final r1 = false /\
  mock_ai tt (with_hint request (hint r1)) = (decision DISAGGREGATE "mock", tt) /\
  _decide_folder_action (fun s => s) "/other" (Some one_file_sample)
    (Some (rules_advisor Rules.sample_rules)) (Some mock_ai) tt
  = (DISAGGREGATE, "ai:disaggregate:mock", tt, ["rules"; "ai"]).
Proof.
  intros request r1.
  assert (rules_advisor Rules.sample_rules tt request = (r1, tt)) as H1 by reflexivity.
  assert (is_final r1 = false) as Hf by reflexivity.
  assert (mock_ai tt (with_hint request (hint r1)) = (decision DISAGGREGATE "mock", tt)) as H2
    by reflexivity.
  split; [exact H1|]. split; [exact Hf|]. split; [exact H2|].
  exact (rules_hint_reaches_ai (fun s => s) (rules_advisor Rules.sample_rules) mock_ai "/other"
           one_file_sample tt tt tt r1 (decision DISAGGREGATE "mock") H1 Hf H2).
Defined.

End PolicyProps.

(* ===================================================================== *)
(** * More on the file nodes *)
(* ===================================================================== *)

Module PlannerProps.
Import PyStr Pathlib Action Categories Media Planner.

Lemma folder_actions_fold (action_map : gmap string FolderAction)
    (l : list PurePosixPath) (acc : gmap string FolderAction) (k : string) :
  fold_left
    (fun acc current =>
       match action_map !! as_posix current with
       | Some a => <[as_posix current := a]> acc
       | None => acc
       end) l acc !! k
  = match (if bool_decide (k ∈ map as_posix l) then action_map !! k else None) with
    | Some a => Some a
    | None => acc !! k
    end.
Proof.
  revert acc. induction l as [|current l IH]; intros acc; cbn [fold_left map].
  - rewrite bool_decide_eq_false_2 by apply not_elem_of_nil. reflexivity.
  - rewrite IH. destruct (bool_decide (k ∈ map as_posix l)) eqn:El.
    + apply bool_decide_eq_true in El.
      rewrite bool_decide_eq_true_2 by (apply elem_of_cons; tauto).
      destruct (action_map !! k) eqn:Ek; [reflexivity|].
      destruct (action_map !! as_posix current) eqn:Ec; [|reflexivity].
      apply lookup_insert_ne. congruence.
    + apply bool_decide_eq_false in El.
      destruct (decide (as_posix current = k)) as [->|Hne].
      * rewrite bool_decide_eq_true_2 by (apply elem_of_cons; tauto).
        destruct (action_map !! k) eqn:Ek; [apply lookup_insert_eq|reflexivity].
      * rewrite bool_decide_eq_false_2
          by (rewrite elem_of_cons; intros [H|H]; [congruence|tauto]).
        destruct (action_map !! as_posix current); [|reflexivity].
        now apply lookup_insert_ne.
Qed.

(** X21.  The folder actions a file node carries are those of the action
    map for the directories above the file, the root excluded, keyed by
    their paths, and nothing else: an action recorded for a folder that is
    not above the file does not reach the node. *)
Theorem folder_actions_for_parents_only (physical_path : PurePosixPath)
    (action_map : gmap string FolderAction) (k : string) (a : FolderAction) :
  _folder_actions_for physical_path action_map !! k = Some a <->
  action_map !! k = Some a /\ In k (map as_posix (proper_parents physical_path)).
Proof.
  unfold _folder_actions_for. rewrite folder_actions_fold, lookup_empty.
  rewrite <- list_elem_of_In.
  destruct (bool_decide (k ∈ map as_posix (proper_parents physical_path))) eqn:E.
  - apply bool_decide_eq_true in E. destruct (action_map !! k); split; intros H.
    + now split.
    + tauto.
    + discriminate.
    + destruct H; discriminate.
  - apply bool_decide_eq_false in E. split; [discriminate|tauto].
Qed.

End PlannerProps.

(* ===================================================================== *)
(** * More on path synthesis *)
(* ===================================================================== *)

Module MediaProps.
Import PyStr PyStrFacts Pathlib PathlibFacts Action Categories Media MediaFacts Planner.

Lemma split_keep_except_perm (entries : list _DirEntry) (flag : bool) :
  Permutation ((split_keep_except entries flag).2 ++ (split_keep_except entries flag).1)
    (map value entries).
Proof.
  revert flag. induction entries as [|e rest IH]; intros flag; simpl; [reflexivity|].
  destruct (is_explicit_disaggregate e); [|destruct flag].
  - specialize (IH true). destruct (split_keep_except rest true) as [k d]. simpl in *.
    now constructor.
  - specialize (IH true). destruct (split_keep_except rest true) as [k d]. simpl in *.
    now constructor.
  - specialize (IH false). destruct (split_keep_except rest false) as [k d]. simpl in *.
    rewrite <- Permutation_middle. now constructor.
Qed.

(** The two layers [split_parts] makes hold the entries after the prefix. *)
Lemma split_parts_perm (entries : list _DirEntry) (strip_end : nat) :
  Permutation ((split_parts entries strip_end).1.1 ++ (split_parts entries strip_end).1.2)
    (map value (drop strip_end entries)).
Proof.
  unfold split_parts.
  destruct (_find_first_keep_index (drop strip_end entries)) as [i|] eqn:Ei.
  - rewrite <- drop_drop. remember (drop strip_end entries) as R eqn:HR. clear HR Ei.
    transitivity (map value (take i R ++ drop i R)); [|now rewrite take_drop].
    rewrite map_app.
    destruct (drop i R) as [|keep_entry rest] eqn:Ed.
    + simpl. reflexivity.
    + destruct (bool_decide (folder_action keep_entry = Some KEEP_EXCEPT)).
      * pose proof (split_keep_except_perm (keep_entry :: rest) false) as Hp.
        destruct (split_keep_except (keep_entry :: rest) false) as [k d].
        cbn [fst snd] in *. rewrite <- List.app_assoc. apply Permutation_app_head. exact Hp.
      * reflexivity.
  - simpl. now rewrite List.app_nil_r.
Qed.

(** X22.  The layers of the path that [build_destination] records hold
    every directory above the file exactly once: the source prefix, the
    disaggregated directories and the kept directories together are the
    parent directories of the file, and [file] is its name.  The role of the
    kept layer is [keep] when there is a kept directory and [suffix]
    otherwise. *)
Theorem layers_partition_parents (cfg : AppConfig) (file_node : FileNode) :
  let cp := build_destination cfg file_node in
  let layers := full_path cp in
  Permutation (source_prefix layers ++ disaggregated layers ++ kept layers)
    (map value (_collect_parent_entries (physical_path file_node))) /\
  file layers = Pathlib.name (physical_path file_node) /\
  original layers = physical_path file_node /\
  kept_role layers = (if bool_decide (kept layers = []) then "suffix" else "keep") /\
  category_path cp = category file_node.
Proof.
  cbv zeta. unfold build_destination. cbv zeta.
  pose proof (split_parts_perm (labelled_entries file_node) (strip_end_of cfg file_node)) as Hp.
  destruct (split_parts (labelled_entries file_node) (strip_end_of cfg file_node))
    as [[disagg_parts kept_parts] explicit_keep].
  simpl in Hp. cbn [full_path source_prefix disaggregated kept file original kept_role category_path].
  split; [|split; [reflexivity|split; [reflexivity|split; [|reflexivity]]]].
  - rewrite Hp, <- map_app, take_drop. unfold labelled_entries.
    now rewrite label_entries_value.
  - now destruct (bool_decide (kept_parts = [])).
Qed.

Lemma keep_is_keep (e : _DirEntry) : folder_action e = Some KEEP -> is_keep e = true.
Proof. intros H. unfold is_keep. now rewrite H. Qed.

Lemma split_parts_keep (entries : list _DirEntry) (strip_end : nat)
    (before : list _DirEntry) (pivot : _DirEntry) (after : list _DirEntry) :
  drop strip_end entries = before ++ pivot :: after ->
  Forall (fun e => is_keep e = false) before ->
  folder_action pivot = Some KEEP ->
  (split_parts entries strip_end).1 = (map value before, map value (pivot :: after)).
Proof.
  intros Hrest Hb Hp. unfold split_parts.
  rewrite Hrest, (find_first_keep _ _ _ Hb (keep_is_keep _ Hp)).
  rewrite take_app_length.
  assert (drop (strip_end + length before) entries = pivot :: after) as Hfrom.
  { rewrite <- drop_drop, Hrest, drop_app_length. reflexivity. }
  rewrite Hfrom, Hp. reflexivity.
Qed.

(** X23.  When the keep pivot (the first remaining directory whose action
    is KEEP or KEEP_EXCEPT) is KEEP, the pivot and every directory below it
    are kept, whatever their own actions, an explicit DISAGGREGATE
    included; the directories before the pivot are disaggregated; and the
    destination is built from the target, the category, the kept
    directories and the file name. *)
Theorem keep_pivot_keeps_everything_below
    (cfg : AppConfig) (file_node : FileNode)
    (before : list _DirEntry) (pivot : _DirEntry) (after : list _DirEntry) :
  remaining_entries cfg file_node = before ++ pivot :: after ->
  Forall (fun e => is_keep e = false) before ->
  folder_action pivot = Some KEEP ->
  let cp := build_destination cfg file_node in
  let kept_parts := map value (pivot :: after) in
  let name := Pathlib.name (physical_path file_node) in
  kept (full_path cp) = kept_parts /\
  disaggregated (full_path cp) = map value before /\
  destination_path cp =
    Path (as_posix
      (if explicit_template cfg (category file_node)
       then joinpath (Path (MAIN_TARGET cfg))
              (render_template
                 (default EmptyString (template_for (categories cfg) (category file_node)))
                 (metadata file_node) (Some (category file_node))
                 (Some (join "/" kept_parts)) (Some name) true)
       else joinpath
              (truediv (Path_of (MAIN_TARGET cfg) (_parts (category file_node)))
                 (Path_of_parts kept_parts))
              name)).
Proof.
  intros Hrest Hb Hp.
  pose proof (split_parts_keep (labelled_entries file_node) (strip_end_of cfg file_node)
                before pivot after Hrest Hb Hp) as Hsplit.
  unfold build_destination. cbv zeta.
  destruct (split_parts (labelled_entries file_node) (strip_end_of cfg file_node))
    as [[disagg_parts kept_parts] explicit_keep].
  simpl in Hsplit. injection Hsplit as -> ->.
  cbn [full_path kept disaggregated destination_path].
  split; [reflexivity|]. split; [reflexivity|].
  rewrite andb_true_r. cbn [negb bool_decide]. reflexivity.
Qed.

Lemma find_first_keep_none (entries : list _DirEntry) :
  Forall (fun e => is_keep e = false) entries -> _find_first_keep_index entries = None.
Proof.
  intros H. induction H as [|e rest He _ IH]; simpl; [reflexivity|]. now rewrite He, IH.
Qed.

(** X24.  When no remaining directory is KEEP or KEEP_EXCEPT, nothing is
    kept: all remaining directories are disaggregated, none of them appears
    in the destination, which is the target, the category and the file
    name, put together by the template of the category (its own or the
    default one) when there is one. *)
Theorem no_keep_gives_flat_destination (cfg : AppConfig) (file_node : FileNode) :
  Forall (fun e => is_keep e = false) (remaining_entries cfg file_node) ->
  let cp := build_destination cfg file_node in
  let name := Pathlib.name (physical_path file_node) in
  let template := default EmptyString (template_for (categories cfg) (category file_node)) in
  kept (full_path cp) = [] /\
  disaggregated (full_path cp) = map value (remaining_entries cfg file_node) /\
  kept_role (full_path cp) = "suffix" /\
  destination_path cp =
    Path (as_posix
      (if nonempty template
       then joinpath (Path (MAIN_TARGET cfg))
              (render_template template (metadata file_node) (Some (category file_node))
                 None (Some name) true)
       else joinpath (Path_of (MAIN_TARGET cfg) (_parts (category file_node))) name)).
Proof.
  intros Hnone. unfold build_destination. cbv zeta.
  assert (split_parts (labelled_entries file_node) (strip_end_of cfg file_node)
          = (map value (remaining_entries cfg file_node), [], false)) as ->.
  { unfold split_parts. fold (remaining_entries cfg file_node).
    now rewrite (find_first_keep_none _ Hnone). }
  cbn [full_path kept disaggregated destination_path kept_role].
  rewrite andb_false_r. cbn [negb bool_decide]. repeat split; reflexivity.
Qed.

Lemma label_entry_default (e : _DirEntry) : folder_action (label_entry ∅ e) = Some KEEP.
Proof. unfold label_entry. now rewrite lookup_empty. Qed.

(** X25.  A directory without a recorded action counts as KEEP: for a
    file none of whose folders has an action yet, every directory after the
    stripped prefix is kept and none is disaggregated. *)
Theorem no_actions_keep_whole_structure (cfg : AppConfig) (file_node : FileNode) :
  folder_actions file_node = ∅ ->
  let cp := build_destination cfg file_node in
  kept (full_path cp) = map value (remaining_entries cfg file_node) /\
  disaggregated (full_path cp) = [].
Proof.
  intros Hempty. unfold build_destination. cbv zeta.
  assert ((split_parts (labelled_entries file_node) (strip_end_of cfg file_node)).1
          = ([], map value (remaining_entries cfg file_node))) as Hsplit.
  { unfold remaining_entries.
    destruct (drop (strip_end_of cfg file_node) (labelled_entries file_node))
      as [|pivot after] eqn:Hrest.
    - unfold split_parts. now rewrite Hrest.
    - apply (split_parts_keep _ _ [] pivot after Hrest); [constructor|].
      assert (In pivot (labelled_entries file_node)) as Hin.
      { rewrite <- (take_drop (strip_end_of cfg file_node) (labelled_entries file_node)), Hrest.
        apply List.in_or_app. right. now left. }
      unfold labelled_entries, _label_entries in Hin. rewrite Hempty in Hin.
      apply List.in_map_iff in Hin as (e & <- & _). apply label_entry_default. }
  destruct (split_parts (labelled_entries file_node) (strip_end_of cfg file_node))
    as [[disagg_parts kept_parts] explicit_keep].
  simpl in Hsplit. injection Hsplit as -> ->. now split.
Qed.

Lemma keep_pivot_keeps_everything_below_witness :
  let cp := build_destination plain_cfg (track_node album_actions) in
  remaining_entries plain_cfg (track_node album_actions) =
    [entry_of "Music" "/sources/Music" DISAGGREGATE true]
    ++ entry_of "Album" "/sources/Music/Album" KEEP true
    :: [entry_of "CD1" "/sources/Music/Album/CD1" DISAGGREGATE true] /\
  Forall (fun e => is_keep e = false) [entry_of "Music" "/sources/Music" DISAGGREGATE true] /\
  kept (full_path cp) = ["Album"; "CD1"] /\
  disaggregated (full_path cp) = ["Music"] /\
  destination cp = "/target/Media/Music/Album/CD1/track.flac".
Proof.
  intros cp.
  assert (remaining_entries plain_cfg (track_node album_actions) =
            [entry_of "Music" "/sources/Music" DISAGGREGATE true]
            ++ entry_of "Album" "/sources/Music/Album" KEEP true
            :: [entry_of "CD1" "/sources/Music/Album/CD1" DISAGGREGATE true]) as Hrest
    by (vm_compute; reflexivity).
  assert (Forall (fun e => is_keep e = false)
            [entry_of "Music" "/sources/Music" DISAGGREGATE true]) as Hb
    by (constructor; [reflexivity|constructor]).
  split; [exact Hrest|]. split; [exact Hb|].
  destruct (keep_pivot_keeps_everything_below plain_cfg (track_node album_actions)
              _ _ _ Hrest Hb eq_refl) as (Hk & Hd & _).
  split; [exact Hk|]. split; [exact Hd|]. vm_compute. reflexivity.
Defined.

Lemma no_keep_gives_flat_destination_witness :
  let cp := build_destination plain_cfg (track_node flat_actions) in
  Forall (fun e => is_keep e = false) (remaining_entries plain_cfg (track_node flat_actions)) /\
  kept (full_path cp) = [] /\
  disaggregated (full_path cp) = ["Music"; "Album"; "CD1"] /\
  destination cp = "/target/Media/Music/track.flac".
Proof.
  intros cp.
  assert (Forall (fun e => is_keep e = false)
            (remaining_entries plain_cfg (track_node flat_actions))) as Hnone
    by (vm_compute; repeat constructor).
  split; [exact Hnone|].
  destruct (no_keep_gives_flat_destination plain_cfg (track_node flat_actions) Hnone)
    as (Hk & Hd & _).
  split; [exact Hk|]. split; [etransitivity; [exact Hd|vm_compute; reflexivity]|]. vm_compute. reflexivity.
Defined.

Lemma no_actions_keep_whole_structure_witness :
  let cp := build_destination plain_cfg (track_node ∅) in
  folder_actions (track_node ∅) = ∅ /\
  kept (full_path cp) = ["Music"; "Album"; "CD1"] /\
  disaggregated (full_path cp) = [] /\
  destination cp = "/target/Media/Music/Music/Album/CD1/track.flac".
Proof.
  intros cp. split; [reflexivity|].
  destruct (no_actions_keep_whole_structure plain_cfg (track_node ∅) eq_refl) as (Hk & Hd).
  split; [etransitivity; [exact Hk|vm_compute; reflexivity]|]. split; [exact Hd|]. vm_compute. reflexivity.
Defined.

(** The loop of [_collect_parent_entries] over directory names. *)
Lemma collect_entries_names (parts accum : list string) :
  Forall wf_name parts -> Forall (fun n => endswith ":" n = false) parts ->
  collect_entries parts accum =
  map (fun i =>
         {| value := nth i parts ""; lower_value := lower (nth i parts "");
            abs_path := "/" +:+ join "/" (accum ++ take (S i) parts);
            folder_action := None; action_source := None |})
    (seq 0 (length parts)).
Proof.
  intros Hwf. revert accum. induction Hwf as [|part rest Hpart _ IH]; intros accum Hcolon;
    [reflexivity|].
  apply Forall_cons in Hcolon as [Hc Hcolon].
  cbn [collect_entries]. rewrite (strip_slash_name _ Hpart), Hc.
  destruct Hpart as [Hkeep _]. unfold keep_name in Hkeep.
  apply andb_true_iff in Hkeep as [Hne _]. rewrite Hne. cbn [negb orb length seq map].
  f_equal.
  rewrite (IH (accum ++ [part]) Hcolon), <- List.seq_shift, List.map_map.
  apply List.map_ext. intros i. cbn [nth]. now rewrite <- List.app_assoc.
Qed.

Lemma nth_seq (l : list string) :
  map (fun i => nth i l "") (seq 0 (length l)) = l.
Proof.
  induction l as [|x l IH]; [reflexivity|].
  cbn [length seq map nth]. f_equal.
  rewrite <- List.seq_shift, List.map_map. exact IH.
Qed.

Lemma parents_upto_rev {B : Type} (f : PurePosixPath -> B) (r : string) (ns : list string)
    (n : nat) :
  rev (map f (parents_upto r ns n))
  = map (fun i => f {| root := r; names := take (S i) ns |}) (seq 0 n).
Proof.
  induction n as [|n IH]; [reflexivity|].
  cbn [parents_upto map rev]. rewrite IH, List.seq_S, map_app. reflexivity.
Qed.

(** X26.  For an absolute path whose directories have ordinary names, the
    entries [build_destination] walks are the directories above the file,
    from the top down, and each is looked up in the folder actions under
    the very path [_folder_actions_for] files the action of that directory
    under. *)
Theorem parent_entries_match_action_keys (p : PurePosixPath) :
  root p = "/" -> Forall wf_name (names p) ->
  Forall (fun n => endswith ":" n = false) (names p) ->
  map value (_collect_parent_entries p) = removelast (names p) /\
  map abs_path (_collect_parent_entries p) = rev (map as_posix (proper_parents p)).
Proof.
  intros Hroot Hwf Hcolon.
  assert (_collect_parent_entries p = collect_entries (removelast (names p)) []) as ->.
  { unfold _collect_parent_entries, parent, parts. cbn [root names]. rewrite Hroot. reflexivity. }
  assert (removelast (names p) = take (length (names p) - 1) (names p)) as Hrl.
  { rewrite List.removelast_firstn_len. f_equal. lia. }
  rewrite collect_entries_names.
  - rewrite !List.map_map. cbn [value abs_path]. split.
    + apply nth_seq.
    + unfold proper_parents. rewrite parents_upto_rev, Hroot, Hrl, length_take.
      rewrite Nat.min_l by lia.
      apply List.map_ext_in. intros i Hi. apply List.in_seq in Hi.
      unfold as_posix. cbn [root names]. rewrite take_take.
      rewrite Nat.min_l by lia.
      destruct (take (S i) (names p)); reflexivity.
  - rewrite Hrl. now apply Forall_take.
  - rewrite Hrl. now apply Forall_take.
Qed.

Lemma parent_entries_match_action_keys_witness :
  let p := Path "/sources/Music/Album/CD1/track.flac" in
  root p = "/" /\ Forall wf_name (names p) /\
  Forall (fun n => endswith ":" n = false) (names p) /\
  map abs_path (_collect_parent_entries p)
  = ["/sources"; "/sources/Music"; "/sources/Music/Album"; "/sources/Music/Album/CD1"].
Proof.
  intros p.
  assert (root p = "/") as Hroot by reflexivity.
  assert (Forall wf_name (names p)) as Hwf by apply parse_names_wf.
  assert (Forall (fun n => endswith ":" n = false) (names p)) as Hcolon
    by (vm_compute; repeat constructor).
  split; [exact Hroot|]. split; [exact Hwf|]. split; [exact Hcolon|].
  destruct (parent_entries_match_action_keys p Hroot Hwf Hcolon) as [_ H].
  rewrite H. vm_compute. reflexivity.
Defined.

End MediaProps.

(* ===================================================================== *)
(** * More on categories and templates *)
(* ===================================================================== *)

Module CategoriesProps.
Import PyStr PyStrFacts Categories CategoriesFacts MediaFacts.

Lemma rstrip_with_idem (p : ascii -> bool) (s : string) :
  rstrip_with p (rstrip_with p s) = rstrip_with p s.
Proof.
  induction s as [|c s IH]; [reflexivity|]. cbn [rstrip_with].
  destruct (rstrip_with p s) as [|d r] eqn:E.
  - destruct (p c) eqn:Ep; [reflexivity|]. cbn [rstrip_with]. now rewrite Ep.
  - cbn [rstrip_with]. cbn [rstrip_with] in IH. now rewrite IH.
Qed.

Lemma lstrip_with_idem (p : ascii -> bool) (s : string) :
  lstrip_with p (lstrip_with p s) = lstrip_with p s.
Proof.
  induction s as [|c s IH]; [reflexivity|]. cbn [lstrip_with].
  destruct (p c) eqn:Ep; [exact IH|]. cbn [lstrip_with]. now rewrite Ep.
Qed.

(** What [rstrip] leaves stays as it is under [lstrip]. *)
Lemma rstrip_lstrip (p : ascii -> bool) (t : string) :
  rstrip_with p t = t -> rstrip_with p (lstrip_with p t) = lstrip_with p t.
Proof.
  induction t as [|c t IH]; [reflexivity|]. cbn [lstrip_with].
  destruct (p c) eqn:Ep; [|tauto].
  intros H. apply IH. cbn [rstrip_with] in H.
  destruct (rstrip_with p t) as [|d r]; [rewrite Ep in H; discriminate|].
  now injection H.
Qed.

Lemma strip_with_idem (p : ascii -> bool) (s : string) :
  strip_with p (strip_with p s) = strip_with p s.
Proof.
  unfold strip_with.
  rewrite (rstrip_lstrip p (rstrip_with p s)) by apply rstrip_with_idem.
  apply lstrip_with_idem.
Qed.

Lemma smap_id (f : ascii -> ascii) (s : string) :
  (forall c, In c (chars s) -> f c = c) -> smap f s = s.
Proof.
  induction s as [|c s IH]; intros H; [reflexivity|]. cbn [smap].
  rewrite (H c) by now left. rewrite IH; [reflexivity|]. intros d Hd. apply H. now right.
Qed.

(** The replacement [_sanitize_component] makes, character by character. *)
#[local] Abbreviation replaced :=
  (fun c : ascii => if Ascii.eqb c "/" || is_reserved c then "_"%char else c).

Lemma replaced_safe (d : ascii) : (Ascii.eqb (replaced d) "/" || is_reserved (replaced d)) = false.
Proof.
  cbn beta. destruct (Ascii.eqb d "/" || is_reserved d) eqn:E; [reflexivity|exact E].
Qed.

(** X27.  A sanitized path component has no slash and none of the
    characters [<>:|?*], has no blank at either end, and sanitizing it
    again changes nothing. *)
Theorem sanitize_component_is_idempotent (value : string) :
  let r := _sanitize_component value in
  (forall c, In c (chars r) -> c <> "/"%char /\ is_reserved c = false) /\
  strip r = r /\
  _sanitize_component r = r.
Proof.
  cbv zeta.
  assert (forall c, In c (chars (_sanitize_component value)) ->
            (Ascii.eqb c "/" || is_reserved c) = false) as Hsafe.
  { unfold _sanitize_component. destruct (nonempty (strip value)); [|intros c []].
    intros c Hc. apply in_strip_with, in_smap in Hc as [d ->]. apply replaced_safe. }
  assert (strip (_sanitize_component value) = _sanitize_component value) as Hstrip.
  { unfold _sanitize_component. destruct (nonempty (strip value)); [|reflexivity].
    apply strip_with_idem. }
  split; [|split; [exact Hstrip|]].
  - intros c Hc. apply Hsafe, orb_false_iff in Hc as [H1 H2]. split; [|exact H2].
    intros ->. discriminate.
  - unfold _sanitize_component at 1. rewrite Hstrip.
    destruct (nonempty (_sanitize_component value)) eqn:E.
    + cbn [negb]. rewrite smap_id; [exact Hstrip|].
      intros c Hc. now rewrite (Hsafe c Hc).
    + cbn [negb]. now destruct (_sanitize_component value).
Qed.

Lemma tree_induction (P : Tree -> Prop) :
  (forall items, Forall (fun kv : string * Tree => P kv.2) items -> P (Node items)) ->
  forall t, P t.
Proof.
  intros H. fix IH 1. intros [items]. apply H.
  induction items as [|[k v] rest IHrest]; constructor; [apply IH|exact IHrest].
Qed.

(** An index whose keys are the lower-cased forms of their values. *)
#[local] Abbreviation keyed_by_lower :=
  (fun pl : gmap (list string) (list string) =>
     forall k v, pl !! k = Some v -> map lower v = k).

Lemma index_tree_keyed (tree : Tree) :
  forall prefix acc, keyed_by_lower acc -> keyed_by_lower (_index_tree tree prefix acc).
Proof.
  induction tree as [items IH] using tree_induction. intros prefix acc Hacc.
  cbn [_index_tree]. revert acc Hacc.
  induction IH as [|[key value] rest Hvalue _ IHrest]; intros acc Hacc; [exact Hacc|].
  apply IHrest. apply Hvalue. intros k v Hkv.
  destruct (decide (map lower (prefix ++ [key]) = k)) as [<-|Hne].
  - rewrite lookup_insert_eq in Hkv. now injection Hkv as <-.
  - rewrite lookup_insert_ne in Hkv by exact Hne. now apply Hacc.
Qed.

Lemma lookup_prefixes_shape pl norm parts idx r :
  _lookup_prefixes pl norm parts idx = Some r ->
  exists k canonical, 1 <= k <= idx /\ pl !! take k norm = Some canonical /\
                      r = canonical ++ drop k parts.
Proof.
  induction idx as [|i IH]; [discriminate|]. cbn [_lookup_prefixes].
  destruct (pl !! take (S i) norm) as [[|c cs]|] eqn:E.
  - intros H. destruct (IH H) as (k & canonical & Hk & Hc & ->).
    exists k, canonical. split; [lia|]. now split.
  - intros [= <-]. exists (S i), (c :: cs). split; [lia|]. now split.
  - intros H. destruct (IH H) as (k & canonical & Hk & Hc & ->).
    exists k, canonical. split; [lia|]. now split.
Qed.

(** X28.  What [_lookup] finds for the parts of a category differs from
    them in the case of letters only: the parts it matched are replaced by
    the canonical spelling of the catalog, the others are left as they were. *)
Theorem lookup_changes_case_only (tree : Tree) (templates : gmap (list string) string)
    (parts r : list string) :
  _lookup (Categories_init tree templates) parts = Some r ->
  map lower r = map lower parts /\ length r = length parts.
Proof.
  intros H.
  assert (map lower r = map lower parts) as Hlower.
  { assert (keyed_by_lower (_path_lookup (Categories_init tree templates))) as Hkeyed.
    { apply index_tree_keyed. intros k v Hkv. rewrite lookup_empty in Hkv. discriminate. }
    revert H. unfold _lookup.
    destruct (_path_lookup _ !! map lower parts) as [canonical|] eqn:E.
    - intros [= <-]. now apply Hkeyed.
    - destruct (Nat.eqb_spec (length parts) 1) as [Hone|_].
      + intros H. apply Hkeyed in H. rewrite H. apply take_ge. rewrite length_map. lia.
      + intros H. apply lookup_prefixes_shape in H as (k & canonical & _ & Hc & ->).
        apply Hkeyed in Hc. rewrite map_app, Hc, <- List.skipn_map. apply take_drop. }
  split; [exact Hlower|].
  rewrite <- (length_map lower r), Hlower. apply length_map.
Qed.

Lemma lookup_changes_case_only_witness :
  _lookup (Categories_init sample_tree ∅) ["documents"; "OTHER"; "Academic"]
  = Some ["Documents"; "Other"; "Academic"] /\
  map lower ["Documents"; "Other"; "Academic"] = map lower ["documents"; "OTHER"; "Academic"].
Proof.
  assert (_lookup (Categories_init sample_tree ∅) ["documents"; "OTHER"; "Academic"]
          = Some ["Documents"; "Other"; "Academic"]) as H by (vm_compute; reflexivity).
  split; [exact H|].
  exact (proj1 (lookup_changes_case_only sample_tree ∅ _ _ H)).
Defined.

(** The tokens of a placeholder. *)
#[local] Abbreviation tokens_of :=
  (fun content : string => List.filter nonempty (map strip (split_on "|" content))).

Lemma resolve_missing_step (context : gmap string MetaValue) (t : string)
    (rest : list string) (total : nat) (used : list string) :
  context !! t = None ->
  resolve_tokens context (t :: rest) total used =
  match rest with
  | [] => if Nat.ltb 1 total then (t, used) else (EmptyString, used)
  | _ => resolve_tokens context rest total used
  end.
Proof.
  intros Ht. cbn [resolve_tokens]. rewrite Ht. cbn [truth]. rewrite !andb_false_r.
  reflexivity.
Qed.

Lemma resolve_tokens_missing (context : gmap string MetaValue) (missing rest : list string)
    (total : nat) (used : list string) :
  Forall (fun t => context !! t = None) missing -> rest <> [] ->
  resolve_tokens context (missing ++ rest) total used = resolve_tokens context rest total used.
Proof.
  intros Hm Hrest. induction Hm as [|t missing Ht _ IH]; [reflexivity|].
  cbn [app]. rewrite (resolve_missing_step _ _ _ _ _ Ht).
  destruct (missing ++ rest) eqn:E; [|exact IH].
  apply app_eq_nil in E as [_ E]. contradiction.
Qed.

Lemma resolve_tokens_all_missing (context : gmap string MetaValue) (missing : list string)
    (total : nat) (used : list string) :
  Forall (fun t => context !! t = None) missing ->
  resolve_tokens context missing total used
  = (if Nat.ltb 1 total then List.last missing "" else "", used).
Proof.
  intros Hm. induction Hm as [|t missing Ht _ IH].
  - cbn [resolve_tokens List.last]. now destruct (Nat.ltb 1 total).
  - rewrite (resolve_missing_step _ _ _ _ _ Ht).
    destruct missing as [|t' missing']; [now destruct (Nat.ltb 1 total)|]. exact IH.
Qed.

(** X29.  A placeholder is resolved by its first token that has a value.
    Tokens without a value are passed over.  When a token (other than
    [suffix] and [ai_category], which are treated apart) has a text value
    that is not blank, the placeholder becomes that text, trimmed, and the
    text is noted among the values used; when no token has a value, the
    placeholder becomes its last token, taken literally, if it has more than
    one token, and nothing if it has one only. *)
Theorem placeholder_takes_first_value (content : string) (context : gmap string MetaValue)
    (used_values : list string) (missing : list string) :
  Forall (fun t => context !! t = None) missing ->
  (tokens_of content = missing ->
   _resolve_placeholder content context used_values
   = (if Nat.ltb 1 (length missing) then List.last missing "" else "", used_values)) /\
  (forall t text rest,
     tokens_of content = missing ++ t :: rest ->
     context !! t = Some (MStr text) -> nonempty (strip text) = true ->
     t <> "suffix" -> t <> "ai_category" ->
     _resolve_placeholder content context used_values
     = (strip text, used_values ++ [strip text])).
Proof.
  intros Hm. unfold _resolve_placeholder. split.
  - intros ->. now apply resolve_tokens_all_missing.
  - intros t text rest -> Ht Htext Hs Ha.
    rewrite resolve_tokens_missing by (try exact Hm; discriminate).
    cbn [resolve_tokens]. rewrite Ht.
    apply String.eqb_neq in Hs, Ha. rewrite Hs, Ha.
    cbn [andb _coerce_placeholder_value]. rewrite Htext.
    cbn [str_of negb]. unfold strip. rewrite strip_with_idem. fold (strip text).
    now rewrite Htext.
Qed.

Lemma placeholder_takes_first_value_witness :
  Forall (fun t => Media.music_tags !! t = None) ["composer"] /\
  _resolve_placeholder "composer | artist | Unknown Artist" Media.music_tags []
  = ("Tagged Artist", ["Tagged Artist"]) /\
  Forall (fun t => (∅ : gmap string MetaValue) !! t = None) ["artist"; "Unknown Artist"] /\
  _resolve_placeholder "artist|Unknown Artist" ∅ [] = ("Unknown Artist", []).
Proof.
  assert (Forall (fun t => Media.music_tags !! t = None) ["composer"]) as H1
    by (constructor; [reflexivity|constructor]).
  assert (Forall (fun t => (∅ : gmap string MetaValue) !! t = None) ["artist"; "Unknown Artist"])
    as H2 by (repeat constructor).
  split; [exact H1|]. split.
  - destruct (placeholder_takes_first_value "composer | artist | Unknown Artist"
                Media.music_tags [] ["composer"] H1) as [_ H].
    apply (H "artist" "Tagged Artist" ["Unknown Artist"]); try reflexivity; discriminate.
  - split; [exact H2|].
    destruct (placeholder_takes_first_value "artist|Unknown Artist" ∅ []
                ["artist"; "Unknown Artist"] H2) as [H _].
    apply H. reflexivity.
Defined.

End CategoriesProps.

(* ===================================================================== *)
(** * More on the folder actions *)
(* ===================================================================== *)

Module ActionProps.
Import PyStr Action.

(** X30.  The two parsers invert [str()] up to the case of letters and to
    blanks around the text: a text whose trimmed, lower-cased form is the
    value of a member is parsed to that member.  An empty or blank text is
    refused by both. *)
Theorem from_string_inverts_str (v : string) :
  (forall a, lower (strip v) = value a -> from_string v = Some a) /\
  (forall r, lower (strip v) = RequiresAI_value r -> RequiresAI_from_string v = Some r) /\
  (strip v = "" -> from_string v = None /\ RequiresAI_from_string v = None).
Proof.
  split; [|split].
  - intros a H. unfold from_string. destruct v as [|c v].
    + destruct a; discriminate.
    + cbn [nonempty negb]. rewrite H. now destruct a.
  - intros r H. unfold RequiresAI_from_string. destruct v as [|c v].
    + destruct r; discriminate.
    + cbn [nonempty negb]. rewrite H. now destruct r.
  - intros H. unfold from_string, RequiresAI_from_string.
    destruct v as [|c v]; [now split|]. cbn [nonempty negb]. rewrite H. now split.
Qed.

Lemma from_string_inverts_str_witness :
  let v := String (ascii_of_nat 9) " Keep_EXCEPT  " in
  lower (strip v) = value KEEP_EXCEPT /\ from_string v = Some KEEP_EXCEPT /\
  lower (strip " AI ") = RequiresAI_value AI /\ RequiresAI_from_string " AI " = Some AI.
Proof.
  intros v.
  assert (lower (strip v) = value KEEP_EXCEPT) as H1 by reflexivity.
  assert (lower (strip " AI ") = RequiresAI_value AI) as H2 by reflexivity.
  split; [exact H1|]. split; [exact (proj1 (from_string_inverts_str v) KEEP_EXCEPT H1)|].
  split; [exact H2|].
  exact (proj1 (proj2 (from_string_inverts_str " AI ")) AI H2).
Defined.

End ActionProps.
